(** * The audio playback engine of sim-jjj: device lifecycle, resampler
      normalisation and [playAudioData]

    A shallow embedding of [src/audio.cpp] and of the header that declares
    [Audio], [CDevice], [CResampler], [SoundPayload] and [determineFormat].

    - C++ [int] and [uint64_t] values are integers in [Z]; the unsigned
      wrap-around of the 64-bit products is written out with [mod].
    - A pointer that may be null is an [option].
    - The member variables of [Audio] form the record [Audio]; a member
      function is a computation in the monad [M], which threads the object,
      collects the observable events of the call (log lines, native calls,
      releases of memory) and ends normally, by a C++ exception, or in
      undefined behaviour.
    - miniaudio and the C++ standard library are not part of the
      repository: their calls are fields of the record [Env].
    - Allocations are taken to succeed: an exit by [std::bad_alloc] is not
      part of the model. *)

From Stdlib Require Import ZArith String Lia.
From stdpp Require Import base list strings sorting.

Local Open Scope Z_scope.

(** ** Values of the miniaudio interface *)

Inductive ma_result : Set :=
| MA_SUCCESS
| MA_ERROR
| MA_INVALID_ARGS
| MA_INVALID_OPERATION
| MA_OUT_OF_MEMORY
| MA_NO_BACKEND.

Inductive ma_format : Set :=
| ma_format_unknown
| ma_format_u8
| ma_format_s16
| ma_format_s24
| ma_format_s32
| ma_format_f32.

#[global] Instance ma_result_eq_dec : EqDecision ma_result.
Proof. solve_decision. Defined.

#[global] Instance ma_format_eq_dec : EqDecision ma_format.
Proof. solve_decision. Defined.

(** [ma_device_id] is an opaque token of the backend; [ma_device_id_equal]
    compares two of them by content. *)
Definition ma_device_id : Type := string.

Definition ma_device_id_equal (a b : ma_device_id) : bool := bool_decide (a = b).

(** The identifier left by [std::memset(&id, 0, sizeof(id))]. *)
Definition zero_device_id : ma_device_id := EmptyString.

Definition MA_TRUE : Z := 1.

(** An entry of the array filled by [ma_context_get_devices]. *)
Record ma_device_info : Type := {
  info_id : ma_device_id;
  info_name : string;
  info_isDefault : Z
}.

(** ** Constants and small helpers of the header *)

Definition AUDIO_DEFAULT_SAMPLE_RATE : Z := 48000.

Definition INT_MAX : Z := 2147483647.

Definition to_uint32 (x : Z) : Z := x mod 2 ^ 32.
Definition to_uint64 (x : Z) : Z := x mod 2 ^ 64.

Record DeviceInfo : Type := {
  id : ma_device_id;
  name : string;
  isDefault : bool
}.

#[global] Instance DeviceInfo_eq_dec : EqDecision DeviceInfo.
Proof. solve_decision. Defined.

Definition determineFormat (bitsPerSample : Z) : ma_format :=
  if bitsPerSample =? 8 then ma_format_u8
  else if bitsPerSample =? 16 then ma_format_s16
  else if bitsPerSample =? 24 then ma_format_s24
  else if bitsPerSample =? 32 then ma_format_s32
  else ma_format_unknown.

(** ** Native objects

    Every native object carries a [handle], the identity of the storage it
    lives in; a fresh one is drawn for each [std::make_unique] and [new]. *)

Definition handle : Set := nat.

(** The fields of [ma_resampler] the program reads ([format], [channels])
    and the rate pair set by [ma_resampler_init] and [ma_resampler_set_rate]. *)
Record ma_resampler : Type := {
  rs_handle : handle;
  format : ma_format;
  channels : Z;
  sampleRateIn : Z;
  sampleRateOut : Z
}.

(** [class CResampler]: a [std::unique_ptr<ma_resampler>]. *)
Record CResampler : Type := {
  resampler : option ma_resampler
}.

(** [class CDevice]: the device object with the identifier it was opened on. *)
Record CDevice : Type := {
  dev_handle : handle;
  dev_id : ma_device_id
}.

(** The configuration [ma_audio_buffer_init] receives. *)
Record ma_audio_buffer : Type := {
  ab_handle : handle;
  ab_format : ma_format;
  ab_channels : Z;
  ab_sizeInFrames : Z;
  ab_sampleRate : Z
}.

Record ma_sound : Type := {
  snd_handle : handle;
  snd_source : handle
}.

Definition byte : Set := Byte.byte.

(** [struct SoundPayload]. *)
Record SoundPayload : Type := {
  pl_handle : handle;
  sound : option ma_sound;
  audioBuffer : option ma_audio_buffer;
  pcmData : list byte
}.

(** The block of memory behind the [const void* buffer] argument. *)
Record Block : Type := {
  blk_addr : nat;
  blk_bytes : list byte
}.

(** ** Observable events *)

Inductive Level : Set := debug | warn | error | critical.

Inductive Event : Type :=
| EvLog (lvl : Level) (msg : string)
| EvFree (addr : nat)
| EvGetDevices (r : ma_result)
| EvDeviceInit (h : handle) (dev : ma_device_id) (r : ma_result)
| EvDeviceUninit (h : handle)
| EvDeviceStart (h : handle)
| EvResamplerInit (h : handle) (f : ma_format) (ch rin rout : Z) (r : ma_result)
| EvResamplerUninit (h : handle)
| EvResamplerSetRate (h : handle) (rin rout : Z) (r : ma_result)
| EvResamplerExpected (h : handle) (frameCountIn : Z) (r : ma_result)
| EvResamplerProcess (h : handle) (frameCountIn : Z) (r : ma_result)
| EvAudioBufferInit (h : handle) (r : ma_result)
| EvAudioBufferUninit (h : handle)
| EvAudioBufferReset (h : handle)
| EvSoundInit (h : handle) (source : handle) (r : ma_result)
| EvSoundUninit (h : handle)
| EvSoundReset (h : handle)
| EvSoundStart (h : handle)
| EvPayloadNew (h : handle)
| EvPayloadDelete (h : handle).

(** ** The object and the world around it *)

Record Audio : Type := {
  m_device : option CDevice;
  m_resampler : option CResampler;
  m_selectedDeviceID : ma_device_id;
  m_currentDeviceID : ma_device_id;
  m_hasCurrentDevice : bool;
  m_lastDevicesList : list DeviceInfo;
  sounds : list (option SoundPayload)
}.

Record World : Type := {
  audio : Audio;
  next_handle : handle
}.

(** What lies outside the repository: [std::sort] of the C++ standard
    library, and the miniaudio calls with the answers they give during one
    call of a member function. *)
Record Env : Type := {
  std_sort : (DeviceInfo → DeviceInfo → bool) → list DeviceInfo → list DeviceInfo;
  ma_context_get_devices : ma_result * list ma_device_info;
  ma_device_init : ma_device_id → ma_result;
  ma_resampler_init : ma_format → Z → Z → Z → ma_result;
  ma_resampler_set_rate : ma_resampler → Z → Z → ma_result;
  ma_resampler_get_expected_output_frame_count : ma_resampler → Z → ma_result * Z;
  ma_resampler_process_pcm_frames :
    ma_resampler → list byte → Z → Z → ma_result * list byte * Z;
  ma_audio_buffer_init : ma_audio_buffer → list byte → ma_result;
  ma_sound_init_from_data_source : ma_audio_buffer → ma_result;
  ma_sound_at_end : ma_sound → bool
}.

(** ** The monad of member functions *)

Inductive Res (A : Type) : Type :=
| Normal (a : A) (w : World) (evs : list Event)
| Thrown (w : World) (evs : list Event)
| Undefined.

Arguments Normal {A} a w evs.
Arguments Thrown {A} w evs.
Arguments Undefined {A}.

Definition M (A : Type) : Type := World → Res A.

Definition after {A : Type} (evs : list Event) (r : Res A) : Res A :=
  match r with
  | Normal a w evs' => Normal a w (evs ++ evs')
  | Thrown w evs' => Thrown w (evs ++ evs')
  | Undefined => Undefined
  end.

#[global] Instance M_ret : MRet M := λ A a w, Normal a w [].

#[global] Instance M_bind : MBind M := λ A B f m w,
  match m w with
  | Normal a w1 evs => after evs (f a w1)
  | Thrown w1 evs => Thrown w1 evs
  | Undefined => Undefined
  end.

Definition throw {A : Type} : M A := λ w, Thrown w [].
Definition undefined {A : Type} : M A := λ _, Undefined.
Definition emit (e : Event) : M unit := λ w, Normal tt w [e].
Definition log (lvl : Level) (msg : string) : M unit := emit (EvLog lvl msg).
Definition gets {A : Type} (f : Audio → A) : M A := λ w, Normal (f (audio w)) w [].
Definition modify (f : Audio → Audio) : M unit :=
  λ w, Normal tt {| audio := f (audio w); next_handle := next_handle w |} [].
Definition fresh : M handle :=
  λ w, Normal (next_handle w) {| audio := audio w; next_handle := S (next_handle w) |} [].

(** [free((void* )buffer)]. *)
Definition free (b : Block) : M unit := emit (EvFree (blk_addr b)).

(** Assignments to the members of [Audio]. *)
Definition set_device (d : option CDevice) (a : Audio) : Audio :=
  {| m_device := d; m_resampler := m_resampler a;
     m_selectedDeviceID := m_selectedDeviceID a; m_currentDeviceID := m_currentDeviceID a;
     m_hasCurrentDevice := m_hasCurrentDevice a; m_lastDevicesList := m_lastDevicesList a;
     sounds := sounds a |}.

Definition set_resampler (r : option CResampler) (a : Audio) : Audio :=
  {| m_device := m_device a; m_resampler := r;
     m_selectedDeviceID := m_selectedDeviceID a; m_currentDeviceID := m_currentDeviceID a;
     m_hasCurrentDevice := m_hasCurrentDevice a; m_lastDevicesList := m_lastDevicesList a;
     sounds := sounds a |}.

Definition set_selectedDeviceID (d : ma_device_id) (a : Audio) : Audio :=
  {| m_device := m_device a; m_resampler := m_resampler a;
     m_selectedDeviceID := d; m_currentDeviceID := m_currentDeviceID a;
     m_hasCurrentDevice := m_hasCurrentDevice a; m_lastDevicesList := m_lastDevicesList a;
     sounds := sounds a |}.

Definition set_currentDevice (d : ma_device_id) (a : Audio) : Audio :=
  {| m_device := m_device a; m_resampler := m_resampler a;
     m_selectedDeviceID := m_selectedDeviceID a; m_currentDeviceID := d;
     m_hasCurrentDevice := true; m_lastDevicesList := m_lastDevicesList a;
     sounds := sounds a |}.

Definition set_lastDevicesList (l : list DeviceInfo) (a : Audio) : Audio :=
  {| m_device := m_device a; m_resampler := m_resampler a;
     m_selectedDeviceID := m_selectedDeviceID a; m_currentDeviceID := m_currentDeviceID a;
     m_hasCurrentDevice := m_hasCurrentDevice a; m_lastDevicesList := l;
     sounds := sounds a |}.

Definition set_sounds (l : list (option SoundPayload)) (a : Audio) : Audio :=
  {| m_device := m_device a; m_resampler := m_resampler a;
     m_selectedDeviceID := m_selectedDeviceID a; m_currentDeviceID := m_currentDeviceID a;
     m_hasCurrentDevice := m_hasCurrentDevice a; m_lastDevicesList := m_lastDevicesList a;
     sounds := l |}.

(** ** [SoundPayload]: destructor and [delete] *)

(** [~SoundPayload()]: a sound that is present is uninitialised and its
    storage released, then the same for the audio buffer. *)
Definition destroy_SoundPayload (p : SoundPayload) : list Event :=
  match sound p with
  | Some s => [EvSoundUninit (snd_handle s); EvSoundReset (snd_handle s)]
  | None => []
  end ++
  match audioBuffer p with
  | Some b => [EvAudioBufferUninit (ab_handle b); EvAudioBufferReset (ab_handle b)]
  | None => []
  end.

(** [delete pPayload]. *)
Definition delete_SoundPayload (p : SoundPayload) : list Event :=
  destroy_SoundPayload p ++ [EvPayloadDelete (pl_handle p)].

(** ** [Audio::getDevicesList] *)

(** The comparator handed to [std::sort]: [first.isDefault > second.isDefault]. *)
Definition default_first (first second : DeviceInfo) : bool :=
  isDefault first && negb (isDefault second).

Definition to_DeviceInfo (i : ma_device_info) : DeviceInfo :=
  {| id := info_id i; name := info_name i; isDefault := info_isDefault i =? MA_TRUE |}.

Definition getDevicesList (E : Env) : M (list DeviceInfo) :=
  let '(result, pDeviceInfos) := ma_context_get_devices E in
  emit (EvGetDevices result);;
  if bool_decide (result ≠ MA_SUCCESS) then
    log critical "Failed to get list of devices";;
    throw
  else
    let deviceInfos := map to_DeviceInfo pDeviceInfos in
    modify (set_lastDevicesList (std_sort E default_first deviceInfos));;
    gets m_lastDevicesList.

(** ** [Audio::selectDevice] *)

Definition selectDevice (deviceIndex : nat) : M unit :=
  lastDevicesList ← gets m_lastDevicesList;
  if bool_decide (lastDevicesList = []) then
    log warn "Cannot select audio device: device list is empty"
  else
    deviceIndex ←
      (if bool_decide (length lastDevicesList ≤ deviceIndex)%nat then
         log warn "Device index {} is out of range. Falling back to 0.";;
         mret 0%nat
       else mret deviceIndex);
    match lastDevicesList !! deviceIndex with
    | Some d => modify (set_selectedDeviceID (id d))
    | None => undefined
    end.

(** ** [Audio::updateDevice] *)

(** [std::make_unique<CDevice>(&m_selectedDeviceID, ...)]: the constructor
    throws when [ma_device_init] fails. *)
Definition new_CDevice (E : Env) (deviceID : ma_device_id) : M CDevice :=
  h ← fresh;
  let result := ma_device_init E deviceID in
  emit (EvDeviceInit h deviceID result);;
  if bool_decide (result ≠ MA_SUCCESS) then
    log error "Failed to initialize audio device: {}";;
    throw
  else mret {| dev_handle := h; dev_id := deviceID |}.

(** [~CDevice()] of the object a [unique_ptr] gives up. *)
Definition destroy_CDevice (d : option CDevice) : M unit :=
  match d with
  | Some d => emit (EvDeviceUninit (dev_handle d))
  | None => mret tt
  end.

Definition updateDevice (E : Env) : M unit :=
  hasCurrentDevice ← gets m_hasCurrentDevice;
  currentDeviceID ← gets m_currentDeviceID;
  selectedDeviceID ← gets m_selectedDeviceID;
  if hasCurrentDevice && ma_device_id_equal currentDeviceID selectedDeviceID then
    mret tt
  else
    log debug "Initializing new audio device";;
    d ← new_CDevice E selectedDeviceID;
    old ← gets m_device;
    modify (set_device (Some d));;
    destroy_CDevice old;;
    emit (EvDeviceStart (dev_handle d));;
    modify (set_currentDevice selectedDeviceID).

(** ** [CResampler] and [Audio::updateResampler] *)

Definition new_CResampler (E : Env) (fmt : ma_format) (ch sampleRateIn sampleRateOut : Z)
  : M CResampler :=
  h ← fresh;
  let result := ma_resampler_init E fmt ch sampleRateIn sampleRateOut in
  emit (EvResamplerInit h fmt ch sampleRateIn sampleRateOut result);;
  if bool_decide (result ≠ MA_SUCCESS) then
    log error "Failed to initialize resampler: {}";;
    throw
  else
    mret {| resampler := Some {| rs_handle := h; format := fmt; channels := ch;
                                 sampleRateIn := sampleRateIn;
                                 sampleRateOut := sampleRateOut |} |}.

(** [~CResampler()] of the object a [unique_ptr] gives up. *)
Definition destroy_CResampler (r : option CResampler) : M unit :=
  match r with
  | Some {| resampler := Some r |} => emit (EvResamplerUninit (rs_handle r))
  | Some {| resampler := None |} => undefined
  | None => mret tt
  end.

(** [CResampler::setRate]: on success the rate pair of the same native
    object is replaced. *)
Definition setRate (E : Env) (sampleRateIn sampleRateOut : Z) : M ma_result :=
  r ← gets m_resampler;
  match r with
  | None => undefined
  | Some {| resampler := None |} => mret MA_ERROR
  | Some {| resampler := Some r |} =>
      let result := ma_resampler_set_rate E r sampleRateIn sampleRateOut in
      emit (EvResamplerSetRate (rs_handle r) sampleRateIn sampleRateOut result);;
      (if bool_decide (result = MA_SUCCESS) then
         modify (set_resampler
                   (Some {| resampler :=
                              Some {| rs_handle := rs_handle r; format := format r;
                                      channels := channels r;
                                      sampleRateIn := sampleRateIn;
                                      sampleRateOut := sampleRateOut |} |}))
       else mret tt);;
      mret result
  end.

Definition replace_resampler (E : Env) (fmt : ma_format) (ch sampleRateIn sampleRateOut : Z)
  : M unit :=
  r ← new_CResampler E fmt ch sampleRateIn sampleRateOut;
  old ← gets m_resampler;
  modify (set_resampler (Some r));;
  destroy_CResampler old.

Definition updateResampler (E : Env) (fmt : ma_format) (ch sampleRateIn sampleRateOut : Z)
  : M unit :=
  r ← gets m_resampler;
  match r with
  | None => replace_resampler E fmt ch sampleRateIn sampleRateOut
  | Some {| resampler := None |} => undefined
  | Some {| resampler := Some r |} =>
      if bool_decide (format r ≠ fmt) || bool_decide (channels r ≠ ch) then
        replace_resampler E fmt ch sampleRateIn sampleRateOut
      else if bool_decide (sampleRateIn = sampleRateOut) then
        mret tt
      else
        result ← setRate E sampleRateIn sampleRateOut;
        if bool_decide (result ≠ MA_SUCCESS) then
          log error "Failed to set sample rate: {}";;
          throw
        else mret tt
  end.

(** ** [Audio::freeSounds] *)

(** The predicate given to [std::remove_if]. *)
Definition is_freed (E : Env) (onlyUnused : bool) (p : option SoundPayload) : bool :=
  match p with
  | None => false
  | Some p =>
      negb onlyUnused ||
      match sound p with
      | Some s => ma_sound_at_end E s
      | None => false
      end
  end.

(** One pass of [std::remove_if]: the entries kept, the events of the
    deletions, and [counter]. *)
Fixpoint remove_freed (E : Env) (onlyUnused : bool) (l : list (option SoundPayload))
  : list (option SoundPayload) * list Event * Z :=
  match l with
  | [] => ([], [], 0)
  | p :: l =>
      let '(kept, evs, counter) := remove_freed E onlyUnused l in
      if is_freed E onlyUnused p then
        (kept, from_option delete_SoundPayload [] p ++ evs, counter + 1)
      else (p :: kept, evs, counter)
  end.

Definition emits (evs : list Event) : M unit := λ w, Normal tt w evs.

Definition freeSounds (E : Env) (onlyUnused : bool) : M unit :=
  l ← gets sounds;
  let '(kept, evs, counter) := remove_freed E onlyUnused l in
  emits evs;;
  modify (set_sounds kept);;
  if 0 <? counter then log debug "Sounds freed: {}" else mret tt.

(** ** [CResampler::processAudioData] *)

(** [std::vector::data()]: a vector that holds nothing and never allocated
    gives the null pointer. *)
Definition vector_data (v : list byte) : option (list byte) :=
  match v with
  | [] => None
  | _ => Some v
  end.

(** The bytes of [dst] after native code wrote [src] at its start. *)
Definition write_over (dst src : list byte) : list byte :=
  take (length dst) (src ++ drop (length src) dst).

(** [ma_get_bytes_per_sample] and [ma_get_bytes_per_frame] of miniaudio. *)
Definition ma_get_bytes_per_sample (f : ma_format) : Z :=
  match f with
  | ma_format_unknown => 0
  | ma_format_u8 => 1
  | ma_format_s16 => 2
  | ma_format_s24 => 3
  | ma_format_s32 => 4
  | ma_format_f32 => 4
  end.

Definition ma_get_bytes_per_frame (f : ma_format) (channels : Z) : Z :=
  ma_get_bytes_per_sample f * channels.

(** Returns the result code, the bytes behind [pFramesOut] and the value
    left in the reference [frameCountOut]. The pointers are the memory
    behind them: [ma_resampler_process_pcm_frames] is handed
    [frameCountIn] frames to read behind [pFramesIn] and room for
    [frameCountOut] frames behind [pFramesOut], in the frame size of the
    resampler, and memory that is shorter than that is read or written
    past its end. *)
Definition processAudioData (E : Env) (this : CResampler)
    (pFramesIn : option (list byte)) (frameCountIn : Z)
    (pFramesOut : option (list byte)) (frameCountOut : Z)
  : M (ma_result * list byte * Z) :=
  match pFramesIn, pFramesOut with
  | Some framesIn, Some framesOut =>
      match resampler this with
      | None => mret (MA_ERROR, framesOut, frameCountOut)
      | Some r =>
          let bytesPerFrame := ma_get_bytes_per_frame (format r) (channels r) in
          if (Z.of_nat (length framesIn) <? frameCountIn * bytesPerFrame) ||
             (Z.of_nat (length framesOut) <? frameCountOut * bytesPerFrame)
          then undefined
          else
            let '(result, written, produced) :=
              ma_resampler_process_pcm_frames E r framesIn frameCountIn frameCountOut in
            emit (EvResamplerProcess (rs_handle r) frameCountIn result);;
            mret (result, write_over framesOut written, produced)
      end
  | _, _ => mret (MA_INVALID_ARGS, default [] pFramesOut, frameCountOut)
  end.

(** ** [Audio::playAudioData] *)

(** [frameCountOut * channels * (bitsPerSample / 8)] in [uint64_t]. *)
Definition pcm_size (frameCountOut channels bitsPerSample : Z) : Z :=
  to_uint64 (to_uint64 (frameCountOut * channels) * (bitsPerSample / 8)).

Definition zero_byte : byte := Byte.x00.

(** Lines 107-141: the converted PCM is in [pcm]; the input buffer is
    already released. *)
Definition start_sound (E : Env) (fmt : ma_format) (channels frameCountOut : Z)
    (hp : handle) (pcm : list byte) : M bool :=
  if frameCountOut =? 0 then
    emits (delete_SoundPayload
             {| pl_handle := hp; sound := None; audioBuffer := None; pcmData := pcm |});;
    mret true
  else
    hb ← fresh;
    let config := {| ab_handle := hb; ab_format := fmt; ab_channels := channels;
                     ab_sizeInFrames := frameCountOut;
                     ab_sampleRate := AUDIO_DEFAULT_SAMPLE_RATE |} in
    let result := ma_audio_buffer_init E config pcm in
    emit (EvAudioBufferInit hb result);;
    if bool_decide (result ≠ MA_SUCCESS) then
      log critical "Failed to initialize audio buffer: {}";;
      emit (EvAudioBufferReset hb);;
      emits (delete_SoundPayload
               {| pl_handle := hp; sound := None; audioBuffer := None; pcmData := pcm |});;
      mret false
    else
      hs ← fresh;
      let result := ma_sound_init_from_data_source E config in
      emit (EvSoundInit hs hb result);;
      if bool_decide (result ≠ MA_SUCCESS) then
        log critical "Failed to initialize sound instance: {}";;
        emit (EvAudioBufferUninit hb);;
        emit (EvAudioBufferReset hb);;
        emit (EvSoundReset hs);;
        emits (delete_SoundPayload
                 {| pl_handle := hp; sound := None; audioBuffer := None; pcmData := pcm |});;
        mret false
      else
        let pPayload := {| pl_handle := hp;
                           sound := Some {| snd_handle := hs; snd_source := hb |};
                           audioBuffer := Some config; pcmData := pcm |} in
        l ← gets sounds;
        modify (set_sounds (l ++ [Some pPayload]));;
        emit (EvSoundStart hs);;
        mret true.

(** Lines 78-105: frame counts, the payload and the conversion branch. *)
Definition convert_and_start (E : Env) (fmt : ma_format)
    (channels sampleRate bitsPerSample bufferSize : Z) (buf : Block) : M bool :=
  if INT_MAX <? channels * bitsPerSample then undefined
  else
    let frameCountIn := to_uint64 (bufferSize * 8) / (channels * bitsPerSample) in
    m ← gets m_resampler;
    match m with
    | None | Some {| resampler := None |} => undefined
    | Some ({| resampler := Some r |} as this) =>
        let '(result, frameCountOut) :=
          ma_resampler_get_expected_output_frame_count E r frameCountIn in
        emit (EvResamplerExpected (rs_handle r) frameCountIn result);;
        if bool_decide (result ≠ MA_SUCCESS) then
          log error "Failed to get expected frame count for resampling: {}";;
          free buf;;
          mret false
        else
          hp ← fresh;
          emit (EvPayloadNew hp);;
          let pcm :=
            replicate (Z.to_nat (pcm_size frameCountOut channels bitsPerSample)) zero_byte in
          if bool_decide (to_uint32 sampleRate ≠ AUDIO_DEFAULT_SAMPLE_RATE) then
            '(result, pcm, frameCountOut) ←
              processAudioData E this (Some (blk_bytes buf)) frameCountIn
                               (vector_data pcm) frameCountOut;
            if bool_decide (result ≠ MA_SUCCESS) then
              log error "Failed to resample audio: {}";;
              free buf;;
              emits (delete_SoundPayload
                       {| pl_handle := hp; sound := None; audioBuffer := None;
                          pcmData := pcm |});;
              mret false
            else
              let pcm :=
                resize (Z.to_nat (pcm_size frameCountOut channels bitsPerSample))
                       zero_byte pcm in
              free buf;;
              start_sound E fmt channels frameCountOut hp pcm
          else
            let frameCountOut := frameCountIn in
            if Z.of_nat (length (blk_bytes buf)) <? bufferSize then undefined
            else
              let pcm := take (Z.to_nat bufferSize) (blk_bytes buf) in
              free buf;;
              start_sound E fmt channels frameCountOut hp pcm
    end.

Definition playAudioData (E : Env) (channels sampleRate bitsPerSample bufferSize : Z)
    (buffer : option Block) : M bool :=
  match buffer with
  | None =>
      log error "Speech buffer was nullptr";;
      mret false
  | Some buf =>
      if (channels <=? 0) || (bitsPerSample <=? 0) || (sampleRate <=? 0) then
        log error "Invalid audio metadata: channels={}, sampleRate={}, bitsPerSample={}";;
        free buf;;
        mret false
      else
        let fmt := determineFormat bitsPerSample in
        if bool_decide (fmt = ma_format_unknown) then
          log error "Unsupported bits per sample value: {}";;
          free buf;;
          mret false
        else if bufferSize =? 0 then
          free buf;;
          mret true
        else
          devices ← getDevicesList E;
          match devices with
          | [] =>
              log error "No playback devices are available";;
              free buf;;
              mret false
          | first :: _ =>
              selectedDeviceID ← gets m_selectedDeviceID;
              (if negb (existsb (λ device, ma_device_id_equal (id device) selectedDeviceID)
                                devices) then
                 log warn "Selected audio device is unavailable. Falling back to index 0.";;
                 modify (set_selectedDeviceID (id first))
               else mret tt);;
              freeSounds E true;;
              updateDevice E;;
              updateResampler E fmt (to_uint32 channels) (to_uint32 sampleRate)
                              AUDIO_DEFAULT_SAMPLE_RATE;;
              convert_and_start E fmt channels sampleRate bitsPerSample bufferSize buf
          end
  end.

(** ** [Audio::Audio] *)

(** The object before the constructor body runs. *)
Definition blank_Audio : Audio :=
  {| m_device := None; m_resampler := None;
     m_selectedDeviceID := zero_device_id; m_currentDeviceID := zero_device_id;
     m_hasCurrentDevice := false; m_lastDevicesList := []; sounds := [] |}.

Definition new_Audio (E : Env) : M unit :=
  devices ← getDevicesList E;
  match devices with
  | [] =>
      log warn "No audio devices found during Audio initialization";;
      modify (set_selectedDeviceID zero_device_id)
  | first :: _ => modify (set_selectedDeviceID (id first))
  end.

(** * Auxiliary definitions for the statements *)

(** ** Counting releases of the caller's buffer *)

Definition is_free (addr : nat) (e : Event) : bool :=
  match e with
  | EvFree a => bool_decide (a = addr)
  | _ => false
  end.

(** How many times the block at [addr] is handed to [free] in [evs]. *)
Fixpoint releases (addr : nat) (evs : list Event) : nat :=
  match evs with
  | [] => 0
  | e :: evs => ((if is_free addr e then 1 else 0) + releases addr evs)%nat
  end.

(** ** Kinds of events *)

(** The events of a run; undefined behaviour has none to speak of. *)
Definition events_of {A : Type} (r : Res A) : list Event :=
  match r with
  | Normal _ _ evs | Thrown _ evs => evs
  | Undefined => []
  end.

(** Events that [getDevicesList], [freeSounds], [updateDevice] and
    [updateResampler] can emit: everything but a release of the caller's
    buffer and the events of the conversion and of the construction of a
    new sound. *)
Definition prelude_event (e : Event) : bool :=
  match e with
  | EvFree _ | EvResamplerExpected _ _ _ | EvResamplerProcess _ _ _
  | EvAudioBufferInit _ _ | EvSoundInit _ _ _ | EvSoundStart _ | EvPayloadNew _ => false
  | _ => true
  end.

(** A list of events none of which is a release of the caller's buffer, a
    conversion step or a step of the construction of a new sound. *)
Definition quiet (evs : list Event) : Prop :=
  Forall (λ e, prelude_event e = true) evs.

(** The events of the construction of a new sound: the initialisation of
    the audio buffer and of the sound handle. *)
Definition construction_event (e : Event) : bool :=
  match e with
  | EvAudioBufferInit _ _ | EvSoundInit _ _ _ => true
  | _ => false
  end.

Definition no_construction (evs : list Event) : Prop :=
  Forall (λ e, construction_event e = false) evs.

(** ** Small helpers *)

(** The world after one more handle was drawn. *)
Definition drawn (w : World) : World :=
  {| audio := audio w; next_handle := S (next_handle w) |}.

(** The configuration [playAudioData] builds for the audio buffer whose
    storage has the handle [hb]. *)
Definition buffer_config (fmt : ma_format) (channels frameCountOut : Z) (hb : handle)
  : ma_audio_buffer :=
  {| ab_handle := hb; ab_format := fmt; ab_channels := channels;
     ab_sizeInFrames := frameCountOut; ab_sampleRate := AUDIO_DEFAULT_SAMPLE_RATE |}.

(** ** What the C++ standard promises of [std::sort]

    [comp] has to be a strict weak ordering; the result is a permutation of
    the input in which no element is ordered before an earlier one. The
    order of equivalent elements is not promised. *)

Definition strict_weak_order {A : Type} (comp : A → A → bool) : Prop :=
  (∀ x, comp x x = false) ∧
  (∀ x y z, comp x y = true → comp y z = true → comp x z = true) ∧
  (∀ x y z, comp x y = false → comp y x = false →
            comp y z = false → comp z y = false →
            comp x z = false ∧ comp z x = false).

Definition sorted_by {A : Type} (comp : A → A → bool) (l : list A) : Prop :=
  StronglySorted (λ x y, comp y x = false) l.

Definition std_sort_contract (E : Env) : Prop :=
  ∀ (comp : DeviceInfo → DeviceInfo → bool) (l : list DeviceInfo),
    strict_weak_order comp →
    std_sort E comp l ≡ₚ l ∧ sorted_by comp (std_sort E comp l).

(** ** A backend on which the native calls succeed

    The calls [playAudioData] makes on the way to a playing sound for
    input at the working rate: opening a device, constructing a resampler,
    estimating the output frame count, and initialising the audio buffer
    and the sound. *)
Definition calls_succeed (E : Env) : Prop :=
  (∀ deviceID : ma_device_id, ma_device_init E deviceID = MA_SUCCESS) ∧
  (∀ (fmt : ma_format) (ch rin rout : Z), ma_resampler_init E fmt ch rin rout = MA_SUCCESS) ∧
  (∀ (r : ma_resampler) (frameCountIn : Z),
     (ma_resampler_get_expected_output_frame_count E r frameCountIn).1 = MA_SUCCESS) ∧
  (∀ (config : ma_audio_buffer) (pcm : list byte),
     ma_audio_buffer_init E config pcm = MA_SUCCESS) ∧
  (∀ config : ma_audio_buffer, ma_sound_init_from_data_source E config = MA_SUCCESS).

(** A sorting routine that meets the contract and keeps equivalent
    elements in their order. *)

Fixpoint insert_before_greater_or_equal {A : Type} (comp : A → A → bool) (x : A)
    (l : list A) : list A :=
  match l with
  | [] => [x]
  | y :: l' => if comp y x then y :: insert_before_greater_or_equal comp x l' else x :: l
  end.

Definition insertion_sort {A : Type} (comp : A → A → bool) (l : list A) : list A :=
  foldr (insert_before_greater_or_equal comp) [] l.

(** ** [std::sort] as libstdc++ implements it

    The routines of [bits/stl_algo.h] and [bits/stl_heap.h] behind
    [std::sort] in the C++ standard library of GCC: introsort down to
    ranges of 16 elements with a median-of-three pivot, a heap sort when
    the depth limit is used up, and a final insertion sort. Iterators are
    positions in the array, and an element is copied where the C++ moves
    it. *)

Section libstdcxx_sort.
Context {A : Type} (comp : A → A → bool).

Local Open Scope nat_scope.

(** [comp(first + i, first + j)] on the elements of the array. *)
Definition comp_iter (l : list A) (i j : nat) : bool :=
  match l !! i, l !! j with
  | Some x, Some y => comp x y
  | _, _ => false
  end.

(** [*dst = std::move( *src)]. *)
Definition move_to (dst src : nat) (l : list A) : list A :=
  match l !! src with
  | Some x => <[dst := x]> l
  | None => l
  end.

Definition iter_swap (i j : nat) (l : list A) : list A :=
  match l !! i, l !! j with
  | Some x, Some y => <[j := x]> (<[i := y]> l)
  | _, _ => l
  end.

Definition move_median_to_first (result a b c : nat) (l : list A) : list A :=
  if comp_iter l a b then
    if comp_iter l b c then iter_swap result b l
    else if comp_iter l a c then iter_swap result c l
    else iter_swap result a l
  else if comp_iter l a c then iter_swap result a l
  else if comp_iter l b c then iter_swap result c l
  else iter_swap result b l.

(** [while (comp(first, pivot)) ++first;] *)
Fixpoint advance_first (fuel : nat) (l : list A) (first pivot : nat) : nat :=
  match fuel with
  | 0 => first
  | S fuel =>
      if comp_iter l first pivot then advance_first fuel l (S first) pivot else first
  end.

(** [while (comp(pivot, last)) --last;] *)
Fixpoint retreat_last (fuel : nat) (l : list A) (pivot last : nat) : nat :=
  match fuel with
  | 0 => last
  | S fuel =>
      if comp_iter l pivot last then retreat_last fuel l pivot (pred last) else last
  end.

Fixpoint unguarded_partition (fuel : nat) (first last pivot : nat) (l : list A)
  : nat * list A :=
  match fuel with
  | 0 => (first, l)
  | S fuel =>
      let first := advance_first (length l) l first pivot in
      let last := pred last in
      let last := retreat_last (length l) l pivot last in
      if negb (first <? last) then (first, l)
      else unguarded_partition fuel (S first) last pivot (iter_swap first last l)
  end.

Definition unguarded_partition_pivot (first last : nat) (l : list A) : nat * list A :=
  let mid := first + (last - first) / 2 in
  let l := move_median_to_first first (first + 1) mid (last - 1) l in
  unguarded_partition (length l) (first + 1) last first l.

(** *** The heap routines behind [std::__partial_sort] *)

Fixpoint push_heap (fuel : nat) (first holeIndex topIndex : nat) (value : A)
    (l : list A) : list A :=
  match fuel with
  | 0 => <[first + holeIndex := value]> l
  | S fuel =>
      let parent := (holeIndex - 1) / 2 in
      match l !! (first + parent) with
      | Some p =>
          if (topIndex <? holeIndex) && comp p value then
            push_heap fuel first parent topIndex value (<[first + holeIndex := p]> l)
          else <[first + holeIndex := value]> l
      | None => <[first + holeIndex := value]> l
      end
  end.

(** The first loop of [__adjust_heap]: the hole moves down to the larger
    child; gives [holeIndex], [secondChild] and the array. *)
Fixpoint sift_hole (fuel : nat) (first holeIndex secondChild len : nat) (l : list A)
  : nat * nat * list A :=
  match fuel with
  | 0 => (holeIndex, secondChild, l)
  | S fuel =>
      if (Z.of_nat secondChild <? (Z.of_nat len - 1) ÷ 2)%Z then
        let secondChild := 2 * (secondChild + 1) in
        let secondChild :=
          if comp_iter l (first + secondChild) (first + (secondChild - 1))
          then secondChild - 1 else secondChild in
        let l := move_to (first + holeIndex) (first + secondChild) l in
        sift_hole fuel first secondChild secondChild len l
      else (holeIndex, secondChild, l)
  end.

Definition adjust_heap (first holeIndex len : nat) (value : A) (l : list A) : list A :=
  let topIndex := holeIndex in
  let '(holeIndex, secondChild, l) :=
    sift_hole (length l) first holeIndex holeIndex len l in
  let '(holeIndex, l) :=
    if Nat.even len && (Z.of_nat secondChild =? (Z.of_nat len - 2) ÷ 2)%Z then
      let secondChild := 2 * (secondChild + 1) in
      (secondChild - 1, move_to (first + holeIndex) (first + (secondChild - 1)) l)
    else (holeIndex, l) in
  push_heap (length l) first holeIndex topIndex value l.

Definition pop_heap (first last result : nat) (l : list A) : list A :=
  match l !! result with
  | Some value => adjust_heap first 0 (last - first) value (move_to result first l)
  | None => l
  end.

(** The loop of [__make_heap], from [parent] down to 0. *)
Fixpoint make_heap_from (parent : nat) (first len : nat) (l : list A) : list A :=
  let l := match l !! (first + parent) with
           | Some value => adjust_heap first parent len value l
           | None => l
           end in
  match parent with
  | 0 => l
  | S parent => make_heap_from parent first len l
  end.

Definition make_heap (first last : nat) (l : list A) : list A :=
  if last - first <? 2 then l
  else
    let len := last - first in
    make_heap_from ((len - 2) / 2) first len l.

Definition heap_select (first middle last : nat) (l : list A) : list A :=
  foldl (λ l i, if comp_iter l i first then pop_heap first middle i l else l)
        (make_heap first middle l) (seq middle (last - middle)).

Fixpoint sort_heap (fuel : nat) (first last : nat) (l : list A) : list A :=
  match fuel with
  | 0 => l
  | S fuel =>
      if 1 <? last - first then
        let last := pred last in
        sort_heap fuel first last (pop_heap first last last l)
      else l
  end.

Definition partial_sort (first middle last : nat) (l : list A) : list A :=
  sort_heap (length l) first middle (heap_select first middle last l).

(** *** Introsort *)

Definition S_threshold : nat := 16.

(** The [while] loop of [__introsort_loop] runs once for every decrement
    of [depth_limit]: the second call below is its next iteration, with
    [last = cut]. *)
Fixpoint introsort_loop (depth_limit : nat) (first last : nat) (l : list A) : list A :=
  if S_threshold <? last - first then
    match depth_limit with
    | 0 => partial_sort first last last l
    | S depth_limit =>
        let '(cut, l) := unguarded_partition_pivot first last l in
        let l := introsort_loop depth_limit cut last l in
        introsort_loop depth_limit first cut l
    end
  else l.

(** [__unguarded_linear_insert], with [val] already taken out of [*last]. *)
Fixpoint unguarded_linear_insert (val : A) (last : nat) (l : list A) : list A :=
  match last with
  | S next =>
      match l !! next with
      | Some y =>
          if comp val y then unguarded_linear_insert val next (<[last := y]> l)
          else <[last := val]> l
      | None => <[last := val]> l
      end
  | 0 => <[last := val]> l
  end.

(** [std::move_backward(first, i, i + 1); *first = val]. *)
Definition move_backward_and_put (first i : nat) (val : A) (l : list A) : list A :=
  take first l ++ val :: take (i - first) (drop first l) ++ drop (S i) l.

(** The body of the loop of [__insertion_sort] at position [i]. *)
Definition insertion_step (first : nat) (l : list A) (i : nat) : list A :=
  match l !! i with
  | Some val =>
      if comp_iter l i first then move_backward_and_put first i val l
      else unguarded_linear_insert val i l
  | None => l
  end.

Definition insertion_sort_range (first last : nat) (l : list A) : list A :=
  if first =? last then l
  else foldl (insertion_step first) l (seq (first + 1) (last - (first + 1))).

Definition unguarded_insertion_sort (first last : nat) (l : list A) : list A :=
  foldl (λ l i, match l !! i with
                | Some val => unguarded_linear_insert val i l
                | None => l
                end)
        l (seq first (last - first)).

Definition final_insertion_sort (first last : nat) (l : list A) : list A :=
  if S_threshold <? last - first then
    unguarded_insertion_sort (first + S_threshold) last
      (insertion_sort_range first (first + S_threshold) l)
  else insertion_sort_range first last l.

(** [std::sort(l.begin(), l.end(), comp)]. *)
Definition libstdcxx_sort (l : list A) : list A :=
  let first := 0 in
  let last := length l in
  if first =? last then l
  else
    final_insertion_sort first last
      (introsort_loop (Nat.log2 (last - first) * 2) first last l).

End libstdcxx_sort.

(** ** Concrete backends and objects for the examples *)

Definition hdmi : ma_device_info :=
  {| info_id := "hdmi"; info_name := "HDMI Output"; info_isDefault := 0 |}.
Definition speakers : ma_device_info :=
  {| info_id := "speakers"; info_name := "Speakers"; info_isDefault := 1 |}.
Definition headset : ma_device_info :=
  {| info_id := "headset"; info_name := "USB Headset"; info_isDefault := 0 |}.

(** A backend that enumerates [devices] and answers the construction calls
    with the given result codes; the frame-count estimate scales the input
    count by the rate pair of the resampler, and processing fills the whole
    output with silence. *)
Definition backend
    (sort : (DeviceInfo → DeviceInfo → bool) → list DeviceInfo → list DeviceInfo)
    (enumeration : ma_result * list ma_device_info)
    (device_init resampler_init set_rate buffer_init sound_init : ma_result) : Env :=
  {| std_sort := sort;
     ma_context_get_devices := enumeration;
     ma_device_init := λ _, device_init;
     ma_resampler_init := λ _ _ _ _, resampler_init;
     ma_resampler_set_rate := λ _ _ _, set_rate;
     ma_resampler_get_expected_output_frame_count :=
       λ r n, (MA_SUCCESS, n * sampleRateOut r / sampleRateIn r);
     ma_resampler_process_pcm_frames := λ _ _ _ capacity, (MA_SUCCESS, [], capacity);
     ma_audio_buffer_init := λ _ _, buffer_init;
     ma_sound_init_from_data_source := λ _, sound_init;
     ma_sound_at_end := λ _, false |}.

Definition three_devices : ma_result * list ma_device_info :=
  (MA_SUCCESS, [hdmi; speakers; headset]).

(** Everything succeeds. *)
Definition env_ok : Env :=
  backend (@insertion_sort DeviceInfo) three_devices
          MA_SUCCESS MA_SUCCESS MA_SUCCESS MA_SUCCESS MA_SUCCESS.

(** No playback device is present. *)
Definition env_no_devices : Env :=
  backend (@insertion_sort DeviceInfo) (MA_SUCCESS, [])
          MA_SUCCESS MA_SUCCESS MA_SUCCESS MA_SUCCESS MA_SUCCESS.





(** The device cannot be opened. *)
Definition env_device_fails : Env :=
  backend (@insertion_sort DeviceInfo) three_devices
          MA_NO_BACKEND MA_SUCCESS MA_SUCCESS MA_SUCCESS MA_SUCCESS.

(** [ma_audio_buffer_init] fails. *)
Definition env_buffer_fails : Env :=
  backend (@insertion_sort DeviceInfo) three_devices
          MA_SUCCESS MA_SUCCESS MA_SUCCESS MA_OUT_OF_MEMORY MA_SUCCESS.

(** [ma_sound_init_from_data_source] fails. *)
Definition env_sound_fails : Env :=
  backend (@insertion_sort DeviceInfo) three_devices
          MA_SUCCESS MA_SUCCESS MA_SUCCESS MA_SUCCESS MA_OUT_OF_MEMORY.

(** The world before [Audio::Audio] runs. *)
Definition blank_World : World := {| audio := blank_Audio; next_handle := 0%nat |}.

(** The object [Audio::Audio] leaves when no device is present. *)
Definition world_no_devices : World := blank_World.

(** The object [Audio::Audio] leaves when it found the three devices. *)
Definition world_three_devices : World :=
  {| audio :=
       {| m_device := None; m_resampler := None;
          m_selectedDeviceID := "speakers"; m_currentDeviceID := zero_device_id;
          m_hasCurrentDevice := false;
          m_lastDevicesList := map to_DeviceInfo [speakers; hdmi; headset];
          sounds := [] |};
     next_handle := 0%nat |}.

(** A block of four bytes: two frames of 16-bit mono PCM. *)
Definition four_bytes : Block :=
  {| blk_addr := 77%nat; blk_bytes := [Byte.x01; Byte.x02; Byte.x03; Byte.x04] |}.

(** The object after a first [updateDevice] opened the speakers. *)
Definition world_device_open : World :=
  {| audio :=
       {| m_device := Some {| dev_handle := 0%nat; dev_id := "speakers" |};
          m_resampler := None;
          m_selectedDeviceID := "speakers"; m_currentDeviceID := "speakers";
          m_hasCurrentDevice := true;
          m_lastDevicesList := map to_DeviceInfo [speakers; hdmi; headset];
          sounds := [] |};
     next_handle := 1%nat |}.


(** * Vocabulary for further properties of the code *)

(** A payload whose sound has played to its end. *)
Definition finished (E : Env) (p : SoundPayload) : Prop :=
  ∃ s : ma_sound, sound p = Some s ∧ ma_sound_at_end E s = true.

(** [E] with another answer to [ma_sound_at_end]. *)
Definition with_sound_at_end (E : Env) (at_end : ma_sound → bool) : Env :=
  {| std_sort := std_sort E;
     ma_context_get_devices := ma_context_get_devices E;
     ma_device_init := ma_device_init E;
     ma_resampler_init := ma_resampler_init E;
     ma_resampler_set_rate := ma_resampler_set_rate E;
     ma_resampler_get_expected_output_frame_count :=
       ma_resampler_get_expected_output_frame_count E;
     ma_resampler_process_pcm_frames := ma_resampler_process_pcm_frames E;
     ma_audio_buffer_init := ma_audio_buffer_init E;
     ma_sound_init_from_data_source := ma_sound_init_from_data_source E;
     ma_sound_at_end := at_end |}.

(** A payload as [playAudioData] registers it: two frames of 16-bit mono
    PCM, with the handles [hp], [hp + 1] and [hp + 2]. *)
Definition two_frames (hp : handle) : SoundPayload :=
  {| pl_handle := hp;
     sound := Some {| snd_handle := S (S hp); snd_source := S hp |};
     audioBuffer := Some (buffer_config ma_format_s16 1 2 (S hp));
     pcmData := [Byte.x01; Byte.x02; Byte.x03; Byte.x04] |}.

(** The object with the speakers open and two sounds in flight. *)
Definition world_two_sounds : World :=
  {| audio := set_sounds [Some (two_frames 2%nat); Some (two_frames 5%nat)] (audio world_device_open);
     next_handle := 8%nat |}.

(** The first of the two sounds has played to its end. *)
Definition env_first_finished : Env :=
  with_sound_at_end env_ok (λ s, bool_decide (snd_handle s = 4%nat)).

(** [ma_resampler_init] fails. *)
Definition env_resampler_fails : Env :=
  backend (@insertion_sort DeviceInfo) three_devices
          MA_SUCCESS MA_INVALID_ARGS MA_SUCCESS MA_SUCCESS MA_SUCCESS.

(** [ma_resampler_set_rate] fails. *)
Definition env_set_rate_fails : Env :=
  backend (@insertion_sort DeviceInfo) three_devices
          MA_SUCCESS MA_SUCCESS MA_INVALID_ARGS MA_SUCCESS MA_SUCCESS.

(** A resampler for 16-bit mono PCM at 22050 Hz. *)
Definition resampler_22050 : ma_resampler :=
  {| rs_handle := 1%nat; format := ma_format_s16; channels := 1;
     sampleRateIn := 22050; sampleRateOut := 48000 |}.

(** The object with the speakers open and that resampler. *)
Definition world_resampler : World :=
  {| audio := set_resampler (Some {| resampler := Some resampler_22050 |})
                            (audio world_device_open);
     next_handle := 2%nat |}.

(** No default device is among the enumerated ones. *)
Definition env_no_default : Env :=
  backend (@insertion_sort DeviceInfo) (MA_SUCCESS, [hdmi; headset])
          MA_SUCCESS MA_SUCCESS MA_SUCCESS MA_SUCCESS MA_SUCCESS.

(** ** Pre- and postconditions on the object

    [hoare P m Q T]: started on an object that satisfies [P], the
    computation [m], if it returns [a], leaves an object that satisfies
    [Q a], and if it throws, one that satisfies [T]. *)
Definition hoare {A : Type} (P : Audio → Prop) (m : M A)
    (Q : A → Audio → Prop) (T : Audio → Prop) : Prop :=
  ∀ w : World,
    P (audio w) →
    match m w with
    | Normal a w' _ => Q a (audio w')
    | Thrown w' _ => T (audio w')
    | Undefined => True
    end.

(** ** Invariants of the object *)

(** The flag [m_hasCurrentDevice] tells whether a device object exists,
    and the device object is open on [m_currentDeviceID]. *)
Definition device_consistent (a : Audio) : Prop :=
  if m_hasCurrentDevice a
  then ∃ d : CDevice, m_device a = Some d ∧ dev_id d = m_currentDeviceID a
  else m_device a = None.

(** A resampler object holds a native resampler whose output rate is the
    working rate. *)
Definition resampler_consistent (a : Audio) : Prop :=
  ∀ this : CResampler,
    m_resampler a = Some this →
    ∃ r : ma_resampler,
      resampler this = Some r ∧ sampleRateOut r = AUDIO_DEFAULT_SAMPLE_RATE.

(** An entry of the registry is a payload with its sound and the audio
    buffer the sound reads from. *)
Definition payload_complete (p : option SoundPayload) : Prop :=
  ∃ (q : SoundPayload) (s : ma_sound) (b : ma_audio_buffer),
    p = Some q ∧ sound q = Some s ∧ audioBuffer q = Some b ∧
    snd_source s = ab_handle b.

Definition Audio_invariant (a : Audio) : Prop :=
  device_consistent a ∧ resampler_consistent a ∧ Forall payload_complete (sounds a).

(** What [playAudioData] registers for a request of [channels] channels at
    [sampleRate] with [bitsPerSample] bits and [bufferSize] bytes in
    [buf]: a payload with its sound and its audio buffer, the buffer
    declared with the request's format and channels at the working rate
    and a non-zero frame count; at the working rate the PCM is the first
    [bufferSize] bytes of the input and the frame count that of the input,
    otherwise the PCM has the size computed from the frame count. *)
Definition registered (fmt : ma_format) (channels sampleRate bitsPerSample bufferSize : Z)
    (buf : Block) (p : SoundPayload) : Prop :=
  ∃ (s : ma_sound) (b : ma_audio_buffer),
    sound p = Some s ∧ audioBuffer p = Some b ∧ snd_source s = ab_handle b ∧
    ab_format b = fmt ∧ ab_channels b = channels ∧
    ab_sampleRate b = AUDIO_DEFAULT_SAMPLE_RATE ∧ ab_sizeInFrames b ≠ 0 ∧
    if bool_decide (to_uint32 sampleRate = AUDIO_DEFAULT_SAMPLE_RATE)
    then ab_sizeInFrames b = to_uint64 (bufferSize * 8) / (channels * bitsPerSample) ∧
         pcmData p = take (Z.to_nat bufferSize) (blk_bytes buf) ∧
         bufferSize ≤ Z.of_nat (length (blk_bytes buf))
    else length (pcmData p) =
           Z.to_nat (pcm_size (ab_sizeInFrames b) channels bitsPerSample).

(** The object as [playAudioData] has it when it converts: the last
    enumeration is not empty and holds the selected device, a device is
    open on the selected identifier, and the resampler has the format and
    the channel count of the request. *)
Definition ready (fmt : ma_format) (ch : Z) (a : Audio) : Prop :=
  m_lastDevicesList a ≠ [] ∧
  (∃ d : DeviceInfo, d ∈ m_lastDevicesList a ∧ id d = m_selectedDeviceID a) ∧
  m_hasCurrentDevice a = true ∧
  m_currentDeviceID a = m_selectedDeviceID a ∧
  ∃ r : ma_resampler,
    m_resampler a = Some {| resampler := Some r |} ∧
    format r = fmt ∧ channels r = to_uint32 ch.

(** The conditions under which the C++ of [playAudioData] stays within
    defined behaviour: a resampler object holds a native resampler, the
    product [channels * bitsPerSample] fits an [int], [bufferSize] is not
    negative and the buffer is at least [bufferSize] bytes long, and, for
    input that is resampled, the byte size of the output that a resampler
    with the rate pair of the request estimates for the frames of the
    input fits 64 bits, so that the PCM storage has room for the frames
    the resampler is asked to write. *)
Definition request_in_bounds (E : Env) (a : Audio)
    (channels sampleRate bitsPerSample bufferSize : Z) (buffer : option Block) : Prop :=
  (∀ this : CResampler, m_resampler a = Some this → resampler this ≠ None) ∧
  channels * bitsPerSample ≤ INT_MAX ∧
  0 ≤ bufferSize ∧
  (∀ buf : Block, buffer = Some buf → bufferSize ≤ Z.of_nat (length (blk_bytes buf))) ∧
  (to_uint32 sampleRate ≠ AUDIO_DEFAULT_SAMPLE_RATE →
   ∀ r : ma_resampler,
     sampleRateIn r = to_uint32 sampleRate →
     sampleRateOut r = AUDIO_DEFAULT_SAMPLE_RATE →
     (ma_resampler_get_expected_output_frame_count
        E r (to_uint64 (bufferSize * 8) / (channels * bitsPerSample))).2 *
       channels * (bitsPerSample / 8) < 2 ^ 64).

(** The object after [playAudioData] played [four_bytes] at the working
    rate on [world_three_devices]. *)
Definition world_after_play : World :=
  {| audio :=
       {| m_device := Some {| dev_handle := 0%nat; dev_id := "speakers" |};
          m_resampler :=
            Some {| resampler :=
                      Some {| rs_handle := 1%nat; format := ma_format_s16; channels := 1;
                              sampleRateIn := 48000; sampleRateOut := 48000 |} |};
          m_selectedDeviceID := "speakers"; m_currentDeviceID := "speakers";
          m_hasCurrentDevice := true;
          m_lastDevicesList := map to_DeviceInfo [speakers; hdmi; headset];
          sounds := [Some (two_frames 2%nat)] |};
     next_handle := 5%nat |}.

(** * The callers of the audio engine *)

(** ** [Speech] (speech.cpp) *)

(** [SRAL_VoiceInfo], the record of a voice as the speech library
    declares it; the program reads [name]. *)
Record SRAL_VoiceInfo : Type := {
  vi_index : Z;
  vi_name : string;
  vi_language : string;
  vi_gender : string;
  vi_vendor : string
}.

(** A value-initialised [SRAL_VoiceInfo]. *)
Definition zero_VoiceInfo : SRAL_VoiceInfo :=
  {| vi_index := 0; vi_name := ""; vi_language := ""; vi_gender := ""; vi_vendor := "" |}.

(** The speech library and the voice filter, which are not part of the
    repository: the answers of [SRAL_GetEngineParameter] for the voice
    count and (given the length of the array) for the voice properties, of
    [CheckVoiceIsSupported], of [SRAL_SpeakToMemoryEx] (the buffer, then
    [bufferSize], [channels], [sampleRate], [bitsPerSample]) and of
    [SRAL_SetEngineParameter] for the voice index and the speech rate. *)
Record SRAL : Type := {
  SRAL_voice_count : bool * Z;
  SRAL_voice_properties : nat → bool * list SRAL_VoiceInfo;
  CheckVoiceIsSupported : SRAL_VoiceInfo → bool;
  SRAL_SpeakToMemoryEx : string → option Block * Z * Z * Z * Z;
  SRAL_set_voice_index : nat → bool;
  SRAL_set_speech_rate : Z → bool
}.

(** The members of [Speech]. *)
Record Speech : Type := {
  m_unsupportedVoiceIndices : list nat;
  m_unsupportedVoiceIsSet : bool
}.

(** The name under which a voice is listed. *)
Definition voice_label (S : SRAL) (v : SRAL_VoiceInfo) : string :=
  (if CheckVoiceIsSupported S v then "" else "!Not supported ") +:+ vi_name v.

(** The loop of [getVoicesList], from index [i] on: the names listed and
    the vector of unsupported indices after the [push_back]s. *)
Fixpoint list_voices (S : SRAL) (i : nat) (voiceInfos : list SRAL_VoiceInfo)
    (unsupported : list nat) : list string * list nat :=
  match voiceInfos with
  | [] => ([], unsupported)
  | v :: voiceInfos =>
      let isSupported := CheckVoiceIsSupported S v in
      let unsupported := if isSupported then unsupported else unsupported ++ [i] in
      let '(voices, unsupported) := list_voices S (Datatypes.S i) voiceInfos unsupported in
      (voice_label S v :: voices, unsupported)
  end.

(** [Speech::getVoicesList]: the names, the object and the log lines. *)
Definition getVoicesList (S : SRAL) (this : Speech) : list string * Speech * list Event :=
  let '(ok, voiceCount) := SRAL_voice_count S in
  if negb ok then ([], this, [EvLog error "Failed to get voice count from SRAL."])
  else if voiceCount <=? 0 then ([], this, [])
  else
    let '(ok, written) := SRAL_voice_properties S (Z.to_nat voiceCount) in
    if negb ok then ([], this, [EvLog error "Failed to get voice properties from SRAL."])
    else
      let voiceInfos := resize (Z.to_nat voiceCount) zero_VoiceInfo written in
      let '(voices, unsupported) :=
        list_voices S 0 voiceInfos (m_unsupportedVoiceIndices this) in
      (voices,
       {| m_unsupportedVoiceIndices := unsupported;
          m_unsupportedVoiceIsSet := m_unsupportedVoiceIsSet this |},
       []).

(** [Speech::setVoice]. *)
Definition setVoice (S : SRAL) (this : Speech) (idx : nat) : bool * Speech * list Event :=
  let this :=
    {| m_unsupportedVoiceIndices := m_unsupportedVoiceIndices this;
       m_unsupportedVoiceIsSet := bool_decide (idx ∈ m_unsupportedVoiceIndices this) |} in
  if negb (SRAL_set_voice_index S idx) then
    (false, this, [EvLog error "Failed to set voice index to {}"])
  else (true, this, []).

(** [Speech::setRate]. *)
Definition Speech_setRate (S : SRAL) (rate : Z) : bool := SRAL_set_speech_rate S rate.

(** [Speech::speak], on the [Audio] singleton. *)
Definition speak (E : Env) (S : SRAL) (this : Speech) (text : string) : M bool :=
  if m_unsupportedVoiceIsSet this then
    log warn "Trying to speak with unsupported voice";;
    mret false
  else
    let '(data, bufferSize, channels, sampleRate, bitsPerSample) :=
      SRAL_SpeakToMemoryEx S text in
    match data with
    | None =>
        log error "SRAL_SpeakToMemoryEx returned nullptr";;
        mret false
    | Some buf =>
        if (channels <=? 0) || (sampleRate <=? 0) || (bitsPerSample <=? 0) then
          log error
              "SRAL returned invalid audio metadata: channels={}, sampleRate={}, bitsPerSample={}";;
          free buf;;
          mret false
        else playAudioData E channels sampleRate bitsPerSample bufferSize data
    end.

(** ** The main window (ui.cpp) *)

Definition wxNOT_FOUND : Z := -1.

(** A [wxListBox]: its entries and the selected position. *)
Record wxListBox : Type := {
  lb_items : list string;
  lb_selection : Z
}.

Definition Clear (lb : wxListBox) : wxListBox :=
  {| lb_items := []; lb_selection := wxNOT_FOUND |}.

Definition AppendString (s : string) (lb : wxListBox) : wxListBox :=
  {| lb_items := lb_items lb ++ [s]; lb_selection := lb_selection lb |}.

Definition SetSelection (n : Z) (lb : wxListBox) : wxListBox :=
  {| lb_items := lb_items lb; lb_selection := n |}.

Definition GetSelection (lb : wxListBox) : Z := lb_selection lb.

(** The members of [MainFrame] that the device and voice lists use. *)
Record MainFrame : Type := {
  m_cliVoiceIndex : Z;
  m_cliVoiceName : string;
  m_cliOutputDeviceIndex : Z;
  m_voicesList : wxListBox;
  m_outputDevicesList : wxListBox
}.

Definition set_outputDevices (idx : Z) (lb : wxListBox) (f : MainFrame) : MainFrame :=
  {| m_cliVoiceIndex := m_cliVoiceIndex f; m_cliVoiceName := m_cliVoiceName f;
     m_cliOutputDeviceIndex := idx; m_voicesList := m_voicesList f;
     m_outputDevicesList := lb |}.

Definition set_voices (idx : Z) (lb : wxListBox) (f : MainFrame) : MainFrame :=
  {| m_cliVoiceIndex := idx; m_cliVoiceName := m_cliVoiceName f;
     m_cliOutputDeviceIndex := m_cliOutputDeviceIndex f; m_voicesList := lb;
     m_outputDevicesList := m_outputDevicesList f |}.

(** [static_cast<size_t>] of an [int]. *)
Definition to_size_t (x : Z) : nat := Z.to_nat (to_uint64 x).

(** The entry shown for a device: [std::format("{} {}", isDefaultStr, name)]. *)
Definition device_label (d : DeviceInfo) : string :=
  (if isDefault d then "[default]" else "") +:+ " " +:+ name d.

(** [MainFrame::populateDevicesList]. *)
Definition populateDevicesList (E : Env) (this : MainFrame) : M MainFrame :=
  let lb := Clear (m_outputDevicesList this) in
  devices ← getDevicesList E;
  if bool_decide (devices = []) then
    mret (set_outputDevices (m_cliOutputDeviceIndex this)
                            (AppendString "No devices" lb) this)
  else
    let lb := foldl (λ lb device, AppendString (device_label device) lb) lb devices in
    idx ← (if (m_cliOutputDeviceIndex this <? 0) ||
              bool_decide (length devices ≤ to_size_t (m_cliOutputDeviceIndex this))%nat
           then
             log warn "Device index {} is out of range. Falling back to 0.";;
             mret 0
           else mret (m_cliOutputDeviceIndex this));
    selectDevice (to_size_t idx);;
    mret (set_outputDevices idx (SetSelection idx lb) this).

(** [MainFrame::OnOutputDeviceChange]. *)
Definition OnOutputDeviceChange (this : MainFrame) : M unit :=
  let value := GetSelection (m_outputDevicesList this) in
  if bool_decide (value = wxNOT_FOUND) then
    log warn "Device selection event received with no selection"
  else selectDevice (to_size_t value).

(** The loop of [populateVoicesList] over the names still to visit:
    the list box, [m_cliVoiceIndex] and [isVoiceFoundByName] after it. *)
Fixpoint append_voices (cliVoiceName : string) (voices : list string) (voiceCounter : nat)
    (lb : wxListBox) (cliVoiceIndex : Z) (isVoiceFoundByName : bool)
  : wxListBox * Z * bool :=
  match voices with
  | [] => (lb, cliVoiceIndex, isVoiceFoundByName)
  | voiceName :: voices =>
      let lb := AppendString voiceName lb in
      if negb isVoiceFoundByName && bool_decide (voiceName = cliVoiceName) then
        append_voices cliVoiceName voices (S voiceCounter) lb (Z.of_nat voiceCounter) true
      else
        append_voices cliVoiceName voices (S voiceCounter) lb cliVoiceIndex
                      isVoiceFoundByName
  end.

(** [MainFrame::populateVoicesList]: the window, the [Speech] object and
    the log lines. *)
Definition populateVoicesList (S : SRAL) (this : MainFrame) (speech : Speech)
  : MainFrame * Speech * list Event :=
  let lb := Clear (m_voicesList this) in
  let '(voices, speech, evs) := getVoicesList S speech in
  if bool_decide (voices = []) then
    (set_voices (m_cliVoiceIndex this) (AppendString "No voices available" lb) this,
     speech,
     evs ++ [EvLog warn "No voices available, voice selection is disabled"])
  else
    let '(lb, idx, _) :=
      append_voices (m_cliVoiceName this) voices 0 lb (m_cliVoiceIndex this) false in
    let '(idx, evs_range) :=
      if (idx <? 0) || bool_decide (length voices ≤ to_size_t idx)%nat
      then (0, [EvLog warn "Voice index {} is out of range. Falling back to 0."])
      else (idx, []) in
    let '(_, speech, evs_voice) := setVoice S speech (to_size_t idx) in
    (set_voices idx (SetSelection idx lb) this, speech, evs ++ evs_range ++ evs_voice).

(** [MainFrame::OnVoiceChange]. *)
Definition OnVoiceChange (S : SRAL) (this : MainFrame) (speech : Speech)
  : Speech * list Event :=
  let value := GetSelection (m_voicesList this) in
  if bool_decide (value = wxNOT_FOUND) then
    (speech, [EvLog warn "Voice selection event received with no selection"])
  else
    let '(_, speech, evs) := setVoice S speech (to_size_t value) in
    (speech, evs).

(** ** Concrete voices and windows for the examples *)

Definition anna : SRAL_VoiceInfo :=
  {| vi_index := 0; vi_name := "Anna"; vi_language := "en"; vi_gender := "female";
     vi_vendor := "Microsoft" |}.
Definition boris : SRAL_VoiceInfo :=
  {| vi_index := 1; vi_name := "Boris"; vi_language := "ru"; vi_gender := "male";
     vi_vendor := "Other" |}.

(** Two voices, the second unsupported; synthesis gives [four_bytes] as
    16-bit mono PCM at 22050 Hz. *)
Definition sral_two_voices : SRAL :=
  {| SRAL_voice_count := (true, 2);
     SRAL_voice_properties := λ _, (true, [anna; boris]);
     CheckVoiceIsSupported := λ v, bool_decide (vi_vendor v = "Microsoft");
     SRAL_SpeakToMemoryEx := λ _, (Some four_bytes, 4, 1, 22050, 16);
     SRAL_set_voice_index := λ _, true;
     SRAL_set_speech_rate := λ _, true |}.

(** A [Speech] object before any voice was listed. *)
Definition fresh_Speech : Speech :=
  {| m_unsupportedVoiceIndices := []; m_unsupportedVoiceIsSet := false |}.

Definition empty_ListBox : wxListBox := {| lb_items := []; lb_selection := wxNOT_FOUND |}.

(** The window as its constructor has it before the lists are filled,
    started with [--device 7 --voice-name Anna]. *)
Definition frame_cli : MainFrame :=
  {| m_cliVoiceIndex := 0; m_cliVoiceName := "Anna"; m_cliOutputDeviceIndex := 7;
     m_voicesList := empty_ListBox; m_outputDevicesList := empty_ListBox |}.
(** * Properties *)

(** ** Running the monad *)

Lemma bind_unfold {A B : Type} (m : M A) (f : A → M B) (w : World) :
  (m ≫= f) w =
  match m w with
  | Normal a w1 evs => after evs (f a w1)
  | Thrown w1 evs => Thrown w1 evs
  | Undefined => Undefined
  end.
Proof. reflexivity. Qed.

Lemma after_after {A : Type} (l1 l2 : list Event) (r : Res A) :
  after l1 (after l2 r) = after (l1 ++ l2) r.
Proof. destruct r; simpl; by rewrite ?app_assoc. Qed.

Lemma after_nil {A : Type} (r : Res A) : after [] r = r.
Proof. by destruct r. Qed.

Ltac run :=
  repeat first
    [ rewrite bind_unfold
    | progress cbn [mbind M_bind mret M_ret after gets modify emit emits log free fresh
                    throw undefined app audio next_handle
                    destroy_CResampler destroy_CDevice] ].

(** Case analysis on the first decision in the goal. *)
Ltac case_goal :=
  match goal with
  | |- context [bool_decide ?P] =>
      let H := fresh "Hd" in
      destruct (decide P) as [H | H];
      [rewrite (bool_decide_true P) by exact H
      | rewrite (bool_decide_false P) by exact H]
  end.

Lemma releases_app (addr : nat) (l1 l2 : list Event) :
  releases addr (l1 ++ l2) = (releases addr l1 + releases addr l2)%nat.
Proof. induction l1 as [|e l1 IH]; simpl; [done | rewrite IH; lia]. Qed.

Lemma releases_free (addr : nat) (evs : list Event) :
  releases addr (EvFree addr :: evs) = S (releases addr evs).
Proof. simpl. by rewrite bool_decide_true. Qed.

Ltac count_releases :=
  rewrite ?releases_app; cbn [releases is_free];
  rewrite ?bool_decide_true by reflexivity; cbn [Nat.add].

(** ** [determineFormat] *)

Lemma determineFormat_unknown (b : Z) :
  determineFormat b = ma_format_unknown ↔ b ≠ 8 ∧ b ≠ 16 ∧ b ≠ 24 ∧ b ≠ 32.
Proof.
  unfold determineFormat.
  destruct (Z.eqb_spec b 8); [split; [done | lia] |].
  destruct (Z.eqb_spec b 16); [split; [done | lia] |].
  destruct (Z.eqb_spec b 24); [split; [done | lia] |].
  destruct (Z.eqb_spec b 32); [split; [done | lia] |].
  done.
Qed.

(** C5: [determineFormat] sends 8, 16, 24 and 32 to the formats u8, s16,
    s24 and s32 and every other bit depth to the unknown format; and for a
    bit depth that maps to unknown, [playAudioData] returns [false],
    leaves the object as it was, registers nothing, and hands the buffer it
    was given to [free] exactly once. *)
Theorem determineFormat_tags_and_rejection :
  determineFormat 8 = ma_format_u8 ∧
  determineFormat 16 = ma_format_s16 ∧
  determineFormat 24 = ma_format_s24 ∧
  determineFormat 32 = ma_format_s32 ∧
  (∀ b : Z, b ≠ 8 → b ≠ 16 → b ≠ 24 → b ≠ 32 → determineFormat b = ma_format_unknown) ∧
  (∀ (E : Env) (channels sampleRate bitsPerSample bufferSize : Z)
     (buffer : option Block) (w : World),
     determineFormat bitsPerSample = ma_format_unknown →
     ∃ evs : list Event,
       playAudioData E channels sampleRate bitsPerSample bufferSize buffer w
         = Normal false w evs ∧
       ∀ buf : Block, buffer = Some buf → releases (blk_addr buf) evs = 1%nat).
Proof.
  repeat split; try reflexivity.
  - intros b H8 H16 H24 H32. by apply determineFormat_unknown.
  - intros E ch sr bits size buffer w Hu.
    destruct buffer as [buf|]; unfold playAudioData.
    + destruct ((ch <=? 0) || (bits <=? 0) || (sr <=? 0)).
      * run. eexists; split; [reflexivity |].
        intros ? [= <-]. by count_releases.
      * rewrite Hu. simpl. run. eexists; split; [reflexivity |].
        intros ? [= <-]. by count_releases.
    + run. eexists; split; [reflexivity | done].
Qed.

(** ** [Audio::updateDevice] *)

(** C7: ensuring the output device is active does nothing when a device is
    open on the desired identifier; otherwise a new device object is
    initialised on the desired identifier, takes the place of the previous
    one (which is uninitialised), is started, and becomes the current
    device; after a call that returned, a second call does nothing. *)
Theorem updateDevice_idempotent (E : Env) (w : World) :
  (m_hasCurrentDevice (audio w) = true →
   m_currentDeviceID (audio w) = m_selectedDeviceID (audio w) →
   updateDevice E w = Normal tt w []) ∧
  (¬ (m_hasCurrentDevice (audio w) = true ∧
      m_currentDeviceID (audio w) = m_selectedDeviceID (audio w)) →
   ma_device_init E (m_selectedDeviceID (audio w)) = MA_SUCCESS →
   updateDevice E w =
     Normal tt
       {| audio :=
            set_currentDevice (m_selectedDeviceID (audio w))
              (set_device (Some {| dev_handle := next_handle w;
                                   dev_id := m_selectedDeviceID (audio w) |})
                          (audio w));
          next_handle := S (next_handle w) |}
       ([EvLog debug "Initializing new audio device";
         EvDeviceInit (next_handle w) (m_selectedDeviceID (audio w)) MA_SUCCESS] ++
        match m_device (audio w) with
        | Some old => [EvDeviceUninit (dev_handle old)]
        | None => []
        end ++
        [EvDeviceStart (next_handle w)])) ∧
  (∀ (w1 : World) (evs : list Event),
     updateDevice E w = Normal tt w1 evs →
     ∀ E' : Env, updateDevice E' w1 = Normal tt w1 []).
Proof.
  assert (Hnoop : ∀ (E0 : Env) (w0 : World),
             m_hasCurrentDevice (audio w0) = true →
             m_currentDeviceID (audio w0) = m_selectedDeviceID (audio w0) →
             updateDevice E0 w0 = Normal tt w0 []).
  { intros E0 w0 Hh He. unfold updateDevice. run. rewrite Hh, He.
    unfold ma_device_id_equal. by rewrite bool_decide_true. }
  split; [apply Hnoop |].
  split.
  - intros Hne Hinit. unfold updateDevice, new_CDevice. run.
    destruct (m_hasCurrentDevice (audio w) &&
              ma_device_id_equal (m_currentDeviceID (audio w))
                                 (m_selectedDeviceID (audio w))) eqn:Hc.
    { exfalso. apply Hne. apply andb_true_iff in Hc as [-> Hc].
      by apply bool_decide_eq_true in Hc. }
    run. rewrite Hinit. rewrite bool_decide_false by naive_solver. run.
    destruct (m_device (audio w)) as [old|]; reflexivity.
  - intros w1 evs Hrun E'. apply Hnoop; revert Hrun;
      unfold updateDevice, new_CDevice; run;
      destruct (m_hasCurrentDevice (audio w) &&
                ma_device_id_equal (m_currentDeviceID (audio w))
                                   (m_selectedDeviceID (audio w))) eqn:Hc.
    + intros [= <- _]. by apply andb_true_iff in Hc as [-> _].
    + run. case_bool_decide; run; [done |].
      destruct (m_device (audio w)); intros [= <- _]; reflexivity.
    + intros [= <- _]. apply andb_true_iff in Hc as [_ Hc].
      by apply bool_decide_eq_true in Hc.
    + run. case_bool_decide; run; [done |].
      destruct (m_device (audio w)); intros [= <- _]; reflexivity.
Qed.

(** ** [Audio::selectDevice] *)

(** C9, as amended: for an index at or beyond the size of a non-empty last
    enumeration, [selectDevice] logs a warning, records the identifier of
    the entry at index 0 as the selected one and returns; on an empty last
    enumeration it logs a warning and returns with nothing recorded. In
    both cases the only event is the warning and the device object is left
    alone. *)
Theorem selectDevice_out_of_range (w : World) (deviceIndex : nat) :
  (length (m_lastDevicesList (audio w)) ≤ deviceIndex)%nat →
  match m_lastDevicesList (audio w) with
  | first :: _ =>
      selectDevice deviceIndex w =
        Normal tt
          {| audio := set_selectedDeviceID (id first) (audio w);
             next_handle := next_handle w |}
          [EvLog warn "Device index {} is out of range. Falling back to 0."]
  | [] =>
      selectDevice deviceIndex w =
        Normal tt w [EvLog warn "Cannot select audio device: device list is empty"]
  end.
Proof.
  intros Hle. unfold selectDevice. run.
  destruct (m_lastDevicesList (audio w)) as [|first l] eqn:Hl.
  - reflexivity.
  - rewrite bool_decide_false by done. run.
    rewrite bool_decide_true by done. run. reflexivity.
Qed.

(** ** [Audio::updateResampler] *)

(** After a call that returned, the object holds a resampler of the
    requested format and channel count. *)
Lemma updateResampler_returns (E : Env) (fmt : ma_format) (ch rin rout : Z)
    (w w1 : World) (evs : list Event) :
  updateResampler E fmt ch rin rout w = Normal tt w1 evs →
  ∃ r : ma_resampler,
    m_resampler (audio w1) = Some {| resampler := Some r |} ∧
    format r = fmt ∧ channels r = ch.
Proof.
  unfold updateResampler, replace_resampler, new_CResampler, setRate. run.
  destruct (m_resampler (audio w)) as [[[r|]]|] eqn:Hm; run.
  - destruct (bool_decide (format r ≠ fmt) || bool_decide (channels r ≠ ch)) eqn:Hc; run.
    + case_goal; run; [done |]. rewrite Hm. run. intros [= <- _]. eauto.
    + apply orb_false_iff in Hc as [Hf Hch].
      apply bool_decide_eq_false in Hf, Hch.
      assert (format r = fmt) by (by destruct (decide (format r = fmt))).
      assert (channels r = ch) by lia.
      case_goal; run.
      * intros [= <- _]. eauto.
      * rewrite Hm. run. case_goal; run.
        -- rewrite bool_decide_false by naive_solver. run. intros [= <- _]; eauto.
        -- rewrite bool_decide_true by done. run. done.
  - done.
  - case_goal; run; [done |]. rewrite Hm. run. intros [= <- _]. eauto.
Qed.

(** C3: a call that finds no resampler, or one of another sample format or
    channel count, initialises a new resampler object for the requested
    format, channels and rates, which takes the place of the old one (the
    old one is uninitialised); a call that finds a resampler of the same
    format and channels with equal input and output rate does nothing; and
    of two consecutive calls with the same format and channels, the second
    initialises no resampler: it does nothing when its input rate equals
    the output rate, and otherwise sets the rate pair of the object the
    first call left, which keeps its identity, format and channels. *)
Theorem updateResampler_reuse :
  (∀ (E : Env) (w : World) (fmt : ma_format) (ch rin rout : Z),
     (m_resampler (audio w) = None ∨
      ∃ r : ma_resampler,
        m_resampler (audio w) = Some {| resampler := Some r |} ∧
        (format r ≠ fmt ∨ channels r ≠ ch)) →
     ma_resampler_init E fmt ch rin rout = MA_SUCCESS →
     updateResampler E fmt ch rin rout w =
       Normal tt
         {| audio :=
              set_resampler
                (Some {| resampler :=
                           Some {| rs_handle := next_handle w; format := fmt;
                                   channels := ch; sampleRateIn := rin;
                                   sampleRateOut := rout |} |})
                (audio w);
            next_handle := S (next_handle w) |}
         (EvResamplerInit (next_handle w) fmt ch rin rout MA_SUCCESS ::
          match m_resampler (audio w) with
          | Some {| resampler := Some old |} => [EvResamplerUninit (rs_handle old)]
          | _ => []
          end)) ∧
  (∀ (E : Env) (w : World) (r : ma_resampler) (rate : Z),
     m_resampler (audio w) = Some {| resampler := Some r |} →
     updateResampler E (format r) (channels r) rate rate w = Normal tt w []) ∧
  (∀ (E1 E2 : Env) (w w1 : World) (evs1 : list Event) (fmt : ma_format)
     (ch rate1 rate2 rout : Z),
     updateResampler E1 fmt ch rate1 rout w = Normal tt w1 evs1 →
     ∃ r : ma_resampler,
       m_resampler (audio w1) = Some {| resampler := Some r |} ∧
       format r = fmt ∧ channels r = ch ∧
       (rate2 = rout → updateResampler E2 fmt ch rate2 rout w1 = Normal tt w1 []) ∧
       (rate2 ≠ rout →
        ma_resampler_set_rate E2 r rate2 rout = MA_SUCCESS →
        updateResampler E2 fmt ch rate2 rout w1 =
          Normal tt
            {| audio :=
                 set_resampler
                   (Some {| resampler :=
                              Some {| rs_handle := rs_handle r; format := fmt;
                                      channels := ch; sampleRateIn := rate2;
                                      sampleRateOut := rout |} |})
                   (audio w1);
               next_handle := next_handle w1 |}
            [EvResamplerSetRate (rs_handle r) rate2 rout MA_SUCCESS])).
Proof.
  assert (Hnoop : ∀ (E : Env) (w : World) (r : ma_resampler) (rate : Z),
             m_resampler (audio w) = Some {| resampler := Some r |} →
             updateResampler E (format r) (channels r) rate rate w = Normal tt w []).
  { intros E w r rate Hm. unfold updateResampler. run. rewrite Hm.
    rewrite !bool_decide_false by naive_solver. cbn [orb].
    by rewrite bool_decide_true. }
  split; [| split; [exact Hnoop |]].
  - intros E w fmt ch rin rout Hnew Hinit.
    unfold updateResampler, replace_resampler, new_CResampler. run.
    destruct Hnew as [Hm | (r & Hm & Hdiff)]; rewrite Hm; run.
    + rewrite Hinit. rewrite bool_decide_false by naive_solver. run.
      rewrite Hm. by run.
    + assert (bool_decide (format r ≠ fmt) || bool_decide (channels r ≠ ch) = true)
        as ->.
      { apply orb_true_iff. destruct Hdiff; [left | right]; by apply bool_decide_eq_true. }
      run. rewrite Hinit. rewrite bool_decide_false by naive_solver. run.
      rewrite Hm. by run.
  - intros E1 E2 w w1 evs1 fmt ch rate1 rate2 rout Hrun.
    destruct (updateResampler_returns _ _ _ _ _ _ _ _ Hrun) as (r & Hm & Hf & Hc).
    exists r. split; [done |]. split; [done |]. split; [done |]. split.
    + intros ->. subst fmt ch. by apply Hnoop.
    + intros Hne Hset. unfold updateResampler, setRate. run. rewrite Hm.
      rewrite !bool_decide_false by naive_solver. cbn [orb].
      run. rewrite Hm. run. rewrite Hset.
      rewrite bool_decide_true by done. run.
      rewrite bool_decide_false by naive_solver. run. by subst.
Qed.

(** ** The examples are states the constructor produces *)

Example new_Audio_three_devices :
  new_Audio env_ok blank_World = Normal tt world_three_devices [EvGetDevices MA_SUCCESS].
Proof. reflexivity. Qed.

Example new_Audio_no_devices :
  new_Audio env_no_devices blank_World =
  Normal tt world_no_devices
         [EvGetDevices MA_SUCCESS;
          EvLog warn "No audio devices found during Audio initialization"].
Proof. reflexivity. Qed.

(** ** [std::sort] and [Audio::getDevicesList] *)

Section SortingRoutines.
Context {A : Type} (comp : A → A → bool).
Hypothesis comp_swo : strict_weak_order comp.

Lemma comp_asymmetric (x y : A) : comp x y = true → comp y x = false.
Proof.
  destruct comp_swo as (Hirr & Htrans & _). intros Hxy.
  destruct (comp y x) eqn:Hyx; [| done].
  by rewrite <- (Hirr x), (Htrans x y x).
Qed.

(** If [z] is not before [y] and [y] is not before [x], then [z] is not
    before [x]. *)
Lemma comp_not_before_trans (x y z : A) :
  comp z y = false → comp y x = false → comp z x = false.
Proof.
  destruct comp_swo as (Hirr & Htrans & Hequiv). intros Hzy Hyx.
  destruct (comp z x) eqn:Hzx; [| done].
  destruct (comp y z) eqn:Hyz.
  { by rewrite <- Hyx, (Htrans y z x). }
  destruct (comp x y) eqn:Hxy.
  { by rewrite <- Hzy, (Htrans z x y). }
  destruct (Hequiv z y x) as [Hzx' _]; try done. congruence.
Qed.

Lemma insert_before_greater_or_equal_perm (x : A) (l : list A) :
  insert_before_greater_or_equal comp x l ≡ₚ x :: l.
Proof.
  induction l as [|y l IH]; simpl; [done |].
  destruct (comp y x); [| done]. rewrite IH. apply Permutation_swap.
Qed.

Lemma insert_before_greater_or_equal_sorted (x : A) (l : list A) :
  sorted_by comp l → sorted_by comp (insert_before_greater_or_equal comp x l).
Proof.
  unfold sorted_by. induction 1 as [|y l Hs IH Hall]; simpl.
  - repeat constructor.
  - destruct (comp y x) eqn:Hyx.
    + constructor; [done |].
      rewrite insert_before_greater_or_equal_perm.
      constructor; [by apply comp_asymmetric | done].
    + constructor; [by constructor |].
      constructor; [done |].
      eapply Forall_impl; [exact Hall |].
      intros z Hzy. simpl in Hzy. by apply (comp_not_before_trans x y z).
Qed.

Lemma insertion_sort_meets_contract (l : list A) :
  insertion_sort comp l ≡ₚ l ∧ sorted_by comp (insertion_sort comp l).
Proof.
  induction l as [|x l [IHp IHs]]; simpl.
  - split; [done | constructor].
  - split.
    + by rewrite insert_before_greater_or_equal_perm, IHp.
    + by apply insert_before_greater_or_equal_sorted.
Qed.

End SortingRoutines.

Lemma default_first_strict_weak_order : strict_weak_order default_first.
Proof.
  unfold strict_weak_order, default_first. split; [| split].
  - intros x. by destruct (isDefault x).
  - intros x y z. by destruct (isDefault x), (isDefault y), (isDefault z).
  - intros x y z. by destruct (isDefault x), (isDefault y), (isDefault z).
Qed.

Lemma backend_insertion_sort_contract enumeration r1 r2 r3 r4 r5 :
  std_sort_contract (backend (@insertion_sort DeviceInfo) enumeration r1 r2 r3 r4 r5).
Proof. intros comp l Hswo. by apply insertion_sort_meets_contract. Qed.

(** A list sorted by [default_first] is a run of default devices followed
    by a run of the others. *)
Lemma sorted_default_first_split (l : list DeviceInfo) :
  sorted_by default_first l →
  ∃ defaults others : list DeviceInfo,
    l = defaults ++ others ∧
    Forall (λ d, isDefault d = true) defaults ∧
    Forall (λ d, isDefault d = false) others.
Proof.
  unfold sorted_by. induction 1 as [|x l Hs (ds & ns & -> & Hds & Hns) Hall].
  - exists [], []. by repeat constructor.
  - destruct (isDefault x) eqn:Hx.
    + exists (x :: ds), ns. repeat split; [by constructor | done].
    + exists [], (x :: ds ++ ns). repeat split; [constructor |].
      constructor; [done |].
      eapply Forall_impl; [exact Hall |].
      intros y Hy. unfold default_first in Hy. simpl in Hy. rewrite Hx in Hy.
      by destruct (isDefault y).
Qed.



(** On the three devices of the examples, the [std::sort] of libstdc++
    gives the order of the stable sort. *)
Example libstdcxx_sort_three_devices :
  libstdcxx_sort default_first (map to_DeviceInfo [hdmi; speakers; headset]) =
  insertion_sort default_first (map to_DeviceInfo [hdmi; speakers; headset]).
Proof. reflexivity. Qed.


(** ** The steps of [playAudioData] before the conversion *)

Lemma quiet_app (l1 l2 : list Event) : quiet l1 → quiet l2 → quiet (l1 ++ l2).
Proof. unfold quiet. rewrite Forall_app. tauto. Qed.

Lemma quiet_releases (addr : nat) (evs : list Event) : quiet evs → releases addr evs = 0%nat.
Proof.
  induction 1 as [|e evs He _ IH]; simpl; [done |].
  rewrite IH. by destruct e.
Qed.

Lemma quiet_not_in (e : Event) (evs : list Event) :
  quiet evs → prelude_event e = false → ¬ In e evs.
Proof.
  unfold quiet. rewrite Forall_forall. intros Hq He Hin.
  apply list_elem_of_In, Hq in Hin. congruence.
Qed.

Lemma quiet_cons (e : Event) (l : list Event) :
  prelude_event e = true → quiet l → quiet (e :: l).
Proof. by constructor. Qed.

Lemma quiet_nil : quiet [].
Proof. constructor. Qed.

Ltac quiet :=
  repeat first [ assumption | apply quiet_nil | apply quiet_app
               | apply quiet_cons; [reflexivity |] ].

Lemma getDevicesList_cases (E : Env) (w : World) :
  (∃ l : list DeviceInfo,
     getDevicesList E w =
       Normal l {| audio := set_lastDevicesList l (audio w);
                   next_handle := next_handle w |}
              [EvGetDevices MA_SUCCESS]) ∨
  (∃ r : ma_result,
     r ≠ MA_SUCCESS ∧
     getDevicesList E w =
       Thrown w [EvGetDevices r; EvLog critical "Failed to get list of devices"]).
Proof.
  unfold getDevicesList. destruct (ma_context_get_devices E) as [r infos]. run.
  case_goal; run.
  - right. by exists r.
  - left. apply dec_stable in Hd as ->. eauto.
Qed.

Lemma remove_freed_spec (E : Env) (onlyUnused : bool) (l : list (option SoundPayload)) :
  sublist (remove_freed E onlyUnused l).1.1 l ∧ quiet (remove_freed E onlyUnused l).1.2.
Proof.
  induction l as [|p l [IHs IHq]]; simpl.
  - split; [done | constructor].
  - destruct (remove_freed E onlyUnused l) as [[kept evs] counter]. simpl in *.
    destruct (is_freed E onlyUnused p); simpl.
    + split; [by apply sublist_cons |].
      apply quiet_app; [| done].
      destruct p as [p|]; simpl; [| constructor].
      unfold delete_SoundPayload, destroy_SoundPayload.
      destruct (sound p), (audioBuffer p); by repeat constructor.
    + split; [by apply sublist_skip | done].
Qed.

Lemma freeSounds_spec (E : Env) (onlyUnused : bool) (w : World) :
  ∃ (kept : list (option SoundPayload)) (evs : list Event),
    freeSounds E onlyUnused w =
      Normal tt {| audio := set_sounds kept (audio w); next_handle := next_handle w |} evs ∧
    sublist kept (sounds (audio w)) ∧ quiet evs.
Proof.
  unfold freeSounds. run.
  pose proof (remove_freed_spec E onlyUnused (sounds (audio w))) as [Hs Hq].
  destruct (remove_freed E onlyUnused (sounds (audio w))) as [[kept evs] counter].
  simpl in Hs, Hq. run. exists kept.
  destruct (0 <? counter); run; eexists; (split; [reflexivity |]); split; try done; quiet.
Qed.

(** What a step before the conversion leaves of the registry: the list of
    sounds is untouched. *)
Lemma updateDevice_spec (E : Env) (w : World) :
  match updateDevice E w with
  | Normal _ w1 evs => sounds (audio w1) = sounds (audio w) ∧ quiet evs
  | Thrown w1 evs => sounds (audio w1) = sounds (audio w) ∧ quiet evs
  | Undefined => False
  end.
Proof.
  unfold updateDevice, new_CDevice. run.
  destruct (m_hasCurrentDevice (audio w) && _); run; [split; [done | constructor] |].
  case_goal; run; [split; [done | quiet] |].
  destruct (m_device (audio w)); run; (split; [done | quiet]).
Qed.

Lemma updateResampler_spec (E : Env) (fmt : ma_format) (ch rin rout : Z) (w : World) :
  match updateResampler E fmt ch rin rout w with
  | Normal _ w1 evs => sounds (audio w1) = sounds (audio w) ∧ quiet evs
  | Thrown w1 evs => sounds (audio w1) = sounds (audio w) ∧ quiet evs
  | Undefined => True
  end.
Proof.
  unfold updateResampler, replace_resampler, new_CResampler, setRate. run.
  destruct (m_resampler (audio w)) as [[[r|]]|] eqn:Hm; run; [| done |].
  - destruct (bool_decide (format r ≠ fmt) || bool_decide (channels r ≠ ch)); run.
    + case_goal; run; [split; [done | quiet] |].
      rewrite Hm. run. split; [done | quiet].
    + case_goal; run; [split; [done | constructor] |].
      rewrite Hm. run. case_goal; run; case_goal; run; split; try done; quiet.
  - case_goal; run; [split; [done | quiet] |].
    rewrite Hm. run. split; [done | quiet].
Qed.

(** With a buffer, valid metadata and a non-zero size, [playAudioData]
    either throws before the conversion, or runs into undefined behaviour,
    or finds no device, or reaches the conversion with a registry that is
    part of the one it started with. *)
Lemma playAudioData_valid (E : Env) (ch sr bits size : Z) (buf : Block) (w : World) :
  0 < ch → 0 < sr → determineFormat bits ≠ ma_format_unknown → size ≠ 0 →
  (∃ (w1 : World) (pre : list Event),
     playAudioData E ch sr bits size (Some buf) w = Thrown w1 pre ∧ quiet pre) ∨
  playAudioData E ch sr bits size (Some buf) w = Undefined ∨
  (∃ (w1 : World) (pre : list Event),
     getDevicesList E w = Normal [] w1 pre ∧
     playAudioData E ch sr bits size (Some buf) w =
       Normal false w1
              (pre ++ [EvLog error "No playback devices are available";
                       EvFree (blk_addr buf)])) ∨
  (∃ (w1 : World) (pre : list Event),
     quiet pre ∧ sublist (sounds (audio w1)) (sounds (audio w)) ∧
     playAudioData E ch sr bits size (Some buf) w =
       after pre (convert_and_start E (determineFormat bits) ch sr bits size buf w1)).
Proof.
  intros Hch Hsr Hfmt Hsize. unfold playAudioData.
  assert (0 < bits).
  { destruct (decide (0 < bits)) as [|Hn]; [done |]. exfalso. apply Hfmt.
    apply determineFormat_unknown. lia. }
  replace ((ch <=? 0) || (bits <=? 0) || (sr <=? 0)) with false
    by (symmetry; rewrite !orb_false_iff; repeat split; lia).
  rewrite bool_decide_false by done.
  replace (size =? 0) with false by (symmetry; lia).
  run. destruct (getDevicesList_cases E w) as [[l Hg] | (r & Hr & Hg)]; rewrite Hg; run.
  2: { left. eexists _, _. split; [reflexivity | quiet]. }
  destruct l as [|first l]; run.
  { right; right; left. eexists _, _. split; [reflexivity |]. reflexivity. }
  match goal with
  | |- context [(if ?c then ?m1 else ?m2) ?w0] =>
      assert (∃ (w1 : World) (evs : list Event),
                (if c then m1 else m2) w0 = Normal tt w1 evs ∧ quiet evs ∧
                sounds (audio w1) = sounds (audio w))
        as (w1 & evs1 & -> & Hq1 & Hs1)
        by (destruct c; run; eexists _, _; (split; [reflexivity |]); split;
            (done || quiet))
  end.
  run. destruct (freeSounds_spec E true w1) as (kept & evs2 & -> & Hs2 & Hq2). run.
  match goal with
  | |- context [updateDevice E ?w0] =>
      pose proof (updateDevice_spec E w0) as Hd;
      destruct (updateDevice E w0) as [[] w3 evs3 | w3 evs3 |]; [| | done];
      destruct Hd as [Hs3 Hq3]; run
  end.
  2: { left. eexists _, _. split; [reflexivity | quiet]. }
  match goal with
  | |- context [updateResampler E ?f ?c ?ri ?ro ?w0] =>
      pose proof (updateResampler_spec E f c ri ro w0) as Hr;
      destruct (updateResampler E f c ri ro w0) as [[] w4 evs4 | w4 evs4 |];
      [destruct Hr as [Hs4 Hq4] | destruct Hr as [Hs4 Hq4] |]; run
  end.
  - right; right; right. exists w4, (EvGetDevices MA_SUCCESS :: evs1 ++ evs2 ++ evs3 ++ evs4).
    split; [| split].
    + quiet.
    + rewrite Hs4, Hs3. simpl. by rewrite <- Hs1.
    + destruct (convert_and_start E (determineFormat bits) ch sr bits size buf w4);
        simpl; rewrite ?app_nil_r, <- ?app_assoc; reflexivity.
  - left. eexists _, _. split; [reflexivity | quiet].
  - by right; left.
Qed.

(** ** The conversion and the construction of the sound *)

(** The four ways [start_sound] ends. *)
Lemma start_sound_cases (E : Env) (fmt : ma_format) (ch n : Z) (hp : handle)
    (pcm : list byte) (w : World) :
  let hb := next_handle w in
  let hs := S (next_handle w) in
  let config := buffer_config fmt ch n hb in
  (n = 0 ∧ start_sound E fmt ch n hp pcm w = Normal true w [EvPayloadDelete hp]) ∨
  (∃ r : ma_result,
     n ≠ 0 ∧ r ≠ MA_SUCCESS ∧ ma_audio_buffer_init E config pcm = r ∧
     start_sound E fmt ch n hp pcm w =
       Normal false (drawn w)
              [EvAudioBufferInit hb r;
               EvLog critical "Failed to initialize audio buffer: {}";
               EvAudioBufferReset hb; EvPayloadDelete hp]) ∨
  (∃ r : ma_result,
     n ≠ 0 ∧ r ≠ MA_SUCCESS ∧ ma_audio_buffer_init E config pcm = MA_SUCCESS ∧
     ma_sound_init_from_data_source E config = r ∧
     start_sound E fmt ch n hp pcm w =
       Normal false (drawn (drawn w))
              [EvAudioBufferInit hb MA_SUCCESS; EvSoundInit hs hb r;
               EvLog critical "Failed to initialize sound instance: {}";
               EvAudioBufferUninit hb; EvAudioBufferReset hb; EvSoundReset hs;
               EvPayloadDelete hp]) ∨
  (n ≠ 0 ∧ ma_audio_buffer_init E config pcm = MA_SUCCESS ∧
   ma_sound_init_from_data_source E config = MA_SUCCESS ∧
   start_sound E fmt ch n hp pcm w =
     Normal true
            {| audio :=
                 set_sounds
                   (sounds (audio w) ++
                    [Some {| pl_handle := hp;
                             sound := Some {| snd_handle := hs; snd_source := hb |};
                             audioBuffer := Some config; pcmData := pcm |}])
                   (audio w);
               next_handle := S (S (next_handle w)) |}
            [EvAudioBufferInit hb MA_SUCCESS; EvSoundInit hs hb MA_SUCCESS;
             EvSoundStart hs]).
Proof.
  intros hb hs config. unfold start_sound. fold (buffer_config fmt ch n (next_handle w)).
  destruct (Z.eqb_spec n 0) as [-> | Hn]; run.
  { left. by destruct w. }
  right. fold hb config. case_goal; run.
  { left. eexists. by repeat split. }
  right. apply dec_stable in Hd. rewrite Hd.
  fold (buffer_config fmt ch n hb). fold config. case_goal; run.
  { left. eexists. by repeat split. }
  right. apply dec_stable in Hd0. rewrite Hd0. by repeat split.
Qed.

(** The five ways [convert_and_start] ends. *)
Lemma convert_and_start_cases (E : Env) (fmt : ma_format) (ch sr bits size : Z)
    (buf : Block) (w : World) :
  let addr := blk_addr buf in
  let hp := next_handle w in
  let frameCountIn := to_uint64 (size * 8) / (ch * bits) in
  convert_and_start E fmt ch sr bits size buf w = Undefined ∨
  (∃ (h : handle) (r : ma_result),
     convert_and_start E fmt ch sr bits size buf w =
       Normal false w
              [EvResamplerExpected h frameCountIn r;
               EvLog error "Failed to get expected frame count for resampling: {}";
               EvFree addr]) ∨
  (∃ (h : handle) (proc : list Event),
     to_uint32 sr ≠ AUDIO_DEFAULT_SAMPLE_RATE ∧
     (proc = [] ∨ ∃ r, proc = [EvResamplerProcess h frameCountIn r]) ∧
     convert_and_start E fmt ch sr bits size buf w =
       Normal false (drawn w)
              ([EvResamplerExpected h frameCountIn MA_SUCCESS; EvPayloadNew hp] ++ proc ++
               [EvLog error "Failed to resample audio: {}"; EvFree addr;
                EvPayloadDelete hp])) ∨
  (∃ (h : handle) (produced : Z) (pcm : list byte),
     to_uint32 sr ≠ AUDIO_DEFAULT_SAMPLE_RATE ∧
     convert_and_start E fmt ch sr bits size buf w =
       after [EvResamplerExpected h frameCountIn MA_SUCCESS; EvPayloadNew hp;
              EvResamplerProcess h frameCountIn MA_SUCCESS; EvFree addr]
             (start_sound E fmt ch produced hp pcm (drawn w))) ∨
  (∃ h : handle,
     to_uint32 sr = AUDIO_DEFAULT_SAMPLE_RATE ∧
     Z.of_nat (length (blk_bytes buf)) >= size ∧
     convert_and_start E fmt ch sr bits size buf w =
       after [EvResamplerExpected h frameCountIn MA_SUCCESS; EvPayloadNew hp; EvFree addr]
             (start_sound E fmt ch frameCountIn hp
                          (take (Z.to_nat size) (blk_bytes buf)) (drawn w))).
Proof.
  intros addr hp frameCountIn. unfold convert_and_start.
  destruct (INT_MAX <? ch * bits); [by left |]. run.
  destruct (m_resampler (audio w)) as [[[r|]]|]; [| by left | by left].
  fold frameCountIn.
  destruct (ma_resampler_get_expected_output_frame_count E r frameCountIn)
    as [result frameCountOut]. run.
  case_goal; run. { right; left. eauto. }
  apply dec_stable in Hd as ->. fold hp. fold (drawn w).
  case_goal.
  - unfold processAudioData.
    destruct (vector_data _) as [out|]; cbn [resampler]; run.
    + match goal with
      | |- context [if ?c then undefined else _] => destruct c
      end; run; [by left |].
      destruct (ma_resampler_process_pcm_frames E r (blk_bytes buf) frameCountIn
                  frameCountOut) as [[result written] produced]. run.
      case_goal; run.
      * right; right; left.
        exists (rs_handle r), [EvResamplerProcess (rs_handle r) frameCountIn result].
        split; [done |]. split; [eauto | reflexivity].
      * right; right; right; left. apply dec_stable in Hd0 as ->. eexists _, _, _.
        split; [done |].
        rewrite !after_after, ?after_nil. cbn [app]. reflexivity.
    + rewrite bool_decide_true by done. run.
      right; right; left.
      exists (rs_handle r), []. split; [done |]. split; [by left | reflexivity].
  - apply dec_stable in Hd.
    destruct (Z.ltb_spec (Z.of_nat (length (blk_bytes buf))) size).
    + by left.
    + right; right; right; right.
      exists (rs_handle r). split; [done |]. split; [lia |]. run.
      rewrite !after_after, ?after_nil. cbn [app]. reflexivity.
Qed.

(** ** Releases of the caller's buffer *)

Lemma start_sound_release (E : Env) (fmt : ma_format) (ch n : Z) (hp : handle)
    (pcm : list byte) (w : World) (addr : nat) :
  match start_sound E fmt ch n hp pcm w with
  | Normal _ _ evs => releases addr evs = 0%nat
  | _ => False
  end.
Proof.
  destruct (start_sound_cases E fmt ch n hp pcm w)
    as [[_ ->] | [(r & _ & _ & _ & ->) | [(r & _ & _ & _ & _ & ->) | (_ & _ & _ & ->)]]];
    reflexivity.
Qed.

Lemma convert_and_start_release (E : Env) (fmt : ma_format) (ch sr bits size : Z)
    (buf : Block) (w : World) :
  match convert_and_start E fmt ch sr bits size buf w with
  | Normal _ _ evs => releases (blk_addr buf) evs = 1%nat
  | Thrown _ _ => False
  | Undefined => True
  end.
Proof.
  destruct (convert_and_start_cases E fmt ch sr bits size buf w)
    as [-> | [(h & r & ->) | [(h & proc & _ & Hproc & ->) |
       [(h & n & pcm & _ & ->) | (h & _ & _ & ->)]]]]; [done | | | |].
  - by count_releases.
  - destruct Hproc as [-> | [r ->]]; by count_releases.
  - pose proof (start_sound_release E fmt ch n (next_handle w) pcm (drawn w) (blk_addr buf))
      as Hs.
    destruct (start_sound _ _ _ _ _ _ _); [| done | done]. simpl after.
    count_releases. by rewrite Hs.
  - match goal with
    | |- context [start_sound ?a ?b ?c ?d ?e ?f ?g] =>
        pose proof (start_sound_release a b c d e f g (blk_addr buf)) as Hs;
        destruct (start_sound a b c d e f g); [| done | done]
    end.
    simpl after. count_releases. by rewrite Hs.
Qed.

(** On every path on which [playAudioData] returns, a buffer that is not
    null is handed to [free] exactly once; on every path on which it
    throws, the buffer is not released. *)
Lemma playAudioData_release (E : Env) (ch sr bits size : Z) (buf : Block) (w : World) :
  match playAudioData E ch sr bits size (Some buf) w with
  | Normal _ _ evs => releases (blk_addr buf) evs = 1%nat
  | Thrown _ evs => releases (blk_addr buf) evs = 0%nat
  | Undefined => True
  end.
Proof.
  destruct (decide (0 < ch ∧ 0 < sr ∧ determineFormat bits ≠ ma_format_unknown ∧ size ≠ 0))
    as [(Hch & Hsr & Hfmt & Hsize) | Hinvalid].
  - destruct (playAudioData_valid E ch sr bits size buf w Hch Hsr Hfmt Hsize)
      as [(w1 & pre & -> & Hq) | [-> | [(w1 & pre & Hg & ->) | (w1 & pre & Hq & _ & ->)]]].
    + by apply quiet_releases.
    + done.
    + destruct (getDevicesList_cases E w) as [[l Hg'] | (r & _ & Hg')];
        rewrite Hg' in Hg; [| done].
      injection Hg as _ _ <-. by count_releases.
    + pose proof (convert_and_start_release E (determineFormat bits) ch sr bits size buf w1)
        as Hc.
      destruct (convert_and_start _ _ _ _ _ _ _ _); [| done | done]. simpl.
      rewrite releases_app, Hc. by rewrite quiet_releases.
  - unfold playAudioData.
    destruct ((ch <=? 0) || (bits <=? 0) || (sr <=? 0)) eqn:Hmeta; run.
    { by count_releases. }
    case_goal; run. { by count_releases. }
    destruct (Z.eqb_spec size 0); run. { by count_releases. }
    exfalso. apply Hinvalid. rewrite !orb_false_iff in Hmeta. repeat split; (lia || done).
Qed.

(** With a null buffer [playAudioData] logs an error and returns [false]. *)
Lemma playAudioData_null (E : Env) (ch sr bits size : Z) (w : World) :
  playAudioData E ch sr bits size None w =
  Normal false w [EvLog error "Speech buffer was nullptr"].
Proof. reflexivity. Qed.

(** C6: when the byte length is 0, the buffer is not null, channels and
    sample rate are positive and the bit depth is 8, 16, 24 or 32,
    [playAudioData] releases the buffer, returns [true], and does nothing
    else: the object, its registry of sounds included, is as before and no
    native call is made. *)
Theorem playAudioData_zero_length (E : Env) (ch sr bits : Z) (buf : Block) (w : World) :
  0 < ch → 0 < sr → bits = 8 ∨ bits = 16 ∨ bits = 24 ∨ bits = 32 →
  playAudioData E ch sr bits 0 (Some buf) w = Normal true w [EvFree (blk_addr buf)].
Proof.
  intros Hch Hsr Hbits. unfold playAudioData.
  replace ((ch <=? 0) || (bits <=? 0) || (sr <=? 0)) with false
    by (symmetry; rewrite !orb_false_iff; repeat split; lia).
  rewrite bool_decide_false; [by run |].
  rewrite determineFormat_unknown. lia.
Qed.

(** A zero-length request on the object constructed over three devices. *)
Lemma playAudioData_zero_length_witness :
  playAudioData env_ok 1 22050 16 0 (Some four_bytes) world_three_devices =
  Normal true world_three_devices [EvFree (blk_addr four_bytes)].
Proof.
  apply (playAudioData_zero_length env_ok 1 22050 16 four_bytes world_three_devices);
    [lia | lia | right; left; reflexivity].
Defined.

(** C10: when the arguments pass validation and the enumeration inside
    [playAudioData] comes back empty, the call logs an error, releases the
    buffer exactly once and returns [false] without throwing; it makes no
    further native call, and the device, the resampler and the registry of
    sounds are as before. *)
Theorem playAudioData_no_devices (E : Env) (ch sr bits size : Z) (buf : Block)
    (w w1 : World) (evs1 : list Event) :
  0 < ch → 0 < sr → bits = 8 ∨ bits = 16 ∨ bits = 24 ∨ bits = 32 → size ≠ 0 →
  getDevicesList E w = Normal [] w1 evs1 →
  playAudioData E ch sr bits size (Some buf) w =
    Normal false w1
           (evs1 ++ [EvLog error "No playback devices are available";
                     EvFree (blk_addr buf)]) ∧
  evs1 = [EvGetDevices MA_SUCCESS] ∧
  releases (blk_addr buf)
           (evs1 ++ [EvLog error "No playback devices are available";
                     EvFree (blk_addr buf)]) = 1%nat ∧
  m_device (audio w1) = m_device (audio w) ∧
  m_currentDeviceID (audio w1) = m_currentDeviceID (audio w) ∧
  m_hasCurrentDevice (audio w1) = m_hasCurrentDevice (audio w) ∧
  m_selectedDeviceID (audio w1) = m_selectedDeviceID (audio w) ∧
  m_resampler (audio w1) = m_resampler (audio w) ∧
  sounds (audio w1) = sounds (audio w).
Proof.
  intros Hch Hsr Hbits Hsize Hg.
  destruct (getDevicesList_cases E w) as [[l Hg'] | (r & _ & Hg')];
    rewrite Hg' in Hg; [| done].
  injection Hg as -> <- <-.
  split; [| by repeat split; try by count_releases].
  unfold playAudioData.
  replace ((ch <=? 0) || (bits <=? 0) || (sr <=? 0)) with false
    by (symmetry; rewrite !orb_false_iff; repeat split; lia).
  rewrite bool_decide_false by (rewrite determineFormat_unknown; lia).
  replace (size =? 0) with false by (symmetry; lia).
  run. rewrite Hg'. by run.
Qed.

(** A valid request while no device is present. *)
Lemma playAudioData_no_devices_witness :
  playAudioData env_no_devices 1 22050 16 4 (Some four_bytes) world_no_devices =
    Normal false world_no_devices
           ([EvGetDevices MA_SUCCESS] ++
            [EvLog error "No playback devices are available";
             EvFree (blk_addr four_bytes)]).
Proof.
  apply (playAudioData_no_devices env_no_devices 1 22050 16 4 four_bytes
           world_no_devices world_no_devices [EvGetDevices MA_SUCCESS]);
    [lia | lia | right; left; reflexivity | lia | reflexivity].
Defined.

(** C1 does not hold on the paths that end in an exception. The object was
    constructed on three devices; the caller hands over four bytes of
    16-bit mono PCM at 22050 Hz; the device cannot be opened. The
    constructor of [CDevice] throws out of [playAudioData], and the buffer
    has not been handed to [free]. *)
Theorem playAudioData_leaks_when_device_init_fails :
  playAudioData env_device_fails 1 22050 16 4 (Some four_bytes) world_three_devices =
    Thrown (drawn world_three_devices)
           [EvGetDevices MA_SUCCESS;
            EvLog debug "Initializing new audio device";
            EvDeviceInit 0%nat "speakers" MA_NO_BACKEND;
            EvLog error "Failed to initialize audio device: {}"] ∧
  releases (blk_addr four_bytes)
           (events_of (playAudioData env_device_fails 1 22050 16 4 (Some four_bytes)
                                     world_three_devices)) = 0%nat.
Proof. split; reflexivity. Qed.

(** ** Failures while the sound is constructed *)

Lemma quiet_no_construction (evs : list Event) : quiet evs → no_construction evs.
Proof.
  unfold quiet, no_construction. intros Hq.
  eapply Forall_impl; [exact Hq |]. intros e He. by destruct e.
Qed.

Lemma no_construction_app (l1 l2 : list Event) :
  no_construction l1 → no_construction l2 → no_construction (l1 ++ l2).
Proof. unfold no_construction. rewrite Forall_app. tauto. Qed.

Lemma no_construction_not_in (e : Event) (evs : list Event) :
  no_construction evs → construction_event e = true → ¬ In e evs.
Proof.
  unfold no_construction. rewrite Forall_forall. intros Hq He Hin.
  apply list_elem_of_In, Hq in Hin. congruence.
Qed.

Lemma in_events_after {A : Type} (e : Event) (pre : list Event) (r : Res A) :
  no_construction pre → construction_event e = true →
  In e (events_of (after pre r)) → In e (events_of r).
Proof.
  intros Hpre He. destruct r; simpl; [| | done];
    rewrite in_app_iff; intros [Hin | Hin]; try done;
    by apply no_construction_not_in in Hin.
Qed.

(** Every run of [playAudioData] either has no construction event at all,
    or is some events without one followed by a run of [start_sound] on a
    registry that is part of the one the call started with. *)
Lemma playAudioData_shape (E : Env) (ch sr bits size : Z) (buffer : option Block)
    (w : World) :
  no_construction (events_of (playAudioData E ch sr bits size buffer w)) ∨
  ∃ (w1 : World) (pre : list Event) (n : Z) (hp : handle) (pcm : list byte),
    playAudioData E ch sr bits size buffer w =
      after pre (start_sound E (determineFormat bits) ch n hp pcm w1) ∧
    no_construction pre ∧ In (EvPayloadNew hp) pre ∧
    sublist (sounds (audio w1)) (sounds (audio w)).
Proof.
  destruct buffer as [buf|]; [| left; by repeat constructor].
  destruct (decide (0 < ch ∧ 0 < sr ∧ determineFormat bits ≠ ma_format_unknown ∧ size ≠ 0))
    as [(Hch & Hsr & Hfmt & Hsize) | Hinvalid].
  - destruct (playAudioData_valid E ch sr bits size buf w Hch Hsr Hfmt Hsize)
      as [(w1 & pre & -> & Hq) | [-> | [(w1 & pre & Hg & ->) | (w1 & pre & Hq & Hsub & ->)]]].
    + left. by apply quiet_no_construction.
    + left. constructor.
    + left. destruct (getDevicesList_cases E w) as [[l Hg'] | (r & _ & Hg')];
        rewrite Hg' in Hg; [| done].
      injection Hg as _ _ <-. by repeat constructor.
    + apply quiet_no_construction in Hq.
      destruct (convert_and_start_cases E (determineFormat bits) ch sr bits size buf w1)
        as [-> | [(h & r & ->) | [(h & proc & _ & Hproc & ->) |
           [(h & n & pcm & _ & ->) | (h & _ & _ & ->)]]]].
      * left. constructor.
      * left. apply no_construction_app; [done | by repeat constructor].
      * left. apply no_construction_app; [done |].
        destruct Hproc as [-> | [r ->]]; by repeat constructor.
      * right. rewrite after_after. eexists _, _, _, _, _. split; [reflexivity |].
        split; [| split; [| done]].
        -- apply no_construction_app; [done | by repeat constructor].
        -- apply in_app_iff. right. simpl. tauto.
      * right. rewrite after_after. eexists _, _, _, _, _. split; [reflexivity |].
        split; [| split; [| done]].
        -- apply no_construction_app; [done | by repeat constructor].
        -- apply in_app_iff. right. simpl. tauto.
  - left. unfold playAudioData.
    destruct ((ch <=? 0) || (bits <=? 0) || (sr <=? 0)) eqn:Hmeta; run.
    { by repeat constructor. }
    case_goal; run. { by repeat constructor. }
    destruct (Z.eqb_spec size 0); run. { by repeat constructor. }
    exfalso. apply Hinvalid. rewrite !orb_false_iff in Hmeta. repeat split; (lia || done).
Qed.

(** C2, as amended: a failure of [ma_audio_buffer_init] or of
    [ma_sound_init_from_data_source] is logged at level critical and makes
    [playAudioData] return [false]; no exception is raised. Before the
    return, what was built for the payload created earlier in the call is
    torn down: after a failed buffer initialisation the buffer storage and
    then the payload are released; after a failed sound initialisation the
    audio buffer, initialised after the payload was created, is
    uninitialised and its storage released, then the sound storage, and
    the payload last. No sound is added to the registry. *)
Theorem playAudioData_construction_failure (E : Env) (ch sr bits size : Z)
    (buffer : option Block) (w : World) :
  (∀ (hb : handle) (r : ma_result),
     In (EvAudioBufferInit hb r) (events_of (playAudioData E ch sr bits size buffer w)) →
     r ≠ MA_SUCCESS →
     ∃ (w' : World) (pre : list Event) (hp : handle),
       playAudioData E ch sr bits size buffer w =
         Normal false w'
                (pre ++ [EvAudioBufferInit hb r;
                         EvLog critical "Failed to initialize audio buffer: {}";
                         EvAudioBufferReset hb; EvPayloadDelete hp]) ∧
       no_construction pre ∧ In (EvPayloadNew hp) pre ∧
       sublist (sounds (audio w')) (sounds (audio w))) ∧
  (∀ (hs hb : handle) (r : ma_result),
     In (EvSoundInit hs hb r) (events_of (playAudioData E ch sr bits size buffer w)) →
     r ≠ MA_SUCCESS →
     ∃ (w' : World) (pre : list Event) (hp : handle),
       playAudioData E ch sr bits size buffer w =
         Normal false w'
                (pre ++ [EvAudioBufferInit hb MA_SUCCESS; EvSoundInit hs hb r;
                         EvLog critical "Failed to initialize sound instance: {}";
                         EvAudioBufferUninit hb; EvAudioBufferReset hb; EvSoundReset hs;
                         EvPayloadDelete hp]) ∧
       no_construction pre ∧ In (EvPayloadNew hp) pre ∧
       sublist (sounds (audio w')) (sounds (audio w))).
Proof.
  destruct (playAudioData_shape E ch sr bits size buffer w)
    as [Hnone | (w1 & pre & n & hp & pcm & -> & Hpre & Hnew & Hsub)].
  { split; intros; exfalso;
      (eapply no_construction_not_in; [exact Hnone | | eassumption]); reflexivity. }
  split.
  - intros hb r Hin Hr. apply in_events_after in Hin; [| done | done].
    exists (drawn w1), pre, hp.
    destruct (start_sound_cases E (determineFormat bits) ch n hp pcm w1)
      as [[_ Hs] | [(r' & _ & _ & _ & Hs) | [(r' & _ & _ & _ & _ & Hs) | (_ & _ & _ & Hs)]]];
      rewrite Hs in Hin |- *; simpl in Hin; destruct_or!; simplify_eq; done.
  - intros hs hb r Hin Hr. apply in_events_after in Hin; [| done | done].
    exists (drawn (drawn w1)), pre, hp.
    destruct (start_sound_cases E (determineFormat bits) ch n hp pcm w1)
      as [[_ Hs] | [(r' & _ & _ & _ & Hs) | [(r' & _ & _ & _ & _ & Hs) | (_ & _ & _ & Hs)]]];
      rewrite Hs in Hin |- *; simpl in Hin; destruct_or!; simplify_eq; done.
Qed.

(** The buffer initialisation fails on a valid request. *)
Lemma playAudioData_construction_failure_witness :
  ∃ (w' : World) (pre : list Event) (hp : handle),
    playAudioData env_buffer_fails 1 48000 16 4 (Some four_bytes) world_three_devices =
      Normal false w'
             (pre ++ [EvAudioBufferInit 3%nat MA_OUT_OF_MEMORY;
                      EvLog critical "Failed to initialize audio buffer: {}";
                      EvAudioBufferReset 3%nat; EvPayloadDelete hp]) ∧
    no_construction pre ∧ In (EvPayloadNew hp) pre ∧
    sublist (sounds (audio w')) (sounds (audio world_three_devices)).
Proof.
  apply (proj1 (playAudioData_construction_failure env_buffer_fails 1 48000 16 4
                  (Some four_bytes) world_three_devices) 3%nat MA_OUT_OF_MEMORY).
  - vm_compute. do 8 right. left. reflexivity.
  - discriminate.
Defined.

(** C2, as stated, fails: a failure of [ma_audio_buffer_init] does not end
    [playAudioData] in an exception. With the object constructed on three
    devices, four bytes of 16-bit mono PCM at 48000 Hz and a backend whose
    buffer initialisation fails, the call returns [false]. *)
Lemma playAudioData_buffer_failure_returns_false :
  In (EvAudioBufferInit 3%nat MA_OUT_OF_MEMORY)
     (events_of (playAudioData env_buffer_fails 1 48000 16 4 (Some four_bytes)
                               world_three_devices)) ∧
  (∃ (w' : World) (evs : list Event),
     playAudioData env_buffer_fails 1 48000 16 4 (Some four_bytes) world_three_devices =
       Normal false w' evs) ∧
  ¬ ∃ (w' : World) (evs : list Event),
      playAudioData env_buffer_fails 1 48000 16 4 (Some four_bytes) world_three_devices =
        Thrown w' evs.
Proof.
  split; [vm_compute; do 8 right; left; reflexivity |]. split.
  - eexists _, _. vm_compute. reflexivity.
  - intros (w' & evs & H). vm_compute in H. discriminate H.
Qed.

(** ** Input already at the working rate *)

(** When the device can be opened, [updateDevice] returns and leaves the
    resampler and the registry alone. *)
Lemma updateDevice_opens (E : Env) (w : World) :
  (∀ deviceID : ma_device_id, ma_device_init E deviceID = MA_SUCCESS) →
  ∃ (w1 : World) (evs : list Event),
    updateDevice E w = Normal tt w1 evs ∧
    m_resampler (audio w1) = m_resampler (audio w).
Proof.
  intros Hinit. unfold updateDevice, new_CDevice. run.
  destruct (m_hasCurrentDevice (audio w) && _); run; [by eexists _, _ |].
  rewrite Hinit. rewrite bool_decide_false by (by intros []). run.
  destruct (m_device (audio w)); run; by eexists _, _.
Qed.

(** With equal input and output rates, [updateResampler] returns when a
    resampler can be constructed. *)
Lemma updateResampler_equal_rates (E : Env) (fmt : ma_format) (ch rate : Z) (w : World) :
  (∀ (f : ma_format) (c rin rout : Z), ma_resampler_init E f c rin rout = MA_SUCCESS) →
  (∀ this : CResampler, m_resampler (audio w) = Some this → resampler this ≠ None) →
  ∃ (w1 : World) (evs : list Event) (r : ma_resampler),
    updateResampler E fmt ch rate rate w = Normal tt w1 evs ∧
    m_resampler (audio w1) = Some {| resampler := Some r |}.
Proof.
  intros Hinit Hnative. unfold updateResampler, replace_resampler, new_CResampler. run.
  destruct (m_resampler (audio w)) as [[[r|]]|] eqn:Hm; run.
  - destruct (bool_decide (format r ≠ fmt) || bool_decide (channels r ≠ ch)); run.
    + rewrite Hinit. rewrite bool_decide_false by (by intros []). run.
      rewrite Hm. run. by eexists _, _, _.
    + rewrite bool_decide_true by done. run. by eexists _, _, _.
  - by destruct (Hnative _ eq_refl).
  - rewrite Hinit. rewrite bool_decide_false by (by intros []). run.
    rewrite Hm. run. by eexists _, _, _.
Qed.

(** At the working rate, with a buffer that holds [size] bytes and a
    backend whose calls succeed, the conversion step returns [true]. *)
Lemma convert_and_start_working_rate (E : Env) (fmt : ma_format) (ch bits size : Z)
    (buf : Block) (w : World) (r : ma_resampler) :
  calls_succeed E →
  m_resampler (audio w) = Some {| resampler := Some r |} →
  ch * bits ≤ INT_MAX →
  size ≤ Z.of_nat (length (blk_bytes buf)) →
  to_uint64 (size * 8) / (ch * bits) ≠ 0 →
  ∃ (w' : World) (evs : list Event),
    convert_and_start E fmt ch AUDIO_DEFAULT_SAMPLE_RATE bits size buf w =
      Normal true w' evs.
Proof.
  intros (_ & _ & Hexpected & Hbuffer & Hsound) Hm Hint Hlen Hframes.
  unfold convert_and_start.
  destruct (Z.ltb_spec INT_MAX (ch * bits)); [lia |]. run. rewrite Hm.
  specialize (Hexpected r (to_uint64 (size * 8) / (ch * bits))).
  destruct (ma_resampler_get_expected_output_frame_count E r _) as [result n].
  simpl in Hexpected. subst result. run. rewrite bool_decide_false by (by intros []). run.
  rewrite bool_decide_false by (by intros []).
  destruct (Z.ltb_spec (Z.of_nat (length (blk_bytes buf))) size); [lia |]. run.
  destruct (start_sound_cases E fmt ch (to_uint64 (size * 8) / (ch * bits))
              (next_handle w) (take (Z.to_nat size) (blk_bytes buf)) (drawn w))
    as [[Hz _] | [(res & _ & Hres & Hinit & _) | [(res & _ & Hres & _ & Hinit & _) |
       (_ & _ & _ & Hstart)]]].
  - done.
  - by rewrite Hbuffer in Hinit.
  - by rewrite Hsound in Hinit.
  - unfold drawn in Hstart. rewrite Hstart. simpl. by eexists _, _.
Qed.

(** At the working rate, with a device enumerated, a buffer that holds
    [size] bytes and a backend whose calls succeed, [playAudioData]
    returns [true]. *)
Lemma playAudioData_working_rate_returns (E : Env) (ch bits size : Z) (buf : Block)
    (w : World) (infos : list ma_device_info) :
  std_sort_contract E →
  ma_context_get_devices E = (MA_SUCCESS, infos) → infos ≠ [] →
  calls_succeed E →
  (∀ this : CResampler, m_resampler (audio w) = Some this → resampler this ≠ None) →
  0 < ch → determineFormat bits ≠ ma_format_unknown → ch * bits ≤ INT_MAX →
  size ≤ Z.of_nat (length (blk_bytes buf)) →
  to_uint64 (size * 8) / (ch * bits) ≠ 0 →
  ∃ (w' : World) (evs : list Event),
    playAudioData E ch AUDIO_DEFAULT_SAMPLE_RATE bits size (Some buf) w = Normal true w' evs.
Proof.
  intros Hsort Henum Hinfos Hcalls Hnative Hch Hfmt Hint Hlen Hframes.
  assert (Hsize : size ≠ 0) by (intros ->; by apply Hframes).
  assert (0 < bits).
  { destruct (decide (0 < bits)) as [|Hn]; [done |]. exfalso. apply Hfmt.
    apply determineFormat_unknown. lia. }
  unfold playAudioData.
  replace ((ch <=? 0) || (bits <=? 0) || (AUDIO_DEFAULT_SAMPLE_RATE <=? 0)) with false
    by (symmetry; rewrite !orb_false_iff; repeat split; (lia || done)).
  rewrite bool_decide_false by done.
  replace (size =? 0) with false by (symmetry; lia).
  run. unfold getDevicesList. rewrite Henum. run.
  rewrite bool_decide_false by (by intros []). run.
  destruct (Hsort default_first (map to_DeviceInfo infos) default_first_strict_weak_order)
    as [Hperm _].
  destruct (std_sort E default_first (map to_DeviceInfo infos)) as [|first l] eqn:Hsorted.
  { apply Permutation_nil_l in Hperm. by destruct infos. }
  cbn [m_lastDevicesList set_lastDevicesList]. run.
  match goal with
  | |- context [(if ?c then ?m1 else ?m2) ?w0] =>
      assert (∃ (w1 : World) (evs : list Event),
                (if c then m1 else m2) w0 = Normal tt w1 evs ∧
                m_resampler (audio w1) = m_resampler (audio w))
        as (w1 & evs1 & -> & Hr1)
        by (destruct c; run; by eexists _, _)
  end.
  run. destruct (freeSounds_spec E true w1) as (kept & evs2 & -> & _ & _). run.
  match goal with
  | |- context [updateDevice E ?w0] =>
      destruct (updateDevice_opens E w0 (proj1 Hcalls)) as (w3 & evs3 & -> & Hr3)
  end.
  run. change (to_uint32 AUDIO_DEFAULT_SAMPLE_RATE) with AUDIO_DEFAULT_SAMPLE_RATE.
  match goal with
  | |- context [updateResampler E ?f ?c ?ri ?ro ?w0] =>
      destruct (updateResampler_equal_rates E f c ro w0 (proj1 (proj2 Hcalls)))
        as (w4 & evs4 & r & Hrun4 & Hr4)
  end.
  { intros this. rewrite Hr3. cbn. rewrite Hr1. apply Hnative. }
  rewrite Hrun4. run.
  destruct (convert_and_start_working_rate E (determineFormat bits) ch bits size buf w4 r
              Hcalls Hr4 Hint Hlen Hframes) as (w' & evs & ->).
  simpl. by eexists _, _.
Qed.

(** C8: when the sample rate is 48000, no run of [playAudioData] calls the
    resampler's processing; when the call returns [true] for a non-zero
    byte length and a non-zero input frame count, the registry is what the
    reclamation kept followed by one new payload whose PCM bytes are the
    first [bufferSize] bytes of the input buffer, byte for byte, and whose
    audio buffer has as many frames as the input; and the call does return
    [true] with that payload stored whenever a device is enumerated, the
    native calls succeed, the buffer holds [bufferSize] bytes and the
    input frame count is not zero. *)
Theorem playAudioData_working_rate_copies (E : Env) (ch bits size : Z)
    (buffer : option Block) (w : World) :
  (∀ (h : handle) (n : Z) (r : ma_result),
     ¬ In (EvResamplerProcess h n r)
          (events_of (playAudioData E ch AUDIO_DEFAULT_SAMPLE_RATE bits size buffer w))) ∧
  (∀ (w' : World) (evs : list Event),
     playAudioData E ch AUDIO_DEFAULT_SAMPLE_RATE bits size buffer w = Normal true w' evs →
     size ≠ 0 → to_uint64 (size * 8) / (ch * bits) ≠ 0 →
     ∃ (buf : Block) (kept : list (option SoundPayload)) (p : SoundPayload)
       (b : ma_audio_buffer),
       buffer = Some buf ∧
       sounds (audio w') = kept ++ [Some p] ∧
       sublist kept (sounds (audio w)) ∧
       pcmData p = take (Z.to_nat size) (blk_bytes buf) ∧
       length (pcmData p) = Z.to_nat size ∧
       (∀ i : nat, (i < Z.to_nat size)%nat → pcmData p !! i = blk_bytes buf !! i) ∧
       audioBuffer p = Some b ∧
       ab_sizeInFrames b = to_uint64 (size * 8) / (ch * bits) ∧
       ab_channels b = ch ∧
       ab_format b = determineFormat bits ∧
       ab_sampleRate b = AUDIO_DEFAULT_SAMPLE_RATE) ∧
  (∀ (buf : Block) (infos : list ma_device_info),
     buffer = Some buf →
     std_sort_contract E →
     ma_context_get_devices E = (MA_SUCCESS, infos) → infos ≠ [] →
     calls_succeed E →
     (∀ this : CResampler, m_resampler (audio w) = Some this → resampler this ≠ None) →
     0 < ch → determineFormat bits ≠ ma_format_unknown → ch * bits ≤ INT_MAX →
     size ≤ Z.of_nat (length (blk_bytes buf)) →
     to_uint64 (size * 8) / (ch * bits) ≠ 0 →
     ∃ (w' : World) (evs : list Event) (kept : list (option SoundPayload))
       (p : SoundPayload) (b : ma_audio_buffer),
       playAudioData E ch AUDIO_DEFAULT_SAMPLE_RATE bits size buffer w =
         Normal true w' evs ∧
       sounds (audio w') = kept ++ [Some p] ∧
       sublist kept (sounds (audio w)) ∧
       pcmData p = take (Z.to_nat size) (blk_bytes buf) ∧
       length (pcmData p) = Z.to_nat size ∧
       (∀ i : nat, (i < Z.to_nat size)%nat → pcmData p !! i = blk_bytes buf !! i) ∧
       audioBuffer p = Some b ∧
       ab_sizeInFrames b = to_uint64 (size * 8) / (ch * bits) ∧
       ab_channels b = ch ∧
       ab_format b = determineFormat bits ∧
       ab_sampleRate b = AUDIO_DEFAULT_SAMPLE_RATE).
Proof.
  refine ((λ H12, conj (proj1 H12) (conj (proj2 H12) _)) _).
  { intros buf infos -> Hsort Henum Hinfos Hcalls Hnative Hch Hfmt Hint Hlen Hframes.
    destruct (playAudioData_working_rate_returns E ch bits size buf w infos Hsort Henum
                Hinfos Hcalls Hnative Hch Hfmt Hint Hlen Hframes) as (w' & evs & Hrun).
    assert (Hsize : size ≠ 0) by (intros ->; by apply Hframes).
    destruct (proj2 H12 w' evs Hrun Hsize Hframes)
      as (buf' & kept & p & b & [= <-] & Hstored).
    by exists w', evs, kept, p, b. }
  destruct buffer as [buf|].
  2: { split; [intros h n r [? | []]; done | done]. }
  destruct (decide (0 < ch ∧ determineFormat bits ≠ ma_format_unknown ∧ size ≠ 0))
    as [(Hch & Hfmt & Hsize) | Hinvalid].
  - destruct (playAudioData_valid E ch AUDIO_DEFAULT_SAMPLE_RATE bits size buf w Hch
                ltac:(done) Hfmt Hsize)
      as [(w1 & pre & -> & Hq) | [-> | [(w1 & pre & Hg & ->) | (w1 & pre & Hq & Hsub & ->)]]].
    + split; [| done]. intros h n r. by apply quiet_not_in.
    + split; [| done]. intros h n r [].
    + split; [| done]. intros h n r.
      destruct (getDevicesList_cases E w) as [[l Hg'] | (r' & _ & Hg')];
        rewrite Hg' in Hg; [| done].
      injection Hg as _ _ <-. simpl. intros ?; destruct_or!; simplify_eq.
    + destruct (convert_and_start_cases E (determineFormat bits) ch
                  AUDIO_DEFAULT_SAMPLE_RATE bits size buf w1)
        as [-> | [(h & r & ->) | [(h & proc & Hne & _) |
           [(h & n & pcm & Hne & _) | (h & _ & Hlen & ->)]]]]; [| | done | done |].
      * split; [| done]. intros h n r [].
      * split; [| done]. intros h' n' r' Hin. simpl in Hin.
        apply in_app_iff in Hin as [Hin | Hin]; [by apply quiet_not_in in Hin |].
        simpl in Hin. destruct_or!; simplify_eq.
      * rewrite after_after.
        destruct (start_sound_cases E (determineFormat bits) ch
                    (to_uint64 (size * 8) / (ch * bits)) (next_handle w1)
                    (take (Z.to_nat size) (blk_bytes buf)) (drawn w1))
          as [[Hz Hs] | [(r' & _ & _ & _ & Hs) | [(r' & _ & _ & _ & _ & Hs) |
             (_ & _ & _ & Hs)]]]; rewrite Hs; simpl after; (split;
          [intros h' n' r'' Hin; simpl in Hin;
           rewrite !in_app_iff in Hin; destruct Hin as [[Hin | Hin] | Hin];
           [by apply quiet_not_in in Hin
           | simpl in Hin; destruct_or!; simplify_eq
           | simpl in Hin; destruct_or!; simplify_eq] |]).
        -- done.
        -- done.
        -- done.
        -- intros w' evs [= <- _] _ Hframes. eexists buf, _, _, _.
           split; [done |]. split; [reflexivity |]. split; [done |].
           split; [reflexivity |]. split; [| split; [| done]].
           ++ simpl. rewrite length_take. lia.
           ++ intros i Hi. simpl. by apply lookup_take_lt.
  - split.
    + unfold playAudioData.
      destruct ((ch <=? 0) || (bits <=? 0) || (AUDIO_DEFAULT_SAMPLE_RATE <=? 0)) eqn:Hmeta;
        run.
      { intros h n r Hin. simpl in Hin. destruct_or!; simplify_eq. }
      case_goal; run.
      { intros h n r Hin. simpl in Hin. destruct_or!; simplify_eq. }
      destruct (Z.eqb_spec size 0); run.
      { intros h n r Hin. simpl in Hin. destruct_or!; simplify_eq. }
      exfalso. apply Hinvalid. rewrite !orb_false_iff in Hmeta. repeat split; (lia || done).
    + intros w' evs Hrun Hsize Hframes. exfalso. revert Hrun. unfold playAudioData.
      destruct ((ch <=? 0) || (bits <=? 0) || (AUDIO_DEFAULT_SAMPLE_RATE <=? 0)) eqn:Hmeta;
        run; [done |].
      case_goal; run; [done |].
      destruct (Z.eqb_spec size 0); run; [done |].
      exfalso. apply Hinvalid. rewrite !orb_false_iff in Hmeta. repeat split; (lia || done).
Qed.

(** ** Concrete runs *)

Example playAudioData_sound_failure_run :
  events_of (playAudioData env_sound_fails 1 48000 16 4 (Some four_bytes)
                           world_three_devices) =
  [EvGetDevices MA_SUCCESS; EvLog debug "Initializing new audio device";
   EvDeviceInit 0%nat "speakers" MA_SUCCESS; EvDeviceStart 0%nat;
   EvResamplerInit 1%nat ma_format_s16 1 48000 48000 MA_SUCCESS;
   EvResamplerExpected 1%nat 2 MA_SUCCESS; EvPayloadNew 2%nat;
   EvFree 77; EvAudioBufferInit 3%nat MA_SUCCESS;
   EvSoundInit 4%nat 3%nat MA_OUT_OF_MEMORY;
   EvLog critical "Failed to initialize sound instance: {}";
   EvAudioBufferUninit 3%nat; EvAudioBufferReset 3%nat;
   EvSoundReset 4%nat; EvPayloadDelete 2%nat].
Proof. reflexivity. Qed.

Example updateDevice_opens_speakers :
  updateDevice env_ok world_three_devices =
  Normal tt world_device_open
         [EvLog debug "Initializing new audio device";
          EvDeviceInit 0%nat "speakers" MA_SUCCESS; EvDeviceStart 0%nat].
Proof. reflexivity. Qed.

(** Four bytes of 16-bit mono PCM at 48000 Hz are stored as they are, as
    two frames. *)
Lemma playAudioData_working_rate_copies_witness :
  ∃ (w' : World) (evs : list Event) (p : SoundPayload) (b : ma_audio_buffer),
    playAudioData env_ok 1 AUDIO_DEFAULT_SAMPLE_RATE 16 4 (Some four_bytes)
                  world_three_devices = Normal true w' evs ∧
    sounds (audio w') = [Some p] ∧
    pcmData p = blk_bytes four_bytes ∧
    audioBuffer p = Some b ∧
    ab_sizeInFrames b = 2.
Proof.
  destruct (proj2 (proj2 (playAudioData_working_rate_copies env_ok 1 16 4 (Some four_bytes)
                            world_three_devices))
                  four_bytes [hdmi; speakers; headset] eq_refl
                  (backend_insertion_sort_contract _ _ _ _ _ _) eq_refl
                  ltac:(discriminate)
                  ltac:(repeat split; intros; reflexivity)
                  ltac:(intros this; discriminate)
                  ltac:(lia) ltac:(discriminate) ltac:(by compute) ltac:(simpl; lia)
                  ltac:(discriminate))
    as (w' & evs & kept & p & b & Hrun & Hsounds & Hsub & Hpcm & _ & _ & Hab & Hframes & _).
  exists w', evs, p, b.
  apply sublist_nil_r in Hsub. subst kept.
  split; [exact Hrun |]. split; [exact Hsounds |].
  split; [exact Hpcm |]. split; [exact Hab | exact Hframes].
Defined.

(** A bit depth of 12 is rejected. *)
Lemma determineFormat_tags_and_rejection_witness :
  determineFormat 12 = ma_format_unknown ∧
  ∃ evs : list Event,
    playAudioData env_ok 1 22050 12 4 (Some four_bytes) world_three_devices =
      Normal false world_three_devices evs ∧
    ∀ buf : Block, Some four_bytes = Some buf → releases (blk_addr buf) evs = 1%nat.
Proof.
  destruct determineFormat_tags_and_rejection as (_ & _ & _ & _ & Hother & Hreject).
  split.
  - apply Hother; lia.
  - apply Hreject. reflexivity.
Defined.

(** Opening the speakers once, then asking again. *)
Lemma updateDevice_idempotent_witness :
  updateDevice env_ok world_device_open = Normal tt world_device_open [] ∧
  updateDevice env_ok world_three_devices =
    Normal tt world_device_open
           [EvLog debug "Initializing new audio device";
            EvDeviceInit 0%nat "speakers" MA_SUCCESS; EvDeviceStart 0%nat] ∧
  updateDevice env_device_fails world_device_open = Normal tt world_device_open [].
Proof.
  split; [| split].
  - apply (proj1 (updateDevice_idempotent env_ok world_device_open)); reflexivity.
  - apply (proj1 (proj2 (updateDevice_idempotent env_ok world_three_devices))).
    + intros [Hopen _]. discriminate Hopen.
    + reflexivity.
  - apply (proj2 (proj2 (updateDevice_idempotent env_ok world_three_devices))
             world_device_open
             [EvLog debug "Initializing new audio device";
              EvDeviceInit 0%nat "speakers" MA_SUCCESS; EvDeviceStart 0%nat]).
    reflexivity.
Defined.

(** Index 999 on three devices selects the first. *)
Lemma selectDevice_out_of_range_witness :
  selectDevice 999 world_three_devices =
  Normal tt
         {| audio := set_selectedDeviceID "speakers" (audio world_three_devices);
            next_handle := 0%nat |}
         [EvLog warn "Device index {} is out of range. Falling back to 0."].
Proof.
  apply (selectDevice_out_of_range world_three_devices 999). simpl. lia.
Defined.

(** C9, as stated, fails on an empty enumeration: there is no entry at
    index 0 to record, and [selectDevice] returns after its first warning
    with the selection as it was. *)
Lemma selectDevice_empty_enumeration :
  (length (m_lastDevicesList (audio world_no_devices)) ≤ 7)%nat ∧
  selectDevice 7 world_no_devices =
    Normal tt world_no_devices
           [EvLog warn "Cannot select audio device: device list is empty"] ∧
  ¬ ∃ (d : DeviceInfo) (w' : World) (evs : list Event),
      m_lastDevicesList (audio world_no_devices) !! 0%nat = Some d ∧
      selectDevice 7 world_no_devices = Normal tt w' evs ∧
      m_selectedDeviceID (audio w') = id d.
Proof.
  split; [simpl; lia |]. split; [reflexivity |].
  intros (d & w' & evs & Hd & _). discriminate Hd.
Qed.

(** A resampler built for 22050 Hz is retuned to 16000 Hz. *)
Lemma updateResampler_reuse_witness :
  updateResampler env_ok ma_format_s16 1 22050 48000 world_device_open =
    Normal tt
      {| audio :=
           set_resampler
             (Some {| resampler :=
                        Some {| rs_handle := 1%nat; format := ma_format_s16;
                                channels := 1; sampleRateIn := 22050;
                                sampleRateOut := 48000 |} |})
             (audio world_device_open);
         next_handle := 2%nat |}
      [EvResamplerInit 1%nat ma_format_s16 1 22050 48000 MA_SUCCESS] ∧
  ∃ r : ma_resampler,
    rs_handle r = 1%nat ∧
    updateResampler env_ok ma_format_s16 1 16000 48000
      {| audio := set_resampler (Some {| resampler := Some r |}) (audio world_device_open);
         next_handle := 2%nat |} =
    Normal tt
      {| audio :=
           set_resampler
             (Some {| resampler :=
                        Some {| rs_handle := 1%nat; format := ma_format_s16;
                                channels := 1; sampleRateIn := 16000;
                                sampleRateOut := 48000 |} |})
             (audio world_device_open);
         next_handle := 2%nat |}
      [EvResamplerSetRate 1%nat 16000 48000 MA_SUCCESS].
Proof.
  destruct updateResampler_reuse as (Hnew & Hnoop & Htwice).
  split.
  - apply (Hnew env_ok world_device_open ma_format_s16 1 22050 48000);
      [by left | reflexivity].
  - destruct (Htwice env_ok env_ok world_device_open _ _ ma_format_s16 1 22050 16000 48000
                     (Hnew env_ok world_device_open ma_format_s16 1 22050 48000
                           (or_introl eq_refl) eq_refl))
      as (r & Hr & _ & _ & _ & Hset).
    injection Hr as <-.
    exists {| rs_handle := 1%nat; format := ma_format_s16; channels := 1;
              sampleRateIn := 22050; sampleRateOut := 48000 |}.
    split; [reflexivity |].
    apply Hset; [discriminate | reflexivity].
Defined.

(** * Further properties of the code *)

(** ** [Audio::freeSounds] *)

Lemma remove_freed_kept (E : Env) (onlyUnused : bool) (l : list (option SoundPayload)) :
  (remove_freed E onlyUnused l).1.1 = filter (λ p, is_freed E onlyUnused p = false) l.
Proof.
  induction l as [|p l IH]; simpl; [done |].
  destruct (remove_freed E onlyUnused l) as [[kept evs] counter]. simpl in IH.
  rewrite filter_cons. destruct (is_freed E onlyUnused p); simpl; by rewrite ?IH.
Qed.

(** The deletions [remove_freed] performs are those of the entries it
    drops, and [counter] counts them. *)
Lemma remove_freed_deleted (E : Env) (onlyUnused : bool) (l : list (option SoundPayload)) :
  (∀ h : handle,
     In (EvPayloadDelete h) (remove_freed E onlyUnused l).1.2 ↔
     ∃ p : SoundPayload,
       Some p ∈ l ∧ is_freed E onlyUnused (Some p) = true ∧ pl_handle p = h) ∧
  (remove_freed E onlyUnused l).2 =
    Z.of_nat (length (filter (λ p, is_freed E onlyUnused p = true) l)).
Proof.
  induction l as [|p l [IHd IHc]]; simpl.
  { split; [| done]. intros h. split; [done |]. intros (p & Hp & _). by apply elem_of_nil in Hp. }
  destruct (remove_freed E onlyUnused l) as [[kept evs] counter]. simpl in IHd, IHc.
  rewrite filter_cons. destruct (is_freed E onlyUnused p) eqn:Hp; simpl.
  - split; [| simpl; lia].
    intros h. rewrite in_app_iff, IHd. split.
    + intros [Hin | (q & Hq & Hfq & Hh)].
      * destruct p as [p|]; [| done]. exists p.
        assert (pl_handle p = h) as <-.
        { unfold delete_SoundPayload, destroy_SoundPayload in Hin. simpl in Hin.
          rewrite !in_app_iff in Hin.
          destruct (sound p), (audioBuffer p); simpl in Hin; destruct_or!; simplify_eq;
            done. }
        split; [apply elem_of_cons; by left | done].
      * exists q. split; [apply elem_of_cons; by right | done].
    + intros (q & Hq & Hfq & Hh). apply elem_of_cons in Hq as [Hq | Hq].
      * left. subst p. simpl. unfold delete_SoundPayload. rewrite in_app_iff.
        right. left. by rewrite Hh.
      * right. by exists q.
  - split; [| done].
    intros h. rewrite IHd. split.
    + intros (q & Hq & Hfq & Hh). exists q. split; [apply elem_of_cons; by right | done].
    + intros (q & Hq & Hfq & Hh). apply elem_of_cons in Hq as [Hq | Hq];
        [subst p; simpl in Hp; congruence |].
      by exists q.
Qed.

Lemma remove_freed_nothing (E : Env) (onlyUnused : bool) (l : list (option SoundPayload)) :
  filter (λ p, is_freed E onlyUnused p = true) l = [] →
  (remove_freed E onlyUnused l).1.2 = [].
Proof.
  induction l as [|p l IH]; [done |].
  rewrite filter_cons. simpl.
  destruct (remove_freed E onlyUnused l) as [[kept evs] counter]. simpl in IH.
  destruct (is_freed E onlyUnused p); simpl; [done | exact IH].
Qed.

Lemma in_delete_app_log (h : handle) (evs : list Event) (lvl : Level) (msg : string) :
  In (EvPayloadDelete h) (evs ++ [EvLog lvl msg]) ↔ In (EvPayloadDelete h) evs.
Proof.
  rewrite in_app_iff. simpl. split; [| by left].
  intros [Hin | [Hlog | []]]; [done | discriminate Hlog].
Qed.

(** What [freeSounds] does, in terms of the predicate it hands to
    [std::remove_if]. *)
Lemma freeSounds_run (E : Env) (onlyUnused : bool) (w : World) :
  ∃ evs : list Event,
    freeSounds E onlyUnused w =
      Normal tt
             {| audio :=
                  set_sounds (filter (λ p, is_freed E onlyUnused p = false)
                                     (sounds (audio w)))
                             (audio w);
                next_handle := next_handle w |}
             evs ∧
    (∀ h : handle,
       In (EvPayloadDelete h) evs ↔
       ∃ p : SoundPayload,
         Some p ∈ sounds (audio w) ∧ is_freed E onlyUnused (Some p) = true ∧
         pl_handle p = h) ∧
    (filter (λ p, is_freed E onlyUnused p = true) (sounds (audio w)) = [] → evs = []).
Proof.
  unfold freeSounds. run.
  pose proof (remove_freed_kept E onlyUnused (sounds (audio w))) as Hk.
  pose proof (remove_freed_deleted E onlyUnused (sounds (audio w))) as [Hd Hc].
  pose proof (remove_freed_nothing E onlyUnused (sounds (audio w))) as Hn.
  destruct (remove_freed E onlyUnused (sounds (audio w))) as [[kept evs] counter].
  cbn [fst snd] in Hk, Hd, Hc, Hn. subst kept. run.
  destruct (0 <? counter) eqn:Hpos; run; eexists; (split; [reflexivity |]); split.
  - intros h. rewrite ?app_nil_r, in_delete_app_log. apply Hd.
  - intros Hnone. rewrite Hnone in Hc. simpl in Hc. lia.
  - intros h. rewrite ?app_nil_r. apply Hd.
  - intros Hnone. rewrite ?app_nil_r. by apply Hn.
Qed.

Lemma is_freed_unused (E : Env) (p : SoundPayload) :
  is_freed E true (Some p) = true ↔ finished E p.
Proof.
  unfold finished. simpl. destruct (sound p) as [s|]; split.
  - intros Hs. by exists s.
  - by intros (s' & [= <-] & Hs).
  - done.
  - by intros (s' & ? & _).
Qed.

(** X1: [freeSounds] with [onlyUnused = true] always returns; it removes
    from the registry exactly the payloads whose sound is at its end and
    deletes each of them, keeps every other entry (a payload without a
    sound and a null entry included) in its order, and leaves the rest of
    the object alone. *)
Theorem freeSounds_only_finished (E : Env) (w : World) :
  ∃ (kept : list (option SoundPayload)) (evs : list Event),
    freeSounds E true w =
      Normal tt {| audio := set_sounds kept (audio w); next_handle := next_handle w |} evs ∧
    sublist kept (sounds (audio w)) ∧
    (∀ p : SoundPayload,
       Some p ∈ sounds (audio w) → (Some p ∈ kept ↔ ¬ finished E p)) ∧
    (None ∈ sounds (audio w) → None ∈ kept) ∧
    (∀ h : handle,
       In (EvPayloadDelete h) evs ↔
       ∃ p : SoundPayload, Some p ∈ sounds (audio w) ∧ finished E p ∧ pl_handle p = h).
Proof.
  destruct (freeSounds_run E true w) as (evs & Hrun & Hdel & _).
  eexists _, evs. split; [exact Hrun |]. split; [apply sublist_filter |].
  split; [| split].
  - intros p Hp. rewrite list_elem_of_filter, <- is_freed_unused.
    destruct (is_freed E true (Some p)); split.
    + by intros [? _].
    + intros Hn. by destruct Hn.
    + by intros _.
    + by intros _.
  - intros Hnone. by apply list_elem_of_filter.
  - intros h. rewrite Hdel. by setoid_rewrite is_freed_unused.
Qed.

(** X2: [freeSounds] with [onlyUnused = false], the call of
    [freeAllSounds], always returns; it deletes every payload of the
    registry and leaves only the null entries, so a registry without null
    entries becomes empty. *)
Theorem freeSounds_all (E : Env) (w : World) :
  ∃ (kept : list (option SoundPayload)) (evs : list Event),
    freeSounds E false w =
      Normal tt {| audio := set_sounds kept (audio w); next_handle := next_handle w |} evs ∧
    kept = filter (λ p, p = None) (sounds (audio w)) ∧
    (∀ p : SoundPayload, Some p ∉ kept) ∧
    (∀ p : SoundPayload,
       Some p ∈ sounds (audio w) → In (EvPayloadDelete (pl_handle p)) evs) ∧
    (None ∉ sounds (audio w) → kept = []).
Proof.
  destruct (freeSounds_run E false w) as (evs & Hrun & Hdel & _).
  assert (Hkept : filter (λ p, is_freed E false p = false) (sounds (audio w)) =
                  filter (λ p, p = None) (sounds (audio w))).
  { apply list_filter_iff. intros [p|]; simpl; split; done. }
  rewrite Hkept in Hrun. eexists _, evs. split; [exact Hrun |]. split; [done |].
  split; [| split].
  - intros p Hp. by apply list_elem_of_filter in Hp as [? _].
  - intros p Hp. apply Hdel. by exists p.
  - intros Hnone. apply elem_of_nil_inv. intros p Hp.
    apply list_elem_of_filter in Hp as [-> Hp]. done.
Qed.

Lemma filter_twice {A : Type} (P : A → Prop) `{!∀ x, Decision (P x)} (l : list A) :
  filter P (filter P l) = filter P l.
Proof.
  induction l as [|x l IH]; [done |].
  rewrite filter_cons. destruct (decide (P x)); [| done].
  by rewrite filter_cons, decide_True, IH.
Qed.

Lemma filter_complement {A : Type} (f : A → bool) (l : list A) :
  filter (λ x, f x = true) (filter (λ x, f x = false) l) = [].
Proof.
  induction l as [|x l IH]; [done |].
  rewrite filter_cons. destruct (decide (f x = false)) as [Hx | Hx]; [| done].
  rewrite filter_cons, decide_False; [done | congruence].
Qed.

(** X3: a second [freeSounds] right after a first, with the sounds in the
    same state, finds nothing to reclaim: it changes nothing, deletes
    nothing and logs nothing. *)
Theorem freeSounds_idempotent (E : Env) (onlyUnused : bool) (w w1 : World)
    (evs : list Event) :
  freeSounds E onlyUnused w = Normal tt w1 evs →
  freeSounds E onlyUnused w1 = Normal tt w1 [].
Proof.
  intros Hfirst.
  destruct (freeSounds_run E onlyUnused w) as (evs' & Hrun & _).
  rewrite Hrun in Hfirst. injection Hfirst as <- _.
  destruct (freeSounds_run E onlyUnused
              {| audio :=
                   set_sounds (filter (λ p, is_freed E onlyUnused p = false)
                                      (sounds (audio w))) (audio w);
                 next_handle := next_handle w |}) as (evs2 & Hrun2 & _ & Hnone).
  cbn [audio sounds set_sounds next_handle] in Hrun2, Hnone.
  rewrite filter_twice in Hrun2. rewrite Hnone in Hrun2 by apply filter_complement.
  exact Hrun2.
Qed.

(** Of two sounds in flight the first is finished: it is reclaimed, and a
    second pass finds nothing. *)
Lemma freeSounds_idempotent_witness :
  freeSounds env_first_finished true world_two_sounds =
    Normal tt
           {| audio := set_sounds [Some (two_frames 5%nat)] (audio world_device_open);
              next_handle := 8%nat |}
           [EvSoundUninit 4%nat; EvSoundReset 4%nat; EvAudioBufferUninit 3%nat;
            EvAudioBufferReset 3%nat; EvPayloadDelete 2%nat;
            EvLog debug "Sounds freed: {}"] ∧
  freeSounds env_first_finished true
             {| audio := set_sounds [Some (two_frames 5%nat)] (audio world_device_open);
                next_handle := 8%nat |} =
    Normal tt
           {| audio := set_sounds [Some (two_frames 5%nat)] (audio world_device_open);
              next_handle := 8%nat |}
           [].
Proof.
  split; [reflexivity |].
  apply (freeSounds_idempotent env_first_finished true world_two_sounds _
           [EvSoundUninit 4%nat; EvSoundReset 4%nat; EvAudioBufferUninit 3%nat;
            EvAudioBufferReset 3%nat; EvPayloadDelete 2%nat;
            EvLog debug "Sounds freed: {}"]).
  reflexivity.
Defined.

(** ** Failures while a device or a resampler is replaced *)

(** X4: when [updateDevice] has to open a device and [ma_device_init]
    fails, the constructor of [CDevice] throws and the object is as it
    was: the previous device stays in place, is not uninitialised, and
    stays the current one; the new device is not started. *)
Theorem updateDevice_failure_keeps_device (E : Env) (w : World) :
  ¬ (m_hasCurrentDevice (audio w) = true ∧
     m_currentDeviceID (audio w) = m_selectedDeviceID (audio w)) →
  ma_device_init E (m_selectedDeviceID (audio w)) ≠ MA_SUCCESS →
  updateDevice E w =
    Thrown {| audio := audio w; next_handle := S (next_handle w) |}
           [EvLog debug "Initializing new audio device";
            EvDeviceInit (next_handle w) (m_selectedDeviceID (audio w))
                         (ma_device_init E (m_selectedDeviceID (audio w)));
            EvLog error "Failed to initialize audio device: {}"].
Proof.
  intros Hne Hinit. unfold updateDevice, new_CDevice. run.
  destruct (m_hasCurrentDevice (audio w) &&
            ma_device_id_equal (m_currentDeviceID (audio w))
                               (m_selectedDeviceID (audio w))) eqn:Hc.
  { exfalso. apply Hne. apply andb_true_iff in Hc as [-> Hc].
    by apply bool_decide_eq_true in Hc. }
  run. rewrite bool_decide_true by done. by run.
Qed.

(** The headset is selected while the speakers are open, and cannot be
    opened. *)
Lemma updateDevice_failure_keeps_device_witness :
  updateDevice env_device_fails
    {| audio := set_selectedDeviceID "headset" (audio world_device_open);
       next_handle := 1%nat |} =
  Thrown {| audio := set_selectedDeviceID "headset" (audio world_device_open);
            next_handle := 2%nat |}
         [EvLog debug "Initializing new audio device";
          EvDeviceInit 1%nat "headset" MA_NO_BACKEND;
          EvLog error "Failed to initialize audio device: {}"].
Proof.
  apply (updateDevice_failure_keeps_device env_device_fails
           {| audio := set_selectedDeviceID "headset" (audio world_device_open);
              next_handle := 1%nat |}).
  - intros [_ Heq]. discriminate Heq.
  - discriminate.
Defined.

(** X5: when [updateResampler] has to construct a resampler and
    [ma_resampler_init] fails, or has to set the rate of the one it has and
    [ma_resampler_set_rate] fails, it throws and the object is as it was:
    a previous resampler stays in place with its rate pair and is not
    uninitialised. *)
Theorem updateResampler_failure_keeps_resampler :
  (∀ (E : Env) (w : World) (fmt : ma_format) (ch rin rout : Z),
     (m_resampler (audio w) = None ∨
      ∃ r : ma_resampler,
        m_resampler (audio w) = Some {| resampler := Some r |} ∧
        (format r ≠ fmt ∨ channels r ≠ ch)) →
     ma_resampler_init E fmt ch rin rout ≠ MA_SUCCESS →
     updateResampler E fmt ch rin rout w =
       Thrown {| audio := audio w; next_handle := S (next_handle w) |}
              [EvResamplerInit (next_handle w) fmt ch rin rout
                               (ma_resampler_init E fmt ch rin rout);
               EvLog error "Failed to initialize resampler: {}"]) ∧
  (∀ (E : Env) (w : World) (r : ma_resampler) (rin rout : Z),
     m_resampler (audio w) = Some {| resampler := Some r |} →
     rin ≠ rout →
     ma_resampler_set_rate E r rin rout ≠ MA_SUCCESS →
     updateResampler E (format r) (channels r) rin rout w =
       Thrown w
              [EvResamplerSetRate (rs_handle r) rin rout
                                  (ma_resampler_set_rate E r rin rout);
               EvLog error "Failed to set sample rate: {}"]).
Proof.
  split.
  - intros E w fmt ch rin rout Hnew Hinit.
    unfold updateResampler, replace_resampler, new_CResampler. run.
    destruct Hnew as [Hm | (r & Hm & Hdiff)]; rewrite Hm; run.
    + rewrite bool_decide_true by done. by run.
    + assert (bool_decide (format r ≠ fmt) || bool_decide (channels r ≠ ch) = true)
        as ->.
      { apply orb_true_iff. destruct Hdiff; [left | right]; by apply bool_decide_eq_true. }
      run. rewrite bool_decide_true by done. by run.
  - intros E w r rin rout Hm Hne Hset. unfold updateResampler, setRate. run. rewrite Hm.
    rewrite !bool_decide_false by naive_solver. cbn [orb]. run. rewrite Hm. run.
    rewrite (bool_decide_false (_ = MA_SUCCESS)) by done. run.
    rewrite bool_decide_true by done. run. by destruct w.
Qed.

(** A stereo resampler cannot be built in place of the mono one, and the
    mono one cannot be retuned. *)
Lemma updateResampler_failure_keeps_resampler_witness :
  updateResampler env_resampler_fails ma_format_s16 2 22050 48000 world_resampler =
    Thrown {| audio := audio world_resampler; next_handle := 3%nat |}
           [EvResamplerInit 2%nat ma_format_s16 2 22050 48000 MA_INVALID_ARGS;
            EvLog error "Failed to initialize resampler: {}"] ∧
  updateResampler env_set_rate_fails ma_format_s16 1 16000 48000 world_resampler =
    Thrown world_resampler
           [EvResamplerSetRate 1%nat 16000 48000 MA_INVALID_ARGS;
            EvLog error "Failed to set sample rate: {}"].
Proof.
  destruct updateResampler_failure_keeps_resampler as [Hinit Hset]. split.
  - apply (Hinit env_resampler_fails world_resampler ma_format_s16 2 22050 48000).
    + right. exists resampler_22050. split; [reflexivity |]. right. discriminate.
    + discriminate.
  - apply (Hset env_set_rate_fails world_resampler resampler_22050 16000 48000).
    + reflexivity.
    + discriminate.
    + discriminate.
Defined.

(** ** Enumeration, selection and construction *)

(** X6: after [getDevicesList] returned a list, [selectDevice] with an
    index inside that list records the identifier of the descriptor at
    that index, logs nothing and opens nothing. *)
Theorem selectDevice_after_getDevicesList (E : Env) (w w1 : World)
    (l : list DeviceInfo) (evs : list Event) (deviceIndex : nat) (d : DeviceInfo) :
  getDevicesList E w = Normal l w1 evs →
  l !! deviceIndex = Some d →
  selectDevice deviceIndex w1 =
    Normal tt
           {| audio := set_selectedDeviceID (id d) (audio w1);
              next_handle := next_handle w1 |}
           [].
Proof.
  intros Hg Hd.
  destruct (getDevicesList_cases E w) as [[l' Hg'] | (r & _ & Hg')];
    rewrite Hg' in Hg; [| done].
  injection Hg as -> <- _.
  unfold selectDevice. run. cbn [m_lastDevicesList set_lastDevicesList].
  rewrite bool_decide_false by (intros ->; done). run.
  rewrite bool_decide_false by (apply lookup_lt_Some in Hd; lia). run.
  rewrite Hd. by run.
Qed.

(** Index 2 of the sorted enumeration is the headset. *)
Lemma selectDevice_after_getDevicesList_witness :
  selectDevice 2
    {| audio := set_lastDevicesList (map to_DeviceInfo [speakers; hdmi; headset])
                                    (audio world_device_open);
       next_handle := 1%nat |} =
  Normal tt
         {| audio :=
              set_selectedDeviceID "headset"
                (set_lastDevicesList (map to_DeviceInfo [speakers; hdmi; headset])
                                     (audio world_device_open));
            next_handle := 1%nat |}
         [].
Proof.
  apply (selectDevice_after_getDevicesList env_ok world_device_open
           {| audio := set_lastDevicesList (map to_DeviceInfo [speakers; hdmi; headset])
                                           (audio world_device_open);
              next_handle := 1%nat |}
           (map to_DeviceInfo [speakers; hdmi; headset]) [EvGetDevices MA_SUCCESS]
           2 (to_DeviceInfo headset)); reflexivity.
Defined.

(** X7: the constructor of [Audio] stores the sorted enumeration and
    selects its first descriptor, whatever that descriptor is. When
    [std::sort] keeps its contract, the stored list is a permutation of the
    enumerated devices, so a device is selected whenever one is
    enumerated, and when the backend marks at least one device as default
    the device selected is a default one; when no device is enumerated the
    selection is the zero identifier. No device is opened. *)
Theorem new_Audio_selects_default (E : Env) (infos : list ma_device_info) :
  std_sort_contract E →
  ma_context_get_devices E = (MA_SUCCESS, infos) →
  ∃ (w' : World) (evs : list Event),
    new_Audio E blank_World = Normal tt w' evs ∧
    m_device (audio w') = None ∧
    m_hasCurrentDevice (audio w') = false ∧
    m_lastDevicesList (audio w') = std_sort E default_first (map to_DeviceInfo infos) ∧
    m_lastDevicesList (audio w') ≡ₚ map to_DeviceInfo infos ∧
    (∀ d : DeviceInfo,
       m_lastDevicesList (audio w') !! 0%nat = Some d →
       m_selectedDeviceID (audio w') = id d) ∧
    (infos ≠ [] →
     ∃ d : DeviceInfo,
       m_lastDevicesList (audio w') !! 0%nat = Some d ∧
       d ∈ map to_DeviceInfo infos ∧
       m_selectedDeviceID (audio w') = id d) ∧
    (infos = [] → m_selectedDeviceID (audio w') = zero_device_id) ∧
    (∀ i : ma_device_info,
       i ∈ infos → info_isDefault i = MA_TRUE →
       ∃ d : DeviceInfo,
         d ∈ map to_DeviceInfo infos ∧ isDefault d = true ∧
         m_selectedDeviceID (audio w') = id d ∧
         m_lastDevicesList (audio w') !! 0%nat = Some d).
Proof.
  intros Hsort Henum.
  destruct (Hsort default_first (map to_DeviceInfo infos)
                  default_first_strict_weak_order) as [Hperm Hsorted].
  apply sorted_default_first_split in Hsorted as (ds & ns & Hl & Hds & Hns).
  unfold new_Audio, getDevicesList. rewrite Henum. run.
  rewrite bool_decide_false by naive_solver. run.
  cbn [m_lastDevicesList set_lastDevicesList].
  destruct (std_sort E default_first (map to_DeviceInfo infos)) as [|first l] eqn:Hs; run.
  - eexists _, _. split; [reflexivity |]. split; [done |]. split; [done |].
    split; [done |]. split; [done |]. split; [done |].
    apply Permutation_nil_l in Hperm.
    apply (f_equal length) in Hperm. rewrite length_map in Hperm.
    split; [by destruct infos |]. split; [done |].
    intros i Hi _. destruct infos; [by apply elem_of_nil in Hi | done].
  - eexists _, _. split; [reflexivity |]. split; [done |]. split; [done |].
    split; [done |]. split; [done |].
    cbn [audio m_selectedDeviceID set_selectedDeviceID m_lastDevicesList
         set_lastDevicesList].
    assert (Hfirst : first ∈ map to_DeviceInfo infos).
    { rewrite <- Hperm. apply elem_of_cons. by left. }
    split; [by intros d [= <-] |].
    split; [intros _; by exists first |].
    split.
    + intros ->. apply Permutation_nil_r in Hperm. done.
    + intros i Hi Hdef. exists first.
      split; [done |]. split; [| done].
      destruct ds as [|d0 ds].
      * simpl in Hl. subst ns.
        assert (to_DeviceInfo i ∈ first :: l) as Hin.
        { rewrite Hperm. apply list_elem_of_fmap. by exists i. }
        rewrite Forall_forall in Hns. apply Hns in Hin.
        unfold to_DeviceInfo in Hin. simpl in Hin. rewrite Hdef in Hin. done.
      * injection Hl as -> _. by apply Forall_cons in Hds as [? _].
Qed.

(** Constructed over [hdmi; speakers; headset], the object selects the
    speakers; constructed over [hdmi; headset], of which none is the
    default, it selects the first of the sorted list. *)
Lemma new_Audio_selects_default_witness :
  (∃ d : DeviceInfo,
     d ∈ map to_DeviceInfo [hdmi; speakers; headset] ∧ isDefault d = true ∧
     m_selectedDeviceID (audio world_three_devices) = id d) ∧
  (∃ (w' : World) (evs : list Event),
     new_Audio env_no_default blank_World = Normal tt w' evs ∧
     m_lastDevicesList (audio w') = map to_DeviceInfo [hdmi; headset] ∧
     m_selectedDeviceID (audio w') = "hdmi").
Proof.
  split.
  - destruct (new_Audio_selects_default env_ok [hdmi; speakers; headset]
                (backend_insertion_sort_contract _ _ _ _ _ _) eq_refl)
      as (w' & evs & Hrun & _ & _ & _ & _ & _ & _ & _ & Hdef).
    injection Hrun as <- _.
    destruct (Hdef speakers) as (d & Hd & Hdd & Hsel & _).
    + apply elem_of_cons. right. apply elem_of_cons. by left.
    + reflexivity.
    + by exists d.
  - destruct (new_Audio_selects_default env_no_default [hdmi; headset]
                (backend_insertion_sort_contract _ _ _ _ _ _) eq_refl)
      as (w' & evs & Hrun & _ & _ & Hlist & _ & Hfirst & _).
    exists w', evs. split; [exact Hrun |]. split; [exact Hlist |].
    apply (Hfirst (to_DeviceInfo hdmi)). rewrite Hlist. reflexivity.
Defined.

(** ** What each step of [playAudioData] does to the object *)

Lemma hoare_updateDevice (E : Env) (P : Audio → Prop) :
  hoare P (updateDevice E)
        (λ _ a',
           ∃ a, P a ∧
                ((a' = a ∧ m_hasCurrentDevice a = true ∧
                  m_currentDeviceID a = m_selectedDeviceID a) ∨
                 ∃ h : handle,
                   a' = set_currentDevice (m_selectedDeviceID a)
                          (set_device (Some {| dev_handle := h;
                                               dev_id := m_selectedDeviceID a |}) a)))
        P.
Proof.
  intros w HP. unfold updateDevice, new_CDevice. run.
  destruct (m_hasCurrentDevice (audio w) && _) eqn:Hc; run.
  { apply andb_true_iff in Hc as [Hh Hc]. apply bool_decide_eq_true in Hc.
    exists (audio w). split; [done |]. left. done. }
  case_goal; run; [done |].
  destruct (m_device (audio w)); run; exists (audio w); (split; [done |]); right; eauto.
Qed.

Lemma hoare_updateResampler (E : Env) (fmt : ma_format) (ch rin rout : Z)
    (P : Audio → Prop) :
  hoare P (updateResampler E fmt ch rin rout)
        (λ _ a',
           ∃ a, P a ∧
                ((a' = a ∧ rin = rout ∧
                  ∃ r, m_resampler a = Some {| resampler := Some r |} ∧
                       format r = fmt ∧ channels r = ch) ∨
                 ∃ h : handle,
                   a' = set_resampler
                          (Some {| resampler :=
                                     Some {| rs_handle := h; format := fmt;
                                             channels := ch; sampleRateIn := rin;
                                             sampleRateOut := rout |} |}) a))
        P.
Proof.
  intros w HP. unfold updateResampler, replace_resampler, new_CResampler, setRate. run.
  destruct (m_resampler (audio w)) as [[[r|]]|] eqn:Hm; run; [| done |].
  - destruct (bool_decide (format r ≠ fmt) || bool_decide (channels r ≠ ch)) eqn:Hc; run.
    + case_goal; run; [done |]. rewrite Hm. run.
      exists (audio w). split; [done |]. right. eauto.
    + apply orb_false_iff in Hc as [Hf Hch].
      apply bool_decide_eq_false in Hf, Hch. apply dec_stable in Hf, Hch.
      case_goal; run.
      * exists (audio w). split; [done |]. left. eauto 10.
      * rewrite Hm. run. case_goal; run; case_goal; run;
          try contradiction; try done.
        exists (audio w). split; [done |]. right. exists (rs_handle r). by subst.
  - case_goal; run; [done |]. rewrite Hm. run.
    exists (audio w). split; [done |]. right. eauto.
Qed.

Lemma hoare_start_sound (E : Env) (fmt : ma_format) (ch n : Z) (hp : handle)
    (pcm : list byte) (P : Audio → Prop) (T : Audio → Prop) :
  hoare P (start_sound E fmt ch n hp pcm)
        (λ b a',
           ∃ a, P a ∧
                (a' = a ∨
                 (b = true ∧ n ≠ 0 ∧
                  ∃ hb hs : handle,
                    a' = set_sounds
                           (sounds a ++
                            [Some {| pl_handle := hp;
                                     sound := Some {| snd_handle := hs; snd_source := hb |};
                                     audioBuffer := Some (buffer_config fmt ch n hb);
                                     pcmData := pcm |}]) a)))
        T.
Proof.
  intros w HP.
  destruct (start_sound_cases E fmt ch n hp pcm w)
    as [[_ ->] | [(r & _ & _ & _ & ->) | [(r & _ & _ & _ & _ & ->) | (Hn & _ & _ & ->)]]];
    simpl; exists (audio w); (split; [done |]); [by left | by left | by left |].
  right. split; [done |]. split; [done |]. eauto.
Qed.

Lemma hoare_convert_and_start (E : Env) (fmt : ma_format) (ch sr bits size : Z)
    (buf : Block) (P : Audio → Prop) (T : Audio → Prop) :
  hoare P (convert_and_start E fmt ch sr bits size buf)
        (λ b a',
           ∃ a, P a ∧
                (a' = a ∨
                 (b = true ∧
                  ∃ p : SoundPayload,
                    a' = set_sounds (sounds a ++ [Some p]) a ∧
                    registered fmt ch sr bits size buf p)))
        T.
Proof.
  assert (Hstart : ∀ (n : Z) (hp : handle) (pcm : list byte) (w : World) (pre : list Event),
             P (audio w) →
             (if bool_decide (to_uint32 sr = AUDIO_DEFAULT_SAMPLE_RATE)
              then n = to_uint64 (size * 8) / (ch * bits) ∧
                   pcm = take (Z.to_nat size) (blk_bytes buf) ∧
                   size ≤ Z.of_nat (length (blk_bytes buf))
              else length pcm = Z.to_nat (pcm_size n ch bits)) →
             match after pre (start_sound E fmt ch n hp pcm w) with
             | Normal b w' _ =>
                 ∃ a, P a ∧
                      (audio w' = a ∨
                       (b = true ∧
                        ∃ p : SoundPayload,
                          audio w' = set_sounds (sounds a ++ [Some p]) a ∧
                          registered fmt ch sr bits size buf p))
             | Thrown w' _ => T (audio w')
             | Undefined => True
             end).
  { intros n hp pcm w pre HP Hpcm.
    pose proof (hoare_start_sound E fmt ch n hp pcm P T w HP) as Hs.
    destruct (start_sound E fmt ch n hp pcm w) as [b w' evs | w' evs |]; simpl; [| done | done].
    destruct Hs as (a & Ha & [Heq | (-> & Hn & hb & hs & Heq)]);
      exists a; (split; [done |]); [by left |].
    right. split; [done |]. eexists. split; [exact Heq |].
    eexists _, _. repeat (split; [reflexivity || done |]). exact Hpcm. }
  intros w HP. unfold convert_and_start.
  destruct (INT_MAX <? ch * bits); [done |]. run.
  destruct (m_resampler (audio w)) as [[[r|]]|]; [| done | done].
  destruct (ma_resampler_get_expected_output_frame_count E r _)
    as [result frameCountOut]. run.
  case_goal; run. { exists (audio w). split; [done | by left]. }
  case_goal.
  - unfold processAudioData.
    destruct (vector_data _) as [out|]; cbn [resampler]; run.
    + match goal with
      | |- context [if ?c then undefined else _] => destruct c
      end; run; [done |].
      destruct (ma_resampler_process_pcm_frames E r (blk_bytes buf) _ frameCountOut)
        as [[result' written] produced]. run.
      case_goal; run. { exists (audio w). split; [done | by left]. }
      rewrite !after_after.
      apply (Hstart produced _ _ (drawn w)); [done |].
      rewrite bool_decide_false by done. by rewrite length_resize.
    + rewrite bool_decide_true by done. run. exists (audio w). split; [done | by left].
  - apply dec_stable in Hd0.
    destruct (Z.ltb_spec (Z.of_nat (length (blk_bytes buf))) size); [done |]. run.
    rewrite !after_after.
    apply (Hstart _ _ _ (drawn w)); [done |].
    rewrite bool_decide_true by done. done.
Qed.

(** ** The outcomes of [playAudioData] on a validated request *)

Lemma existsb_id_elem_of (l : list DeviceInfo) (sel : ma_device_id) :
  existsb (λ device, ma_device_id_equal (id device) sel) l = true →
  ∃ d : DeviceInfo, d ∈ l ∧ id d = sel.
Proof.
  rewrite existsb_exists. intros (d & Hin & Heq).
  apply bool_decide_eq_true in Heq. exists d. split; [by apply list_elem_of_In | done].
Qed.

Lemma Forall_of_sublist {A : Type} (P : A → Prop) (l k : list A) :
  Forall P l → sublist k l → Forall P k.
Proof.
  rewrite !Forall_forall. intros Hl Hsub x Hx. apply Hl.
  by apply (sublist_subseteq _ _ Hsub).
Qed.

Lemma supported_bits (bits : Z) :
  determineFormat bits ≠ ma_format_unknown → bits = 8 ∨ bits = 16 ∨ bits = 24 ∨ bits = 32.
Proof.
  intros Hfmt.
  destruct (decide (bits = 8)); [tauto |]. destruct (decide (bits = 16)); [tauto |].
  destruct (decide (bits = 24)); [tauto |]. destruct (decide (bits = 32)); [tauto |].
  exfalso. apply Hfmt. by apply determineFormat_unknown.
Qed.

(** For a supported bit depth the frame of the resampler has
    [channels * (bitsPerSample / 8)] bytes, an eighth of
    [channels * bitsPerSample]. *)
Lemma bytes_per_frame_of_request (ch bits : Z) :
  determineFormat bits ≠ ma_format_unknown →
  ma_get_bytes_per_frame (determineFormat bits) ch = ch * (bits / 8) ∧
  ch * bits = 8 * (ch * (bits / 8)) ∧ 1 ≤ bits / 8.
Proof.
  intros Hfmt. unfold ma_get_bytes_per_frame.
  destruct (supported_bits bits Hfmt) as [-> | [-> | [-> | ->]]];
    match goal with
    | |- context [determineFormat ?b] =>
        let f := eval vm_compute in (determineFormat b) in
        let q := eval vm_compute in (b / 8) in
        change (determineFormat b) with f; change (b / 8) with q
    end; cbn [ma_get_bytes_per_sample]; lia.
Qed.

(** The frames counted in [bufferSize] bytes lie within those bytes. *)
Lemma frames_within_buffer (ch bits size : Z) :
  0 < ch → determineFormat bits ≠ ma_format_unknown → 0 ≤ size →
  to_uint64 (size * 8) / (ch * bits) * ma_get_bytes_per_frame (determineFormat bits) ch
    ≤ size.
Proof.
  intros Hch Hfmt Hsize.
  destruct (bytes_per_frame_of_request ch bits Hfmt) as (-> & Height & Hbytes).
  assert (Hpos : 0 < ch * bits) by nia.
  assert (Hwrap : 0 ≤ to_uint64 (size * 8) ≤ size * 8).
  { unfold to_uint64. split; [apply Z.mod_pos_bound; lia | apply Z.mod_le; lia]. }
  pose proof (Z.mul_div_le (to_uint64 (size * 8)) (ch * bits) Hpos) as Hdiv.
  rewrite Height in Hdiv at 1. nia.
Qed.

(** The PCM storage sized for [n] frames has room for them when the size
    fits 64 bits. *)
Lemma pcm_size_holds_frames (n ch bits : Z) :
  0 < ch → determineFormat bits ≠ ma_format_unknown →
  n * ch * (bits / 8) < 2 ^ 64 →
  n * ma_get_bytes_per_frame (determineFormat bits) ch ≤ pcm_size n ch bits.
Proof.
  intros Hch Hfmt Hfits.
  destruct (bytes_per_frame_of_request ch bits Hfmt) as (-> & _ & Hbytes).
  assert (Hnonneg : 0 ≤ pcm_size n ch bits).
  { unfold pcm_size, to_uint64. apply Z.mod_pos_bound. lia. }
  destruct (decide (n ≤ 0)) as [Hn | Hn]; [nia |].
  unfold pcm_size, to_uint64.
  rewrite (Z.mod_small (n * ch)) by nia.
  rewrite Z.mod_small by nia. lia.
Qed.

Lemma updateResampler_defined (E : Env) (fmt : ma_format) (ch rin rout : Z) (w : World) :
  (∀ this : CResampler, m_resampler (audio w) = Some this → resampler this ≠ None) →
  updateResampler E fmt ch rin rout w ≠ Undefined.
Proof.
  intros Hok. unfold updateResampler, replace_resampler, new_CResampler, setRate. run.
  destruct (m_resampler (audio w)) as [[[r|]]|] eqn:Hm; run.
  - destruct (bool_decide (format r ≠ fmt) || bool_decide (channels r ≠ ch)); run.
    + case_goal; run; [done |]. rewrite Hm. by run.
    + case_goal; run; [done |]. rewrite Hm. run. case_goal; run; case_goal; by run.
  - by destruct (Hok _ eq_refl).
  - case_goal; run; [done |]. rewrite Hm. by run.
Qed.

Lemma convert_and_start_defined (E : Env) (ch sr bits size : Z)
    (buf : Block) (w : World) (r : ma_resampler) :
  0 < ch → ch * bits ≤ INT_MAX →
  determineFormat bits ≠ ma_format_unknown →
  m_resampler (audio w) = Some {| resampler := Some r |} →
  format r = determineFormat bits → channels r = to_uint32 ch →
  0 ≤ size → size ≤ Z.of_nat (length (blk_bytes buf)) →
  (to_uint32 sr ≠ AUDIO_DEFAULT_SAMPLE_RATE →
   (ma_resampler_get_expected_output_frame_count
      E r (to_uint64 (size * 8) / (ch * bits))).2 * ch * (bits / 8) < 2 ^ 64) →
  convert_and_start E (determineFormat bits) ch sr bits size buf w ≠ Undefined.
Proof.
  intros Hch Hint Hfmt Hm Hformat Hchannels Hsize Hlen Hfits.
  assert (Hstart : ∀ (pre : list Event) (n : Z) (hp : handle) (pcm : list byte)
                     (w0 : World),
             after pre (start_sound E (determineFormat bits) ch n hp pcm w0) ≠ Undefined).
  { intros pre n hp pcm w0.
    pose proof (start_sound_release E (determineFormat bits) ch n hp pcm w0 0%nat).
    by destruct (start_sound _ _ _ _ _ _ _). }
  destruct (bytes_per_frame_of_request ch bits Hfmt) as (Hframe & Height & Hbytes).
  assert (Hch32 : to_uint32 ch = ch).
  { unfold to_uint32, INT_MAX in *. apply Z.mod_small.
    change (2 ^ 32) with 4294967296. nia. }
  unfold convert_and_start.
  destruct (Z.ltb_spec INT_MAX (ch * bits)); [lia |]. run. rewrite Hm.
  destruct (ma_resampler_get_expected_output_frame_count E r _) as [result n].
  cbn [snd] in Hfits. run.
  case_goal; run; [done |]. case_goal.
  - unfold processAudioData.
    destruct (vector_data _) as [out|] eqn:Hout; cbn [resampler]; run.
    + assert (Hpcm : Z.of_nat (length out) = pcm_size n ch bits).
      { destruct (replicate _ _) as [|x pcm] eqn:Hrep; [done |].
        injection Hout as <-. rewrite <- Hrep, length_replicate.
        apply Z2Nat.id. unfold pcm_size, to_uint64. apply Z.mod_pos_bound. lia. }
      rewrite Hformat, Hchannels, Hch32.
      pose proof (frames_within_buffer ch bits size Hch Hfmt Hsize).
      pose proof (pcm_size_holds_frames n ch bits Hch Hfmt (Hfits Hd0)).
      replace (Z.of_nat (length (blk_bytes buf)) <? _) with false by (symmetry; lia).
      replace (Z.of_nat (length out) <? _) with false by (symmetry; lia).
      cbn [orb]. destruct (ma_resampler_process_pcm_frames E r _ _ _) as [[res' wr] pr].
      run. case_goal; run; [done |]. rewrite !after_after. apply Hstart.
    + rewrite bool_decide_true by done. by run.
  - destruct (Z.ltb_spec (Z.of_nat (length (blk_bytes buf))) size); [lia |]. run.
    rewrite !after_after. apply Hstart.
Qed.

Lemma playAudioData_outcome (E : Env) (ch sr bits size : Z) (buf : Block) (w : World) :
  0 < ch → 0 < sr → determineFormat bits ≠ ma_format_unknown → size ≠ 0 →
  match playAudioData E ch sr bits size (Some buf) w with
  | Normal b w' _ =>
      (Audio_invariant (audio w) → Audio_invariant (audio w')) ∧
      ((b = false ∧ audio w' = set_lastDevicesList [] (audio w)) ∨
       (ready (determineFormat bits) ch (audio w') ∧
        (sublist (sounds (audio w')) (sounds (audio w)) ∨
         (b = true ∧
          ∃ (kept : list (option SoundPayload)) (p : SoundPayload),
            sounds (audio w') = kept ++ [Some p] ∧
            sublist kept (sounds (audio w)) ∧
            registered (determineFormat bits) ch sr bits size buf p))))
  | Thrown w' _ =>
      (Audio_invariant (audio w) → Audio_invariant (audio w')) ∧
      sublist (sounds (audio w')) (sounds (audio w))
  | Undefined => ¬ request_in_bounds E (audio w) ch sr bits size (Some buf)
  end.
Proof.
  intros Hch Hsr Hfmt Hsize. unfold playAudioData.
  assert (0 < bits).
  { destruct (decide (0 < bits)) as [|Hn]; [done |]. exfalso. apply Hfmt.
    apply determineFormat_unknown. lia. }
  replace ((ch <=? 0) || (bits <=? 0) || (sr <=? 0)) with false
    by (symmetry; rewrite !orb_false_iff; repeat split; lia).
  rewrite bool_decide_false by done.
  replace (size =? 0) with false by (symmetry; lia).
  run. destruct (getDevicesList_cases E w) as [[l Hg] | (r & Hr & Hg)]; rewrite Hg; run.
  2: { split; [done | done]. }
  destruct l as [|first l]; run.
  { split; [| by left]. intros (Hd & Hrs & Hsnd). by repeat split. }
  match goal with
  | |- context [(if ?c then ?m1 else ?m2) ?w0] =>
      assert (∃ (w1 : World) (evs : list Event),
                (if c then m1 else m2) w0 = Normal tt w1 evs ∧
                ∃ sel : ma_device_id,
                  audio w1 =
                    set_selectedDeviceID sel
                      (set_lastDevicesList (first :: l) (audio w)) ∧
                  ∃ d : DeviceInfo, d ∈ first :: l ∧ id d = sel)
        as (w1 & evs1 & -> & sel & Hw1 & Hsel)
  end.
  { destruct (existsb _ (first :: l)) eqn:Hex; cbn [negb]; run.
    - eexists _, _. split; [reflexivity |]. exists (m_selectedDeviceID (audio w)).
      split; [done |]. by apply existsb_id_elem_of.
    - eexists _, _. split; [reflexivity |]. exists (id first).
      split; [done |]. exists first. split; [apply elem_of_cons; by left | done]. }
  run. destruct (freeSounds_spec E true w1) as (kept & evs2 & -> & Hs2 & _). run.
  rewrite Hw1 in Hs2 |- *. cbn in Hs2.
  match goal with
  | |- context [updateDevice E ?w0] =>
      pose proof (hoare_updateDevice E (λ a, a = audio w0) w0 eq_refl) as Hd;
      pose proof (updateDevice_spec E w0) as Hdef;
      destruct (updateDevice E w0) as [[] [a3 n3] evs3 | [a3 n3] evs3 |]; [| | done];
      clear Hdef; cbn [audio] in Hd; run
  end.
  2: { subst a3. split; [| by cbn]. intros (Hdev & Hrs & Hsnd).
       split; [done |]. split; [done |]. cbn. eapply Forall_of_sublist; [exact Hsnd | done]. }
  destruct Hd as (? & -> & Hd).
  match goal with
  | |- context [updateResampler E ?f ?c ?ri ?ro ?w0] =>
      pose proof (hoare_updateResampler E f c ri ro (λ a, a = a3) w0 eq_refl) as Hr;
      pose proof (updateResampler_defined E f c ri ro w0) as Hdef;
      destruct (updateResampler E f c ri ro w0) as [[] [a4 n4] evs4 | [a4 n4] evs4 |];
      [clear Hdef | clear Hdef |]; cbn [audio] in Hr; run
  end.
  3: { intros (Hres & _). apply Hdef; [| done].
       destruct Hd as [(-> & _) | (h & ->)]; exact Hres. }
  2: { subst a4. split.
       - intros (Hdev & Hrs & Hsnd).
         destruct Hd as [(-> & Hh & Hc) | (h & ->)].
         + split; [done |]. split; [done |]. cbn. eapply Forall_of_sublist; [exact Hsnd | done].
         + split; [unfold device_consistent; cbn; eauto |]. split; [done |].
           cbn. eapply Forall_of_sublist; [exact Hsnd | done].
       - destruct Hd as [(-> & _) | (h & ->)]; by cbn. }
  destruct Hr as (? & -> & Hr).
  assert (Hrates : to_uint32 sr ≠ AUDIO_DEFAULT_SAMPLE_RATE →
                   ∀ r : ma_resampler,
                     m_resampler a4 = Some {| resampler := Some r |} →
                     sampleRateIn r = to_uint32 sr ∧
                     sampleRateOut r = AUDIO_DEFAULT_SAMPLE_RATE).
  { intros Hrate r Hm. destruct Hr as [(_ & Heq & _) | (h & ->)]; [done |].
    cbn in Hm. by injection Hm as <-. }
  assert (Hready : ready (determineFormat bits) ch a4).
  { unfold ready.
    destruct Hr as [(-> & _ & r & Hm & Hf & Hc) | (h & ->)];
      destruct Hd as [(-> & Hh & Hcur) | (h' & ->)]; cbn in *;
      (split; [done |]); (split; [exact Hsel |]); (split; [done |]);
      (split; [done |]); eauto 10. }
  assert (Hinv : Audio_invariant (audio w) → Audio_invariant a4).
  { intros (Hdev & Hrs & Hsnd).
    assert (Forall payload_complete kept) by (eapply Forall_of_sublist; [exact Hsnd | done]).
    destruct Hr as [(-> & _ & r & Hm & Hf & Hc) | (h & ->)];
      destruct Hd as [(-> & Hh & Hcur) | (h' & ->)];
      (split; [| split]); try done; try (unfold device_consistent; cbn; by eauto).
    - intros this [= <-]. eauto.
    - intros this [= <-]. eauto. }
  assert (Hsounds : sounds a4 = kept).
  { destruct Hr as [(-> & _) | (h & ->)]; destruct Hd as [(-> & _) | (h' & ->)]; done. }
  pose proof (hoare_convert_and_start E (determineFormat bits) ch sr bits size buf
                (λ a, a = a4) (λ _, False) {| audio := a4; next_handle := n4 |} eq_refl)
    as Hc.
  pose proof (convert_and_start_defined E ch sr bits size buf
                {| audio := a4; next_handle := n4 |}) as Hdef.
  destruct (convert_and_start _ _ _ _ _ _ _ _) as [b [a5 n5] evs5 | w5 evs5 |];
    [clear Hdef | done |]; cbn [audio] in Hc; simpl.
  2: { intros (_ & Hint & Hsize0 & Hlen & Hestimate).
       destruct Hready as (_ & _ & _ & _ & r & Hm & Hformat & Hchannels).
       apply (Hdef r); [done | done | done | done | done | done | done | by apply Hlen | |
                        done].
       intros Hrate. destruct (Hrates Hrate r Hm) as [Hin Hout].
       by apply Hestimate. }
  destruct Hc as (? & -> & [-> | (-> & p & -> & Hp)]).
  - split; [done |]. right. split; [done |]. left. by rewrite Hsounds.
  - split.
    + intros Hi. destruct (Hinv Hi) as (Hdev & Hrs & Hsnd).
      split; [done |]. split; [done |]. cbn. apply Forall_app. split; [done |].
      constructor; [| constructor].
      destruct Hp as (s & b & Hs & Hb & Hsrc & _). by exists p, s, b.
    + right. split.
      * destruct Hready as (Hl & Hs & Hh & Hcur & Hres). done.
      * right. split; [done |]. exists kept, p. cbn. by rewrite Hsounds.
Qed.

(** A request that fails validation, or has no bytes, leaves the object as
    it was. *)
Lemma playAudioData_rejected (E : Env) (ch sr bits size : Z) (buffer : option Block)
    (w : World) :
  ¬ (∃ buf : Block,
       buffer = Some buf ∧ 0 < ch ∧ 0 < sr ∧
       determineFormat bits ≠ ma_format_unknown ∧ size ≠ 0) →
  ∃ (b : bool) (evs : list Event),
    playAudioData E ch sr bits size buffer w = Normal b w evs.
Proof.
  intros Hinvalid. destruct buffer as [buf|]; [| by eexists _, _].
  unfold playAudioData.
  destruct ((ch <=? 0) || (bits <=? 0) || (sr <=? 0)) eqn:Hmeta; run.
  { by eexists _, _. }
  case_goal; run. { by eexists _, _. }
  destruct (Z.eqb_spec size 0); run. { by eexists _, _. }
  exfalso. apply Hinvalid. exists buf. rewrite !orb_false_iff in Hmeta.
  repeat split; (lia || done).
Qed.

Lemma request_cases (ch sr bits size : Z) (buffer : option Block) :
  (∃ buf : Block,
     buffer = Some buf ∧ 0 < ch ∧ 0 < sr ∧
     determineFormat bits ≠ ma_format_unknown ∧ size ≠ 0) ∨
  ¬ (∃ buf : Block,
       buffer = Some buf ∧ 0 < ch ∧ 0 < sr ∧
       determineFormat bits ≠ ma_format_unknown ∧ size ≠ 0).
Proof.
  destruct buffer as [buf|]; [| right; by intros (buf & ? & _)].
  destruct (decide (0 < ch ∧ 0 < sr ∧ determineFormat bits ≠ ma_format_unknown ∧ size ≠ 0))
    as [Hv | Hn]; [left; by exists buf |].
  right. intros (buf' & [= <-] & Hv). by apply Hn.
Qed.

(** ** Invariants *)

(** X8: the public member functions keep the invariants of the object.
    Whether they return or throw, they leave the flag
    [m_hasCurrentDevice] in step with the device object, which is open on
    [m_currentDeviceID]; a resampler object that holds a native resampler
    whose output rate is the working rate; and a registry in which every
    entry is a payload with its sound and audio buffer. The constructor
    establishes them. *)
Theorem Audio_invariant_kept :
  (∀ E : Env,
     hoare (λ a, a = blank_Audio) (new_Audio E) (λ _, Audio_invariant) Audio_invariant) ∧
  (∀ E : Env,
     hoare Audio_invariant (getDevicesList E) (λ _, Audio_invariant) Audio_invariant) ∧
  (∀ deviceIndex : nat,
     hoare Audio_invariant (selectDevice deviceIndex) (λ _, Audio_invariant)
           Audio_invariant) ∧
  (∀ (E : Env) (onlyUnused : bool),
     hoare Audio_invariant (freeSounds E onlyUnused) (λ _, Audio_invariant)
           Audio_invariant) ∧
  (∀ (E : Env) (channels sampleRate bitsPerSample bufferSize : Z) (buffer : option Block),
     hoare Audio_invariant
           (playAudioData E channels sampleRate bitsPerSample bufferSize buffer)
           (λ _, Audio_invariant) Audio_invariant).
Proof.
  assert (Hblank : Audio_invariant blank_Audio).
  { split; [done |]. split; [by intros this | constructor]. }
  assert (Hlist : ∀ l a, Audio_invariant a → Audio_invariant (set_lastDevicesList l a)).
  { by intros l a (Hd & Hr & Hs). }
  assert (Hsel : ∀ d a, Audio_invariant a → Audio_invariant (set_selectedDeviceID d a)).
  { by intros d a (Hd & Hr & Hs). }
  split; [| split; [| split; [| split]]].
  - intros E [a n] Hw. cbn [audio] in Hw. subst a. unfold new_Audio. run.
    destruct (getDevicesList_cases E {| audio := blank_Audio; next_handle := n |})
      as [[l Hg] | (r & _ & Hg)]; rewrite Hg; run; [| done].
    destruct l; run; by apply Hsel, Hlist.
  - intros E w Hinv.
    destruct (getDevicesList_cases E w) as [[l Hg] | (r & _ & Hg)]; rewrite Hg;
      [by apply Hlist | done].
  - intros i w Hinv. unfold selectDevice. run.
    case_goal; run; [done |].
    destruct (bool_decide _); run; destruct (_ !! _); run; try done; by apply Hsel.
  - intros E onlyUnused w (Hd & Hr & Hs).
    destruct (freeSounds_spec E onlyUnused w) as (kept & evs & -> & Hsub & _).
    split; [done |]. split; [done |]. by apply (Forall_of_sublist _ _ _ Hs).
  - intros E ch sr bits size buffer w Hinv.
    destruct (request_cases ch sr bits size buffer)
      as [(buf & -> & Hch & Hsr & Hfmt & Hsize) | Hinvalid].
    + pose proof (playAudioData_outcome E ch sr bits size buf w Hch Hsr Hfmt Hsize) as Hout.
      destruct (playAudioData _ _ _ _ _ _ _); [| | done]; destruct Hout as [Hkeep _];
        by apply Hkeep.
    + by destruct (playAudioData_rejected E ch sr bits size buffer w Hinvalid)
        as (b & evs & ->).
Qed.

(** Constructed and then asked to play, the object satisfies the
    invariants. *)
Lemma Audio_invariant_kept_witness : Audio_invariant (audio world_after_play).
Proof.
  destruct Audio_invariant_kept as (Hnew & _ & _ & _ & Hplay).
  pose proof (Hnew env_ok blank_World eq_refl) as Hinv. simpl in Hinv.
  exact (Hplay env_ok 1 48000 16 4 (Some four_bytes) world_three_devices Hinv).
Defined.

(** ** What a returning [playAudioData] leaves behind *)

(** X9: when [playAudioData] returns [true] for a request with bytes, the
    last enumeration is not empty and contains the selected device, a
    device is open on the selected identifier, and the resampler has the
    format and the channel count of the request. When it returns [false]
    after validation, either no device was found, and only the last
    enumeration changed, or the same holds. *)
Theorem playAudioData_leaves_device_ready (E : Env) (ch sr bits size : Z) (buf : Block)
    (w w' : World) (b : bool) (evs : list Event) :
  0 < ch → 0 < sr → determineFormat bits ≠ ma_format_unknown → size ≠ 0 →
  playAudioData E ch sr bits size (Some buf) w = Normal b w' evs →
  (b = true → ready (determineFormat bits) ch (audio w')) ∧
  (b = false →
   audio w' = set_lastDevicesList [] (audio w) ∨
   ready (determineFormat bits) ch (audio w')).
Proof.
  intros Hch Hsr Hfmt Hsize Hrun.
  pose proof (playAudioData_outcome E ch sr bits size buf w Hch Hsr Hfmt Hsize) as Hout.
  rewrite Hrun in Hout. destruct Hout as [_ [[-> Hnone] | [Hready _]]].
  - split; [done |]. intros _. by left.
  - split; [done |]. intros _. by right.
Qed.

(** After the four bytes were played, the speakers are open and selected. *)
Lemma playAudioData_leaves_device_ready_witness :
  ready ma_format_s16 1 (audio world_after_play).
Proof.
  apply (playAudioData_leaves_device_ready env_ok 1 48000 16 4 four_bytes
           world_three_devices world_after_play true
           (events_of (playAudioData env_ok 1 48000 16 4 (Some four_bytes)
                                     world_three_devices)));
    [lia | lia | discriminate | discriminate | reflexivity | reflexivity].
Defined.

(** X10: [playAudioData] never adds more than one payload to the registry,
    and none when it returns [false] or throws: the registry it leaves is
    part of the one it found, in the same order, followed by at most one
    new payload, which is complete and declared at the working rate with
    the format and channels of the request. *)
Theorem playAudioData_registers_at_most_one (E : Env) (ch sr bits size : Z)
    (buffer : option Block) (w : World) :
  match playAudioData E ch sr bits size buffer w with
  | Normal b w' _ =>
      sublist (sounds (audio w')) (sounds (audio w)) ∨
      (b = true ∧
       ∃ (buf : Block) (kept : list (option SoundPayload)) (p : SoundPayload),
         buffer = Some buf ∧
         sounds (audio w') = kept ++ [Some p] ∧
         sublist kept (sounds (audio w)) ∧
         registered (determineFormat bits) ch sr bits size buf p)
  | Thrown w' _ => sublist (sounds (audio w')) (sounds (audio w))
  | Undefined => True
  end.
Proof.
  destruct (request_cases ch sr bits size buffer)
    as [(buf & -> & Hch & Hsr & Hfmt & Hsize) | Hinvalid].
  - pose proof (playAudioData_outcome E ch sr bits size buf w Hch Hsr Hfmt Hsize) as Hout.
    destruct (playAudioData _ _ _ _ _ _ _) as [b w' evs | w' evs |]; [| by destruct Hout | done].
    destruct Hout as [_ [[-> ->] | [_ [Hsub | (-> & kept & p & Hs & Hsub & Hp)]]]].
    + by left.
    + by left.
    + right. split; [done |]. by exists buf, kept, p.
  - destruct (playAudioData_rejected E ch sr bits size buffer w Hinvalid)
      as (b & evs & ->). by left.
Qed.

Lemma playAudioData_true_registry (E : Env) (ch sr bits size : Z) (buf : Block)
    (w w' : World) (evs : list Event) :
  playAudioData E ch sr bits size (Some buf) w = Normal true w' evs →
  sublist (sounds (audio w')) (sounds (audio w)) ∨
  (0 < ch ∧ (bits = 8 ∨ bits = 16 ∨ bits = 24 ∨ bits = 32) ∧
   ∃ (kept : list (option SoundPayload)) (p : SoundPayload),
     sounds (audio w') = kept ++ [Some p] ∧
     sublist kept (sounds (audio w)) ∧
     registered (determineFormat bits) ch sr bits size buf p).
Proof.
  intros Hrun.
  destruct (request_cases ch sr bits size (Some buf))
    as [(buf' & [= <-] & Hch & Hsr & Hfmt & Hsize) | Hinvalid].
  - pose proof (playAudioData_outcome E ch sr bits size buf w Hch Hsr Hfmt Hsize) as Hout.
    rewrite Hrun in Hout.
    destruct Hout as [_ [[? _] | [_ [Hsub | (_ & kept & p & Hs & Hsub & Hp)]]]];
      [done | by left |].
    right. split; [done |]. split; [by apply supported_bits |]. by exists kept, p.
  - destruct (playAudioData_rejected E ch sr bits size (Some buf) w Hinvalid)
      as (b & evs' & Hrej).
    rewrite Hrej in Hrun. injection Hrun as _ <- _. by left.
Qed.

(** X11: the audio buffer [playAudioData] registers never declares more
    PCM than the payload holds. For a request with non-negative byte
    length that returns [true], either nothing was registered, or the new
    payload's audio buffer declares [n] frames of [channels] channels with
    [n * channels * (bitsPerSample / 8)] no larger than the length of the
    payload's PCM: always when the input is at the working rate, and
    otherwise when that product fits 64 bits. *)
Theorem playAudioData_pcm_covers_frames (E : Env) (ch sr bits size : Z) (buf : Block)
    (w w' : World) (evs : list Event) :
  0 ≤ size →
  playAudioData E ch sr bits size (Some buf) w = Normal true w' evs →
  sublist (sounds (audio w')) (sounds (audio w)) ∨
  ∃ (kept : list (option SoundPayload)) (p : SoundPayload) (b : ma_audio_buffer),
    sounds (audio w') = kept ++ [Some p] ∧
    sublist kept (sounds (audio w)) ∧
    audioBuffer p = Some b ∧ ab_channels b = ch ∧
    (to_uint32 sr = AUDIO_DEFAULT_SAMPLE_RATE ∨
     0 ≤ ab_sizeInFrames b * ch * (bits / 8) < 2 ^ 64 →
     ab_sizeInFrames b * ab_channels b * (bits / 8) ≤ Z.of_nat (length (pcmData p))).
Proof.
  intros Hsize Hrun.
  destruct (playAudioData_true_registry E ch sr bits size buf w w' evs Hrun)
    as [Hsub | (Hch & Hbits & kept & p & Hs & Hsub & Hp)]; [by left |].
  right. destruct Hp as (s & b & _ & Hb & _ & _ & Hchan & _ & Hn & Hpcm).
  exists kept, p, b. split; [done |]. split; [done |]. split; [done |]. split; [done |].
  rewrite Hchan. intros Hcond.
  destruct (decide (to_uint32 sr = AUDIO_DEFAULT_SAMPLE_RATE)) as [Hrate | Hrate].
  - rewrite bool_decide_true in Hpcm by done. destruct Hpcm as (Hframes & -> & Hlen).
    rewrite length_take. rewrite Hframes.
    replace (Z.of_nat (Z.to_nat size `min` length (blk_bytes buf))) with size by lia.
    assert (Hle : to_uint64 (size * 8) ≤ size * 8).
    { unfold to_uint64. apply Z.mod_le; lia. }
    assert (Hq : (ch * bits) * (to_uint64 (size * 8) / (ch * bits)) ≤ to_uint64 (size * 8)).
    { apply Z.mul_div_le. destruct Hbits as [-> | [-> | [-> | ->]]]; lia. }
    set (F := to_uint64 (size * 8) / (ch * bits)) in *. clearbody F. clear Hframes Hn.
    set (U := to_uint64 (size * 8)) in *. clearbody U.
    destruct Hbits as [-> | [-> | [-> | ->]]].
    + change (8 / 8) with 1. nia.
    + change (16 / 8) with 2. nia.
    + change (24 / 8) with 3. nia.
    + change (32 / 8) with 4. nia.
  - rewrite bool_decide_false in Hpcm by done. destruct Hcond as [? | Hfit]; [done |].
    rewrite Hpcm. unfold pcm_size, to_uint64.
    set (F := ab_sizeInFrames b) in *. clearbody F.
    assert (Hk : 1 ≤ bits / 8 ≤ 4).
    { destruct Hbits as [-> | [-> | [-> | ->]]]; by compute. }
    set (k := bits / 8) in *. clearbody k.
    assert (0 ≤ F * ch < 2 ^ 64) by nia.
    rewrite (Z.mod_small (F * ch)) by lia.
    rewrite Z.mod_small by lia. lia.
Qed.

(** The four bytes played at the working rate are registered whole. *)
Lemma playAudioData_pcm_covers_frames_witness :
  sublist (sounds (audio world_after_play)) (sounds (audio world_three_devices)) ∨
  ∃ (kept : list (option SoundPayload)) (p : SoundPayload) (b : ma_audio_buffer),
    sounds (audio world_after_play) = kept ++ [Some p] ∧
    sublist kept (sounds (audio world_three_devices)) ∧
    audioBuffer p = Some b ∧ ab_channels b = 1 ∧
    (to_uint32 48000 = AUDIO_DEFAULT_SAMPLE_RATE ∨
     0 ≤ ab_sizeInFrames b * 1 * (16 / 8) < 2 ^ 64 →
     ab_sizeInFrames b * ab_channels b * (16 / 8) ≤ Z.of_nat (length (pcmData p))).
Proof.
  apply (playAudioData_pcm_covers_frames env_ok 1 48000 16 4 four_bytes
           world_three_devices world_after_play
           (events_of (playAudioData env_ok 1 48000 16 4 (Some four_bytes)
                                     world_three_devices)));
    [lia | reflexivity].
Defined.

(** ** Defined behaviour and the release of the buffer *)



(** A buffer that is shorter than the [bufferSize] it is passed with is
    read past its end on both paths: the request is outside defined
    behaviour at the working rate, where the bytes are copied, and at
    another rate, where the resampler reads the frames. *)
Example playAudioData_short_buffer :
  playAudioData env_ok 1 48000 16 1000 (Some four_bytes) world_three_devices = Undefined ∧
  playAudioData env_ok 1 22050 16 1000 (Some four_bytes) world_three_devices = Undefined.
Proof. split; reflexivity. Qed.

(** X13: on every path on which [playAudioData] returns, with [true] or
    with [false], a buffer that is not null has been handed to [free]
    exactly once; and no path, returning or throwing, frees it twice. *)
Theorem playAudioData_releases_once (E : Env) (ch sr bits size : Z) (buf : Block)
    (w : World) :
  (∀ (b : bool) (w' : World) (evs : list Event),
     playAudioData E ch sr bits size (Some buf) w = Normal b w' evs →
     releases (blk_addr buf) evs = 1%nat) ∧
  (releases (blk_addr buf)
            (events_of (playAudioData E ch sr bits size (Some buf) w)) ≤ 1)%nat.
Proof.
  pose proof (playAudioData_release E ch sr bits size buf w) as Hrel.
  split.
  - intros b w' evs Hrun. by rewrite Hrun in Hrel.
  - destruct (playAudioData _ _ _ _ _ _ _); simpl; lia.
Qed.

(** The four bytes resampled from 24000 Hz are released once. *)
Lemma playAudioData_releases_once_witness :
  releases (blk_addr four_bytes)
           (events_of (playAudioData env_ok 1 24000 16 4 (Some four_bytes)
                                     world_three_devices)) = 1%nat.
Proof.
  destruct (playAudioData env_ok 1 24000 16 4 (Some four_bytes) world_three_devices)
    as [b w' evs | |] eqn:Hrun; [| discriminate Hrun | discriminate Hrun].
  exact (proj1 (playAudioData_releases_once env_ok 1 24000 16 4 four_bytes
                  world_three_devices) b w' evs Hrun).
Defined.

(** X14: with a buffer that is not null and a channel count, sample rate
    or bit depth that is not positive, [playAudioData] logs an error,
    releases the buffer and returns [false]; it enumerates no devices,
    makes no native call and leaves the object as it was. *)
Theorem playAudioData_invalid_metadata (E : Env) (ch sr bits size : Z) (buf : Block)
    (w : World) :
  ch ≤ 0 ∨ sr ≤ 0 ∨ bits ≤ 0 →
  playAudioData E ch sr bits size (Some buf) w =
    Normal false w
           [EvLog error
                  "Invalid audio metadata: channels={}, sampleRate={}, bitsPerSample={}";
            EvFree (blk_addr buf)].
Proof.
  intros Hbad. unfold playAudioData.
  replace ((ch <=? 0) || (bits <=? 0) || (sr <=? 0)) with true; [by run |].
  symmetry. rewrite !orb_true_iff. lia.
Qed.

(** A request for no channels. *)
Lemma playAudioData_invalid_metadata_witness :
  playAudioData env_ok 0 22050 16 4 (Some four_bytes) world_three_devices =
    Normal false world_three_devices
           [EvLog error
                  "Invalid audio metadata: channels={}, sampleRate={}, bitsPerSample={}";
            EvFree (blk_addr four_bytes)].
Proof.
  apply (playAudioData_invalid_metadata env_ok 0 22050 16 4 four_bytes world_three_devices).
  left. lia.
Defined.

(** ** [Speech] *)

(** What the loop of [getVoicesList] computes. *)
Lemma list_voices_spec (S : SRAL) (voiceInfos : list SRAL_VoiceInfo) (i : nat)
    (unsupported : list nat) :
  (list_voices S i voiceInfos unsupported).1 = map (voice_label S) voiceInfos ∧
  unsupported `prefix_of` (list_voices S i voiceInfos unsupported).2 ∧
  ∀ j : nat,
    j ∈ (list_voices S i voiceInfos unsupported).2 ↔
    j ∈ unsupported ∨
    ∃ (k : nat) (v : SRAL_VoiceInfo),
      j = (i + k)%nat ∧ voiceInfos !! k = Some v ∧ CheckVoiceIsSupported S v = false.
Proof.
  revert i unsupported. induction voiceInfos as [|v l IH]; intros i unsupported; simpl.
  { split; [done |]. split; [done |]. intros j. split; [by left |].
    intros [Hj | (k & v & _ & Hk & _)]; [done | by rewrite lookup_nil in Hk]. }
  specialize (IH (Datatypes.S i) (if CheckVoiceIsSupported S v then unsupported
                        else unsupported ++ [i])).
  destruct (list_voices S (Datatypes.S i) l _) as [voices unsupported'] eqn:Hl.
  simpl in *. destruct IH as (Hnames & Hprefix & Hmem).
  split; [by rewrite Hnames |]. split.
  - destruct (CheckVoiceIsSupported S v); [done |].
    etrans; [| exact Hprefix]. by apply prefix_app_r.
  - intros j. rewrite Hmem. destruct (CheckVoiceIsSupported S v) eqn:Hv.
    + split.
      * intros [Hj | (k & v' & -> & Hk & Hv')]; [by left |].
        right. exists (Datatypes.S k), v'. split; [lia | done].
      * intros [Hj | (k & v' & -> & Hk & Hv')]; [by left |].
        destruct k as [|k]; simpl in Hk; [congruence |].
        right. exists k, v'. split; [lia | done].
    + rewrite elem_of_app, list_elem_of_singleton. split.
      * intros [[Hj | ->] | (k & v' & -> & Hk & Hv')].
        -- by left.
        -- right. exists 0%nat, v. split; [lia | done].
        -- right. exists (Datatypes.S k), v'. split; [lia | done].
      * intros [Hj | (k & v' & -> & Hk & Hv')]; [by left; left |].
        destruct k as [|k]; simpl in Hk.
        -- left; right. lia.
        -- right. exists k, v'. split; [lia | done].
Qed.

(** A successful listing. *)
Lemma getVoicesList_success (S : SRAL) (this : Speech) (n : Z)
    (written : list SRAL_VoiceInfo) :
  SRAL_voice_count S = (true, n) → 0 < n →
  SRAL_voice_properties S (Z.to_nat n) = (true, written) →
  ∃ this' : Speech,
    getVoicesList S this =
      (map (voice_label S) (resize (Z.to_nat n) zero_VoiceInfo written), this', []) ∧
    m_unsupportedVoiceIsSet this' = m_unsupportedVoiceIsSet this ∧
    m_unsupportedVoiceIndices this `prefix_of` m_unsupportedVoiceIndices this' ∧
    ∀ j : nat,
      j ∈ m_unsupportedVoiceIndices this' ↔
      j ∈ m_unsupportedVoiceIndices this ∨
      ∃ v : SRAL_VoiceInfo,
        resize (Z.to_nat n) zero_VoiceInfo written !! j = Some v ∧
        CheckVoiceIsSupported S v = false.
Proof.
  intros Hcount Hn Hprops. unfold getVoicesList.
  rewrite Hcount. cbn [negb]. replace (n <=? 0) with false by (symmetry; lia).
  rewrite Hprops. cbn [negb].
  pose proof (list_voices_spec S (resize (Z.to_nat n) zero_VoiceInfo written) 0
                (m_unsupportedVoiceIndices this)) as (Hnames & Hprefix & Hmem).
  destruct (list_voices S 0 _ _) as [voices unsupported]. simpl in Hnames, Hprefix, Hmem.
  subst voices. eexists. split; [reflexivity |]. split; [done |]. split; [done |].
  intros j. rewrite Hmem. split.
  - intros [Hj | (k & v & -> & Hk & Hv)]; [by left | right; by exists v].
  - intros [Hj | (v & Hk & Hv)]; [by left | right; by exists j, v].
Qed.

(** X15: when the speech library reports [n > 0] voices and fills the
    array, [getVoicesList] returns [n] names in the order of the array, an
    unsupported voice under its name prefixed with ["!Not supported "];
    it logs nothing and appends to [m_unsupportedVoiceIndices], without
    clearing it, the positions of the unsupported voices. When the count
    or the properties cannot be read, or no voice is reported, it returns
    no name and leaves the object as it was. *)
Theorem getVoicesList_lists (S : SRAL) (this : Speech) :
  (∀ (n : Z) (written : list SRAL_VoiceInfo),
     SRAL_voice_count S = (true, n) → 0 < n →
     SRAL_voice_properties S (Z.to_nat n) = (true, written) →
     ∃ this' : Speech,
       getVoicesList S this =
         (map (voice_label S) (resize (Z.to_nat n) zero_VoiceInfo written), this', []) ∧
       length (getVoicesList S this).1.1 = Z.to_nat n ∧
       m_unsupportedVoiceIsSet this' = m_unsupportedVoiceIsSet this ∧
       m_unsupportedVoiceIndices this `prefix_of` m_unsupportedVoiceIndices this' ∧
       ∀ j : nat,
         j ∈ m_unsupportedVoiceIndices this' ↔
         j ∈ m_unsupportedVoiceIndices this ∨
         ∃ v : SRAL_VoiceInfo,
           resize (Z.to_nat n) zero_VoiceInfo written !! j = Some v ∧
           CheckVoiceIsSupported S v = false) ∧
  ((SRAL_voice_count S).1 = false ∨ (SRAL_voice_count S).2 ≤ 0 ∨
   (SRAL_voice_properties S (Z.to_nat (SRAL_voice_count S).2)).1 = false →
   ∃ evs : list Event, getVoicesList S this = ([], this, evs)).
Proof.
  split.
  - intros n written Hcount Hn Hprops.
    destruct (getVoicesList_success S this n written Hcount Hn Hprops)
      as (this' & Hrun & Hflag & Hprefix & Hmem).
    exists this'. rewrite Hrun. split; [done |]. cbn [fst].
    split; [by rewrite length_map, length_resize |]. done.
  - unfold getVoicesList. destruct (SRAL_voice_count S) as [ok n]. simpl.
    destruct ok; simpl; [| by eexists].
    destruct (Z.leb_spec n 0); [by eexists |].
    destruct (SRAL_voice_properties S (Z.to_nat n)) as [ok written]. simpl.
    destruct ok; simpl; [| by eexists].
    intros [? | [? | ?]]; (done || lia).
Qed.

(** Anna and Boris are listed; Boris, at position 1, is not supported. *)
Lemma getVoicesList_lists_witness :
  ∃ this' : Speech,
    getVoicesList sral_two_voices fresh_Speech = (["Anna"; "!Not supported Boris"], this', []) ∧
    (1%nat ∈ m_unsupportedVoiceIndices this' ↔
     1%nat ∈ m_unsupportedVoiceIndices fresh_Speech ∨
     ∃ v : SRAL_VoiceInfo,
       [anna; boris] !! 1%nat = Some v ∧ CheckVoiceIsSupported sral_two_voices v = false).
Proof.
  destruct (proj1 (getVoicesList_lists sral_two_voices fresh_Speech) 2 [anna; boris]
                  eq_refl ltac:(lia) eq_refl)
    as (this' & Hrun & _ & _ & _ & Hmem).
  exists this'. split; [exact Hrun | exact (Hmem 1%nat)].
Defined.

(** X16: [setVoice] sets [m_unsupportedVoiceIsSet] by whether the index
    asked for is among the recorded unsupported indices, whatever the
    speech library answers to the change of voice; and when the index is
    among them, the next [speak] only logs a warning and returns [false]:
    nothing is synthesised and the audio engine is not touched. With the
    indices recorded by one [getVoicesList] on a new object, that is the
    case exactly for the listed voices that are not supported. *)
Theorem speak_refuses_unsupported_voice (E : Env) (S : SRAL) (this : Speech) (idx : nat) :
  m_unsupportedVoiceIndices (setVoice S this idx).1.2 = m_unsupportedVoiceIndices this ∧
  (idx ∈ m_unsupportedVoiceIndices this →
   ∀ (text : string) (w : World),
     speak E S (setVoice S this idx).1.2 text w =
       Normal false w [EvLog warn "Trying to speak with unsupported voice"]) ∧
  (idx ∉ m_unsupportedVoiceIndices this →
   m_unsupportedVoiceIsSet (setVoice S this idx).1.2 = false) ∧
  (∀ (n : Z) (written : list SRAL_VoiceInfo) (v : SRAL_VoiceInfo),
     m_unsupportedVoiceIndices this = [] →
     SRAL_voice_count S = (true, n) → 0 < n →
     SRAL_voice_properties S (Z.to_nat n) = (true, written) →
     resize (Z.to_nat n) zero_VoiceInfo written !! idx = Some v →
     m_unsupportedVoiceIsSet (setVoice S (getVoicesList S this).1.2 idx).1.2 =
       negb (CheckVoiceIsSupported S v)).
Proof.
  assert (Hflag : ∀ this0 : Speech,
             m_unsupportedVoiceIsSet (setVoice S this0 idx).1.2 =
             bool_decide (idx ∈ m_unsupportedVoiceIndices this0)).
  { intros this0. unfold setVoice. by destruct (SRAL_set_voice_index S idx). }
  split; [| split; [| split]].
  - unfold setVoice. by destruct (SRAL_set_voice_index S idx).
  - intros Hin text w. unfold speak. rewrite Hflag, bool_decide_true by done. by run.
  - intros Hnot. by rewrite Hflag, bool_decide_false.
  - intros n written v Hnone Hcount Hn Hprops Hv. rewrite Hflag.
    destruct (getVoicesList_success S this n written Hcount Hn Hprops)
      as (this' & Hrun & _ & _ & Hmem).
    rewrite Hrun. cbn [fst snd]. rewrite Hnone in Hmem.
    destruct (CheckVoiceIsSupported S v) eqn:Hsup; cbn [negb].
    + apply bool_decide_eq_false. rewrite Hmem.
      intros [Hin | (v' & Hv' & Hsup')]; [by apply elem_of_nil in Hin | congruence].
    + apply bool_decide_eq_true. rewrite Hmem. right. by exists v.
Qed.

(** Boris is chosen after the voices were listed: the next [speak] is
    refused. *)
Lemma speak_refuses_unsupported_voice_witness :
  m_unsupportedVoiceIsSet
    (setVoice sral_two_voices (getVoicesList sral_two_voices fresh_Speech).1.2 1).1.2 =
    negb (CheckVoiceIsSupported sral_two_voices boris) ∧
  speak env_ok sral_two_voices
        (setVoice sral_two_voices (getVoicesList sral_two_voices fresh_Speech).1.2 1).1.2
        "hello" world_three_devices =
    Normal false world_three_devices [EvLog warn "Trying to speak with unsupported voice"].
Proof.
  split.
  - apply (proj2 (proj2 (proj2 (speak_refuses_unsupported_voice env_ok sral_two_voices
                                   fresh_Speech 1))) 2 [anna; boris] boris);
      [reflexivity | reflexivity | lia | reflexivity | reflexivity].
  - apply (proj1 (proj2 (speak_refuses_unsupported_voice env_ok sral_two_voices
                           (getVoicesList sral_two_voices fresh_Speech).1.2 1))).
    vm_compute. apply list_elem_of_singleton. reflexivity.
Defined.

(** X17: when the voice is not marked unsupported and the speech library
    hands [speak] a buffer, every path on which [speak] returns has
    released that buffer exactly once, whether [speak] rejected the
    metadata itself or passed the buffer on to [playAudioData]; when the
    library hands back no buffer, [speak] logs an error and returns
    [false] without touching the audio engine. *)
Theorem speak_releases_once (E : Env) (S : SRAL) (this : Speech) (text : string)
    (w : World) :
  m_unsupportedVoiceIsSet this = false →
  (∀ (buf : Block) (size ch sr bits : Z) (b : bool) (w' : World) (evs : list Event),
     SRAL_SpeakToMemoryEx S text = (Some buf, size, ch, sr, bits) →
     speak E S this text w = Normal b w' evs →
     releases (blk_addr buf) evs = 1%nat) ∧
  (∀ size ch sr bits : Z,
     SRAL_SpeakToMemoryEx S text = (None, size, ch, sr, bits) →
     speak E S this text w =
       Normal false w [EvLog error "SRAL_SpeakToMemoryEx returned nullptr"]).
Proof.
  intros Hflag. split.
  - intros buf size ch sr bits b w' evs Hsynth. unfold speak. rewrite Hflag, Hsynth.
    destruct ((ch <=? 0) || (sr <=? 0) || (bits <=? 0)); run.
    + intros [= _ _ <-]. by count_releases.
    + intros Hrun. pose proof (playAudioData_release E ch sr bits size buf w) as Hrel.
      by rewrite Hrun in Hrel.
  - intros size ch sr bits Hsynth. unfold speak. rewrite Hflag, Hsynth. by run.
Qed.

(** Speaking with Anna plays the four bytes and releases them. *)
Lemma speak_releases_once_witness :
  releases (blk_addr four_bytes)
           (events_of (speak env_ok sral_two_voices fresh_Speech "hello"
                             world_three_devices)) = 1%nat.
Proof.
  destruct (speak env_ok sral_two_voices fresh_Speech "hello" world_three_devices)
    as [b w' evs | |] eqn:Hrun; [| discriminate Hrun | discriminate Hrun].
  exact (proj1 (speak_releases_once env_ok sral_two_voices fresh_Speech "hello"
                  world_three_devices eq_refl)
               four_bytes 4 1 22050 16 b w' evs eq_refl Hrun).
Defined.

(** ** The device list of the main window *)

Lemma selectDevice_in_range (w : World) (i : nat) (d : DeviceInfo) :
  m_lastDevicesList (audio w) !! i = Some d →
  selectDevice i w =
    Normal tt
           {| audio := set_selectedDeviceID (id d) (audio w);
              next_handle := next_handle w |}
           [].
Proof.
  intros Hd. unfold selectDevice. run.
  rewrite bool_decide_false by (intros Hnil; by rewrite Hnil in Hd). run.
  rewrite bool_decide_false by (apply lookup_lt_Some in Hd; lia). run.
  rewrite Hd. by run.
Qed.

Lemma append_device_labels (l : list DeviceInfo) (lb : wxListBox) :
  foldl (λ lb device, AppendString (device_label device) lb) lb l =
  {| lb_items := lb_items lb ++ map device_label l; lb_selection := lb_selection lb |}.
Proof.
  revert lb. induction l as [|d l IH]; intros lb; simpl.
  - rewrite app_nil_r. by destruct lb.
  - rewrite IH. simpl. by rewrite <- app_assoc.
Qed.

Lemma to_size_t_of_nat (i : nat) : Z.of_nat i ≤ INT_MAX → to_size_t (Z.of_nat i) = i.
Proof.
  intros Hi. unfold to_size_t, to_uint64, INT_MAX in *. rewrite Z.mod_small by lia. lia.
Qed.

(** What [populateDevicesList] leaves when devices were found. *)
Lemma populateDevicesList_run (E : Env) (this : MainFrame) (w : World)
    (first : DeviceInfo) (l : list DeviceInfo) (w1 : World) (evs1 : list Event) :
  m_cliOutputDeviceIndex this ≤ INT_MAX →
  getDevicesList E w = Normal (first :: l) w1 evs1 →
  ∃ (i : nat) (d : DeviceInfo) (evs : list Event),
    (first :: l) !! i = Some d ∧
    (Z.of_nat i = m_cliOutputDeviceIndex this ∨
     (i = 0%nat ∧ ¬ (0 ≤ m_cliOutputDeviceIndex this < Z.of_nat (length (first :: l))))) ∧
    m_lastDevicesList (audio w1) = first :: l ∧
    populateDevicesList E this w =
      Normal (set_outputDevices (Z.of_nat i)
                {| lb_items := map device_label (first :: l);
                   lb_selection := Z.of_nat i |} this)
             {| audio := set_selectedDeviceID (id d) (audio w1);
                next_handle := next_handle w1 |}
             evs.
Proof.
  intros Hint Hg.
  destruct (getDevicesList_cases E w) as [[l' Hg'] | (r & _ & Hg')];
    rewrite Hg' in Hg; [| done].
  injection Hg as -> <- <-.
  unfold populateDevicesList. run. rewrite Hg'. run.
  rewrite bool_decide_false by done. rewrite append_device_labels.
  destruct ((m_cliOutputDeviceIndex this <? 0) ||
            bool_decide (length (first :: l) ≤ to_size_t (m_cliOutputDeviceIndex this))%nat)
    eqn:Hrange; run.
  - change (to_size_t 0) with 0%nat.
    rewrite (selectDevice_in_range _ 0 first) by done. run.
    exists 0%nat, first. eexists. split; [done |]. split; [| split; [done | reflexivity]].
    right. split; [done |]. apply orb_true_iff in Hrange as [Hneg | Hbig]; [lia |].
    apply bool_decide_eq_true in Hbig. intros [Hlo Hhi].
    assert (Hi : to_size_t (m_cliOutputDeviceIndex this) =
                 Z.to_nat (m_cliOutputDeviceIndex this)).
    { unfold to_size_t, to_uint64, INT_MAX in *. by rewrite Z.mod_small by lia. }
    rewrite Hi in Hbig. lia.
  - apply orb_false_iff in Hrange as [Hneg Hbig]. apply bool_decide_eq_false in Hbig.
    assert (Hlo : 0 ≤ m_cliOutputDeviceIndex this) by lia.
    assert (Hi : to_size_t (m_cliOutputDeviceIndex this) =
                 Z.to_nat (m_cliOutputDeviceIndex this)).
    { unfold to_size_t, to_uint64, INT_MAX in *. by rewrite Z.mod_small by lia. }
    rewrite Hi in Hbig |- *.
    destruct (lookup_lt_is_Some_2 (first :: l) (Z.to_nat (m_cliOutputDeviceIndex this)))
      as [d Hd]; [lia |].
    rewrite (selectDevice_in_range _ _ d) by done. run.
    exists (Z.to_nat (m_cliOutputDeviceIndex this)), d. eexists.
    split; [done |]. split; [left; lia |]. split; [done |].
    rewrite Z2Nat.id by done. reflexivity.
Qed.

(** X18: [populateDevicesList] makes the list box and the audio engine
    agree. When devices are enumerated, the list box shows one entry per
    device in the order of the enumeration, the entry selected is the one
    at the index given on the command line, or the first when that index
    is negative or beyond the list, and the device the audio engine
    records as selected is the device of the selected entry. When none is
    enumerated, the list box shows the single entry ["No devices"] with no
    selection and the audio engine's selection is untouched. *)
Theorem populateDevicesList_selects_shown (E : Env) (this f' : MainFrame) (w w' : World)
    (evs : list Event) :
  m_cliOutputDeviceIndex this ≤ INT_MAX →
  populateDevicesList E this w = Normal f' w' evs →
  (m_lastDevicesList (audio w') = [] ∧
   lb_items (m_outputDevicesList f') = ["No devices"] ∧
   lb_selection (m_outputDevicesList f') = wxNOT_FOUND ∧
   m_selectedDeviceID (audio w') = m_selectedDeviceID (audio w)) ∨
  (lb_items (m_outputDevicesList f') = map device_label (m_lastDevicesList (audio w')) ∧
   ∃ (i : nat) (d : DeviceInfo),
     lb_selection (m_outputDevicesList f') = Z.of_nat i ∧
     m_cliOutputDeviceIndex f' = Z.of_nat i ∧
     m_lastDevicesList (audio w') !! i = Some d ∧
     m_selectedDeviceID (audio w') = id d ∧
     (Z.of_nat i = m_cliOutputDeviceIndex this ∨
      (i = 0%nat ∧
       ¬ (0 ≤ m_cliOutputDeviceIndex this <
          Z.of_nat (length (m_lastDevicesList (audio w'))))))).
Proof.
  intros Hint Hrun.
  destruct (getDevicesList_cases E w) as [[l Hg] | (r & _ & Hg)].
  - destruct l as [|first l].
    + left. revert Hrun. unfold populateDevicesList. run. rewrite Hg. run.
      intros [= <- <- _]. done.
    + right.
      destruct (populateDevicesList_run E this w first l _ _ Hint Hg)
        as (i & d & evs' & Hd & Hi & Hl & Hrun').
      rewrite Hrun' in Hrun. injection Hrun as <- <- _. cbn.
      split; [done |]. exists i, d. done.
  - revert Hrun. unfold populateDevicesList. run. by rewrite Hg.
Qed.

(** Started with [--device 7] on three devices, the window shows the
    three and selects the first. *)
Lemma populateDevicesList_selects_shown_witness :
  ∃ (f' : MainFrame) (w' : World),
    lb_items (m_outputDevicesList f') =
      ["[default] Speakers"; " HDMI Output"; " USB Headset"] ∧
    lb_selection (m_outputDevicesList f') = 0 ∧
    m_selectedDeviceID (audio w') = "speakers".
Proof.
  destruct (populateDevicesList env_ok frame_cli world_three_devices)
    as [f' w' evs | |] eqn:Hrun; [| discriminate Hrun | discriminate Hrun].
  exists f', w'.
  destruct (populateDevicesList_selects_shown env_ok frame_cli f' world_three_devices w' evs
              ltac:(by compute) Hrun)
    as [(Hnone & _) | (Hitems & i & d & Hsel & _ & Hd & Hid & Hi)];
    injection Hrun as <- <- _.
  - discriminate Hnone.
  - split; [exact Hitems |].
    destruct Hi as [Hi | [-> _]]; [cbn in Hi, Hd | ].
    + apply lookup_lt_Some in Hd. cbn in Hd. lia.
    + split; [exact Hsel |]. cbn in Hd. injection Hd as <-. exact Hid.
Defined.

(** X19: after [populateDevicesList] filled the list box from a non-empty
    enumeration, choosing an entry makes [OnOutputDeviceChange] record,
    without a warning, the device that entry shows; and an event that
    arrives with no entry selected only logs a warning. *)
Theorem OnOutputDeviceChange_selects_entry :
  (∀ (this : MainFrame) (w : World),
     GetSelection (m_outputDevicesList this) = wxNOT_FOUND →
     OnOutputDeviceChange this w =
       Normal tt w [EvLog warn "Device selection event received with no selection"]) ∧
  (∀ (E : Env) (f0 f1 : MainFrame) (w0 w1 : World) (evs : list Event) (i : nat)
     (label : string),
     m_cliOutputDeviceIndex f0 ≤ INT_MAX →
     populateDevicesList E f0 w0 = Normal f1 w1 evs →
     m_lastDevicesList (audio w1) ≠ [] →
     lb_items (m_outputDevicesList f1) !! i = Some label →
     Z.of_nat i ≤ INT_MAX →
     ∃ d : DeviceInfo,
       label = device_label d ∧
       m_lastDevicesList (audio w1) !! i = Some d ∧
       OnOutputDeviceChange
         (set_outputDevices (m_cliOutputDeviceIndex f1)
                            (SetSelection (Z.of_nat i) (m_outputDevicesList f1)) f1)
         w1 =
         Normal tt
                {| audio := set_selectedDeviceID (id d) (audio w1);
                   next_handle := next_handle w1 |}
                []).
Proof.
  split.
  - intros this w Hnone. unfold OnOutputDeviceChange. by rewrite Hnone.
  - intros E f0 f1 w0 w1 evs i label Hint Hrun Hdevices Hlabel Hi.
    destruct (getDevicesList_cases E w0) as [[l Hg] | (r & _ & Hg)].
    2: { revert Hrun. unfold populateDevicesList. run. by rewrite Hg. }
    destruct l as [|first l].
    { revert Hrun. unfold populateDevicesList. run. rewrite Hg. run.
      intros [= <- <- _]. done. }
    destruct (populateDevicesList_run E f0 w0 first l _ _ Hint Hg)
      as (i0 & d0 & evs' & Hd0 & _ & Hl & Hrun').
    rewrite Hrun' in Hrun. injection Hrun as <- <- _.
    cbn in Hlabel |- *.
    change (device_label first :: map device_label l)
      with (map device_label (first :: l)) in Hlabel.
    apply list_lookup_fmap_Some in Hlabel as (d & -> & Hd).
    exists d. split; [done |]. split; [done |].
    unfold OnOutputDeviceChange, GetSelection. cbn.
    rewrite bool_decide_false by (unfold wxNOT_FOUND; lia).
    rewrite to_size_t_of_nat by done.
    by rewrite (selectDevice_in_range _ i d).
Qed.

(** The third entry of the list is the headset. *)
Lemma OnOutputDeviceChange_selects_entry_witness :
  ∃ (f1 : MainFrame) (w1 : World) (d : DeviceInfo),
    " USB Headset" = device_label d ∧
    OnOutputDeviceChange
      (set_outputDevices (m_cliOutputDeviceIndex f1)
                         (SetSelection 2 (m_outputDevicesList f1)) f1)
      w1 =
      Normal tt
             {| audio := set_selectedDeviceID (id d) (audio w1);
                next_handle := next_handle w1 |}
             [].
Proof.
  destruct (populateDevicesList env_ok frame_cli world_three_devices)
    as [f1 w1 evs | |] eqn:Hrun; [| discriminate Hrun | discriminate Hrun].
  destruct (proj2 OnOutputDeviceChange_selects_entry env_ok frame_cli f1
                  world_three_devices w1 evs 2%nat " USB Headset")
    as (d & Hlabel & _ & Hchange).
  - by compute.
  - exact Hrun.
  - injection Hrun as _ <- _. discriminate.
  - injection Hrun as <- _ _. reflexivity.
  - by compute.
  - exists f1, w1, d. split; [exact Hlabel | exact Hchange].
Defined.

(** ** The voice list of the main window *)

Lemma append_voices_spec (cliVoiceName : string) (voices : list string) (c : nat)
    (lb : wxListBox) (idx : Z) (found : bool) :
  append_voices cliVoiceName voices c lb idx found =
  ({| lb_items := lb_items lb ++ voices; lb_selection := lb_selection lb |},
   if found then idx
   else match list_find (λ v, v = cliVoiceName) voices with
        | Some (i, _) => Z.of_nat (c + i)
        | None => idx
        end,
   found || bool_decide (is_Some (list_find (λ v, v = cliVoiceName) voices))).
Proof.
  revert c lb idx found. induction voices as [|v voices IH]; intros c lb idx found.
  { simpl. rewrite app_nil_r, orb_false_r. destruct lb, found; done. }
  cbn [append_voices list_find]. rewrite !IH. simpl.
  destruct found; simpl.
  - by rewrite <- app_assoc.
  - destruct (decide (v = cliVoiceName)) as [-> | Hne].
    + rewrite bool_decide_true by done. simpl. rewrite <- app_assoc.
      by rewrite Nat.add_0_r.
    + rewrite bool_decide_false by done. simpl. rewrite <- app_assoc.
      destruct (list_find (λ v0, v0 = cliVoiceName) voices) as [[i x]|]; simpl; [| done].
      do 2 f_equal. by rewrite Nat.add_succ_r.
Qed.

(** X20: [populateVoicesList] with voices available shows them in the
    order [getVoicesList] returned them and selects one inside the list:
    the first whose listed name equals the name given on the command line,
    if there is one; otherwise the index given on the command line, or the
    first voice when that index is negative or beyond the list. The same
    index is passed to [setVoice]. With no voice available the list shows
    ["No voices available"], nothing is selected and [setVoice] is not
    called. *)
Theorem populateVoicesList_selects (S : SRAL) (this : MainFrame) (speech speech1 : Speech)
    (voices : list string) (evs0 : list Event) :
  getVoicesList S speech = (voices, speech1, evs0) →
  Z.of_nat (length voices) ≤ INT_MAX → m_cliVoiceIndex this ≤ INT_MAX →
  (voices = [] →
   populateVoicesList S this speech =
     (set_voices (m_cliVoiceIndex this)
                 {| lb_items := ["No voices available"]; lb_selection := wxNOT_FOUND |} this,
      speech1,
      evs0 ++ [EvLog warn "No voices available, voice selection is disabled"])) ∧
  (voices ≠ [] →
   ∃ (i : nat) (evs : list Event),
     (i < length voices)%nat ∧
     populateVoicesList S this speech =
       (set_voices (Z.of_nat i) {| lb_items := voices; lb_selection := Z.of_nat i |} this,
        (setVoice S speech1 i).1.2, evs) ∧
     match list_find (λ v, v = m_cliVoiceName this) voices with
     | Some (j, _) => i = j
     | None =>
         Z.of_nat i = m_cliVoiceIndex this ∨
         (i = 0%nat ∧ ¬ (0 ≤ m_cliVoiceIndex this < Z.of_nat (length voices)))
     end).
Proof.
  intros Hvoices Hlen Hint. split.
  - intros ->. unfold populateVoicesList. by rewrite Hvoices.
  - intros Hne. unfold populateVoicesList. rewrite Hvoices.
    rewrite bool_decide_false by done. rewrite append_voices_spec. cbn [Clear lb_items
      lb_selection app Nat.add].
    set (byName := list_find (λ v, v = m_cliVoiceName this) voices).
    assert (Hidx : ∃ i : nat,
               (i < length voices)%nat ∧
               (let idx := match byName with
                           | Some (i, _) => Z.of_nat i
                           | None => m_cliVoiceIndex this
                           end in
                if (idx <? 0) || bool_decide (length voices ≤ to_size_t idx)%nat
                then (0, [EvLog warn "Voice index {} is out of range. Falling back to 0."])
                else (idx, [])).1 = Z.of_nat i ∧
               match byName with
               | Some (j, _) => i = j
               | None =>
                   Z.of_nat i = m_cliVoiceIndex this ∨
                   (i = 0%nat ∧ ¬ (0 ≤ m_cliVoiceIndex this < Z.of_nat (length voices)))
               end).
    { assert (Hpos : (0 < length voices)%nat) by (destruct voices; [done | simpl; lia]).
      destruct byName as [[j x]|] eqn:Hfind.
      - apply list_find_Some in Hfind as (Hj & _). apply lookup_lt_Some in Hj.
        exists j. split; [done |]. split; [| done]. cbn zeta.
        rewrite to_size_t_of_nat by lia.
        replace (Z.of_nat j <? 0) with false by (symmetry; lia).
        by rewrite bool_decide_false by lia.
      - cbn zeta.
        destruct ((m_cliVoiceIndex this <? 0) ||
                  bool_decide (length voices ≤ to_size_t (m_cliVoiceIndex this))%nat)
          eqn:Hrange.
        + exists 0%nat. split; [done |]. split; [done |]. right. split; [done |].
          apply orb_true_iff in Hrange as [Hneg | Hbig]; [lia |].
          apply bool_decide_eq_true in Hbig. intros [Hlo Hhi].
          assert (Hi : to_size_t (m_cliVoiceIndex this) = Z.to_nat (m_cliVoiceIndex this)).
          { unfold to_size_t, to_uint64, INT_MAX in *. by rewrite Z.mod_small by lia. }
          rewrite Hi in Hbig. lia.
        + apply orb_false_iff in Hrange as [Hneg Hbig]. apply bool_decide_eq_false in Hbig.
          assert (Hi : to_size_t (m_cliVoiceIndex this) = Z.to_nat (m_cliVoiceIndex this)).
          { unfold to_size_t, to_uint64, INT_MAX in *. rewrite Z.mod_small by lia. done. }
          rewrite Hi in Hbig. exists (Z.to_nat (m_cliVoiceIndex this)).
          split; [lia |]. split; [simpl; lia |]. left. lia. }
    destruct Hidx as (i & Hi & Hsel & Hname).
    destruct (if (_ <? 0) || _ then _ else _) as [idx evs_range]. cbn [fst] in Hsel.
    subst idx. rewrite to_size_t_of_nat by lia.
    exists i, (evs0 ++ evs_range ++ (setVoice S speech1 i).2).
    split; [done |]. split; [| done].
    destruct (setVoice S speech1 i) as [[r speech2] evs_voice]. reflexivity.
Qed.

(** Started with [--voice-name Anna], the window selects Anna. *)
Lemma populateVoicesList_selects_witness :
  ∃ (i : nat) (evs : list Event),
    populateVoicesList sral_two_voices frame_cli fresh_Speech =
      (set_voices (Z.of_nat i)
                  {| lb_items := ["Anna"; "!Not supported Boris"];
                     lb_selection := Z.of_nat i |} frame_cli,
       (setVoice sral_two_voices (getVoicesList sral_two_voices fresh_Speech).1.2 i).1.2,
       evs) ∧
    i = 0%nat.
Proof.
  destruct (proj2 (populateVoicesList_selects sral_two_voices frame_cli fresh_Speech
                     (getVoicesList sral_two_voices fresh_Speech).1.2
                     ["Anna"; "!Not supported Boris"] []
                     eq_refl ltac:(by compute) ltac:(by compute))
                  ltac:(discriminate))
    as (i & evs & _ & Hrun & Hname).
  exists i, evs. split; [exact Hrun | exact Hname].
Defined.

(** ** Concrete runs of the reclamation *)

(** Of the two sounds in flight, the one still playing is kept and the
    finished one is deleted. *)
Lemma freeSounds_only_finished_witness :
  ∃ (kept : list (option SoundPayload)) (evs : list Event),
    freeSounds env_first_finished true world_two_sounds =
      Normal tt {| audio := set_sounds kept (audio world_two_sounds);
                   next_handle := next_handle world_two_sounds |} evs ∧
    Some (two_frames 5%nat) ∈ kept ∧
    In (EvPayloadDelete 2%nat) evs.
Proof.
  destruct (freeSounds_only_finished env_first_finished world_two_sounds)
    as (kept & evs & Hrun & _ & Hkept & _ & Hdel).
  exists kept, evs. split; [exact Hrun |]. split.
  - apply (Hkept (two_frames 5%nat)).
    + apply elem_of_cons. right. apply elem_of_cons. by left.
    + intros (s & Hs & Hend). injection Hs as <-. discriminate Hend.
  - apply (Hdel 2%nat). exists (two_frames 2%nat).
    split; [apply elem_of_cons; by left |]. split; [| reflexivity].
    exists {| snd_handle := 4%nat; snd_source := 3%nat |}. split; reflexivity.
Defined.

(** At teardown both sounds are deleted and the registry is empty. *)
Lemma freeSounds_all_witness :
  ∃ (kept : list (option SoundPayload)) (evs : list Event),
    freeSounds env_ok false world_two_sounds =
      Normal tt {| audio := set_sounds kept (audio world_two_sounds);
                   next_handle := next_handle world_two_sounds |} evs ∧
    kept = [] ∧
    In (EvPayloadDelete 5%nat) evs.
Proof.
  destruct (freeSounds_all env_ok world_two_sounds)
    as (kept & evs & Hrun & _ & _ & Hdel & Hempty).
  exists kept, evs. split; [exact Hrun |]. split.
  - apply Hempty. intros Hnone.
    apply elem_of_cons in Hnone as [Hnone | Hnone]; [discriminate Hnone |].
    apply elem_of_cons in Hnone as [Hnone | Hnone]; [discriminate Hnone |].
    by apply elem_of_nil in Hnone.
  - apply (Hdel (two_frames 5%nat)). apply elem_of_cons. right. apply elem_of_cons. by left.
Defined.

(** ** Choosing a voice in the list *)

(** What [populateVoicesList] leaves in the list box and in the vector of
    unsupported indices when voices are available. *)
Lemma populateVoicesList_lists (S : SRAL) (this : MainFrame) (speech speech0 : Speech)
    (voices : list string) (evs0 : list Event) :
  getVoicesList S speech = (voices, speech0, evs0) → voices ≠ [] →
  lb_items (m_voicesList (populateVoicesList S this speech).1.1) = voices ∧
  m_unsupportedVoiceIndices (populateVoicesList S this speech).1.2 =
    m_unsupportedVoiceIndices speech0.
Proof.
  intros Hvoices Hne. unfold populateVoicesList. rewrite Hvoices.
  rewrite bool_decide_false by done. rewrite append_voices_spec.
  destruct (if (_ <? 0) || _ then _ else _) as [idx evs_range].
  unfold setVoice. destruct (negb (SRAL_set_voice_index S (to_size_t idx))); done.
Qed.

(** X21: the mark shown in the voice list and the refusal of [speak]
    agree. After [populateVoicesList] filled the list from a [Speech]
    object with no index recorded, the entry at each position is the label
    of the voice at that position, and when that entry is chosen
    [OnVoiceChange] leaves [m_unsupportedVoiceIsSet] set exactly when the
    voice is not supported, so that the next [speak] is refused with a
    warning for the voices listed as ["!Not supported "]. An event that
    arrives with no entry selected only logs a warning and leaves the
    [Speech] object as it was. *)
Theorem OnVoiceChange_marks_unsupported_entry (E : Env) (S : SRAL) :
  (∀ (this : MainFrame) (speech : Speech),
     GetSelection (m_voicesList this) = wxNOT_FOUND →
     OnVoiceChange S this speech =
       (speech, [EvLog warn "Voice selection event received with no selection"])) ∧
  (∀ (f0 f1 : MainFrame) (speech speech1 : Speech) (evs : list Event) (n : Z)
     (written : list SRAL_VoiceInfo) (i : nat) (v : SRAL_VoiceInfo),
     m_unsupportedVoiceIndices speech = [] →
     SRAL_voice_count S = (true, n) → 0 < n ≤ INT_MAX →
     SRAL_voice_properties S (Z.to_nat n) = (true, written) →
     populateVoicesList S f0 speech = (f1, speech1, evs) →
     resize (Z.to_nat n) zero_VoiceInfo written !! i = Some v →
     let chosen :=
       set_voices (m_cliVoiceIndex f1) (SetSelection (Z.of_nat i) (m_voicesList f1)) f1 in
     lb_items (m_voicesList f1) !! i = Some (voice_label S v) ∧
     m_unsupportedVoiceIsSet (OnVoiceChange S chosen speech1).1 =
       negb (CheckVoiceIsSupported S v) ∧
     (CheckVoiceIsSupported S v = false →
      ∀ (text : string) (w : World),
        speak E S (OnVoiceChange S chosen speech1).1 text w =
          Normal false w [EvLog warn "Trying to speak with unsupported voice"])).
Proof.
  split.
  - intros this speech Hsel. unfold OnVoiceChange. by rewrite Hsel, bool_decide_true.
  - intros f0 f1 speech speech1 evs n written i v Hnone Hcount [Hn Hmax] Hprops Hrun Hv chosen.
    destruct (getVoicesList_success S speech n written Hcount Hn Hprops)
      as (speech0 & Hlist & _ & _ & Hmem).
    assert (Hi : (i < Z.to_nat n)%nat).
    { apply lookup_lt_Some in Hv. by rewrite length_resize in Hv. }
    assert (Hne : map (voice_label S) (resize (Z.to_nat n) zero_VoiceInfo written) ≠ []).
    { intros Hnil. apply (f_equal length) in Hnil.
      rewrite length_map, length_resize in Hnil. simpl in Hnil. lia. }
    destruct (populateVoicesList_lists S f0 speech speech0 _ [] Hlist Hne) as [Hitems Hidx].
    rewrite Hrun in Hitems, Hidx. cbn [fst snd] in Hitems, Hidx.
    assert (Hflag : m_unsupportedVoiceIsSet (OnVoiceChange S chosen speech1).1 =
                    negb (CheckVoiceIsSupported S v)).
    { unfold OnVoiceChange, chosen. cbn [GetSelection set_voices SetSelection m_voicesList
        lb_selection].
      rewrite bool_decide_false by (unfold wxNOT_FOUND; lia).
      rewrite to_size_t_of_nat by lia.
      unfold setVoice. rewrite Hidx.
      assert (Hin : bool_decide (i ∈ m_unsupportedVoiceIndices speech0) =
                    negb (CheckVoiceIsSupported S v)).
      { rewrite Hnone in Hmem. destruct (CheckVoiceIsSupported S v) eqn:Hsup; cbn [negb].
        - apply bool_decide_eq_false. rewrite Hmem.
          intros [Hin | (v' & Hv' & Hsup')]; [by apply elem_of_nil in Hin | congruence].
        - apply bool_decide_eq_true. rewrite Hmem. right. by exists v. }
      by destruct (negb (SRAL_set_voice_index S i)). }
    split; [| split].
    + rewrite Hitems, list_lookup_fmap, Hv. done.
    + exact Hflag.
    + intros Hsup text w. unfold speak. rewrite Hflag, Hsup. by run.
Qed.

(** Boris, listed as not supported, is chosen in the list: the next
    [speak] is refused. *)
Lemma OnVoiceChange_marks_unsupported_entry_witness :
  let listed := populateVoicesList sral_two_voices frame_cli fresh_Speech in
  let chosen :=
    set_voices (m_cliVoiceIndex listed.1.1)
               (SetSelection 1 (m_voicesList listed.1.1)) listed.1.1 in
  lb_items (m_voicesList listed.1.1) !! 1%nat = Some "!Not supported Boris" ∧
  speak env_ok sral_two_voices (OnVoiceChange sral_two_voices chosen listed.1.2).1
        "hello" world_three_devices =
    Normal false world_three_devices [EvLog warn "Trying to speak with unsupported voice"].
Proof.
  destruct (proj2 (OnVoiceChange_marks_unsupported_entry env_ok sral_two_voices)
                  frame_cli
                  (populateVoicesList sral_two_voices frame_cli fresh_Speech).1.1
                  fresh_Speech
                  (populateVoicesList sral_two_voices frame_cli fresh_Speech).1.2
                  (populateVoicesList sral_two_voices frame_cli fresh_Speech).2
                  2 [anna; boris] 1%nat boris
                  eq_refl eq_refl ltac:(by compute) eq_refl eq_refl eq_refl)
    as (Hitem & _ & Hspeak).
  split; [exact Hitem | exact (Hspeak eq_refl "hello" world_three_devices)].
Defined.
